(** * Sales RAG pipeline: aggregation, embedding, storage and retrieval

    A shallow embedding of the core of the repository
    (src/data/processor.py, src/embeddings/generator.py,
    src/embeddings/storage.py, src/agent/sales_agent.py) and the
    properties stated about it.

    Conventions of the embedding:
    - a Python [float] is an exact rational ([Qc]); a cell or a result
      that is not a finite number (NaN, inf, a missing CSV field) is
      [None] of an [option];
    - a [dict] whose iteration order matters is an association list in
      insertion order, the Qdrant collection is a [gmap] from point ids
      to points;
    - code that can raise returns a [Py.result]; the external services
      (sentence-transformers, Groq, Qdrant, the clock, uuid4) are
      explicit state or section variables. *)

From Stdlib Require Import QArith Qcanon Lia Ascii.
From stdpp Require Import base decidable option list numbers strings gmap sorting.

(** ** Python exceptions and fallible computations *)

Module Py.

(** Instances of Python's [Exception]; interpreter-exit signals
    (KeyboardInterrupt, SystemExit) are outside the model. *)
Inductive exn : Type :=
| IndexError (msg : string)
| ValueError (msg : string)
| ServiceError (msg : string)
| RetryError (last : exn).

Inductive result (A : Type) : Type :=
| Ok (a : A)
| Raise (e : exn).
Global Arguments Ok {A} a.
Global Arguments Raise {A} e.

Global Instance result_ret : MRet result := λ A a, Ok a.
Global Instance result_bind : MBind result := λ A B f m,
  match m with Ok a => f a | Raise e => Raise e end.
Global Instance result_fmap : FMap result := λ A B f m,
  match m with Ok a => Ok (f a) | Raise e => Raise e end.

(** [try: body  except Exception as e: handler e] *)
Definition try_except {A} (body : result A) (handler : exn → result A) : result A :=
  match body with Ok a => Ok a | Raise e => handler e end.

(** Run a fallible step on every element, left to right, stopping at
    the first exception. *)
Fixpoint mapM {A B} (f : A → result B) (l : list A) : result (list B) :=
  match l with
  | [] => Ok []
  | x :: t => y ← f x; ys ← mapM f t; mret (y :: ys)
  end.

(** [d[k] = v] on an insertion-ordered dict: an existing key keeps its
    position and takes the new value, a new key goes last. *)
Fixpoint dict_set {V} (k : string) (v : V) (d : list (string * V)) : list (string * V) :=
  match d with
  | [] => [(k, v)]
  | (k', v') :: t => if decide (k' = k) then (k, v) :: t else (k', v') :: dict_set k v t
  end.

Definition dict_of_items {V} (items : list (string * V)) : list (string * V) :=
  foldl (λ d kv, dict_set kv.1 kv.2 d) [] items.

(** [l.sort(key=key, reverse=True)] and pandas' descending sorts:
    a stable sort, larger keys first, equal keys in input order. *)
Section stable_sort.
Context {A K : Type} (le : relation K) `{!RelDecision le} (key : A → K).

Fixpoint insert_desc (x : A) (l : list A) : list A :=
  match l with
  | [] => [x]
  | y :: t => if decide (le (key y) (key x)) then x :: y :: t
              else y :: insert_desc x t
  end.

Definition sort_desc (l : list A) : list A := foldr insert_desc [] l.
End stable_sort.

(** First occurrences only, in order ([Series.unique],
    [DataFrame.drop_duplicates] with its default keep='first'). *)
Fixpoint unique_from {A} `{EqDecision A} (seen l : list A) : list A :=
  match l with
  | [] => []
  | x :: t => if decide (x ∈ seen) then unique_from seen t
              else x :: unique_from (x :: seen) t
  end.
Definition unique {A} `{EqDecision A} (l : list A) : list A := unique_from [] l.

End Py.
Import Py.

(** ** Floats *)

Definition Qc_of_nat (n : nat) : Qc := Qc_of_Z (Z.of_nat n).

(** [a / b] on floats; a zero divisor gives inf or nan, never a finite
    number. *)
Definition fdiv (a b : Qc) : option Qc :=
  if decide (b = 0%Qc) then None else Some (a / b)%Qc.

Definition fsum (xs : list Qc) : Qc := foldr Qcplus 0%Qc xs.


(** ** src/data/processor.py *)

Module Processor.

(** One line of the CSV after [read_csv] and the type coercions of
    [clean_data]: a missing or unparsable cell is [None]. The columns
    the code never reads are kept in [OTHER] (they take part in
    duplicate detection). *)
Record Row : Type := mkRow {
  ORDERNUMBER : option Z;
  QUANTITYORDERED : option Qc;
  PRICEEACH : option Qc;
  SALES : option Qc;
  ORDERDATE : option Z;
  STATUS : option string;
  PRODUCTLINE : option string;
  PRODUCTCODE : option string;
  CUSTOMERNAME : option string;
  PHONE : option string;
  CITY : option string;
  STATE : option string;
  POSTALCODE : option string;
  COUNTRY : option string;
  TERRITORY : option string;
  CONTACTLASTNAME : option string;
  CONTACTFIRSTNAME : option string;
  DEALSIZE : option string;
  OTHER : list (option string)
}.

Global Instance Row_eq_dec : EqDecision Row.
Proof. solve_decision. Defined.

Abbreviation DataFrame := (list Row).

(** *** Column reductions (pandas skips missing values) *)

Definition dropna {A} (xs : list (option A)) : list A := omap id xs.

Definition col_count {A} (xs : list (option A)) : nat := length (dropna xs).
Definition col_sum (xs : list (option Qc)) : Qc := fsum (dropna xs).
Definition col_mean (xs : list (option Qc)) : option Qc :=
  fdiv (col_sum xs) (Qc_of_nat (col_count xs)).
Definition col_first {A} (xs : list (option A)) : option A := head (dropna xs).

Definition Qc_max (a b : Qc) : Qc := if decide (a ≤ b)%Qc then b else a.
Definition Z_max_list (xs : list Z) : option Z :=
  match xs with [] => None | x :: t => Some (foldl Z.max x t) end.
Definition Qc_max_list (xs : list Qc) : option Qc :=
  match xs with [] => None | x :: t => Some (foldl Qc_max x t) end.
Definition nat_max_list (xs : list nat) : option nat :=
  match xs with [] => None | x :: t => Some (foldl Nat.max x t) end.
Definition col_max (xs : list (option Qc)) : option Qc := Qc_max_list (dropna xs).

Definition nunique {A} `{EqDecision A} (xs : list (option A)) : nat :=
  length (unique (dropna xs)).

(** [x.value_counts()]: the distinct present values with their number
    of occurrences, most frequent first; equally frequent values are
    taken in order of first occurrence, the tie order the specification
    gives. *)
Definition value_counts (xs : list (option string)) : list (string * nat) :=
  let vals := dropna xs in
  sort_desc Nat.le snd
    ((λ v, (v, length (filter (λ w, w = v) vals))) <$> unique vals).

(** [x.value_counts().index[0]] *)
Definition most_frequent (xs : list (option string)) : result string :=
  match value_counts xs with
  | [] => Raise (IndexError "index 0 is out of bounds for axis 0 with size 0")
  | (v, _) :: _ => Ok v
  end.

(** *** groupby *)

(** Rows whose key is missing belong to no group; groups come in
    ascending key order. *)
Section groupby.
Context {K : Type} `{EqDecision K} (le : relation K) `{!RelDecision le}.
Variable key : Row → option K.

Definition group_keys (df : DataFrame) : list K :=
  merge_sort le (remove_dups (omap key df)).
Definition group_rows (df : DataFrame) (k : K) : DataFrame :=
  filter (λ r, key r = Some k) df.
Definition groupby (df : DataFrame) : list (K * DataFrame) :=
  (λ k, (k, group_rows df k)) <$> group_keys df.
End groupby.

Definition pair_le (p q : string * string) : Prop :=
  String.le p.1 q.1 ∧ (p.1 = q.1 → String.le p.2 q.2).
Global Instance pair_le_dec : RelDecision pair_le.
Proof. intros p q. unfold pair_le. apply _. Defined.

Definition product_key (r : Row) : option (string * string) :=
  l ← PRODUCTLINE r; c ← PRODUCTCODE r; Some (l, c).

(** *** clean_data *)

Definition fillna (d : string) (x : option string) : option string :=
  Some (default d x).

Definition fill_missing (r : Row) : Row :=
  mkRow (ORDERNUMBER r) (QUANTITYORDERED r) (PRICEEACH r) (SALES r)
        (ORDERDATE r) (STATUS r) (PRODUCTLINE r) (PRODUCTCODE r)
        (CUSTOMERNAME r) (PHONE r) (CITY r)
        (fillna "Unknown" (STATE r)) (fillna "Unknown" (POSTALCODE r))
        (COUNTRY r) (TERRITORY r) (CONTACTLASTNAME r)
        (CONTACTFIRSTNAME r) (DEALSIZE r) (OTHER r).

Definition drop_duplicates (df : DataFrame) : DataFrame := unique df.

Definition clean_data (df : DataFrame) : DataFrame :=
  drop_duplicates (fill_missing <$> df).

(** *** create_customer_profiles *)

Module CustomerProfile.
Record t : Type := mk {
  name : string;
  phone : option string;
  city : option string;
  state : option string;
  country : option string;
  territory : option string;
  contact_name : string;
  total_orders : nat;
  total_sales : Qc;
  avg_order_value : option Qc;
  preferred_products : list string;
  deal_sizes : list (option string);
  last_order_date : option Z;
  customer_status : string
}.
End CustomerProfile.

(** How an f-string renders a cell: a missing one reads nan. *)
Definition py_str (x : option string) : string := default "nan" x.

Definition customer_profile (name : string) (g : DataFrame)
  : result CustomerProfile.t :=
  preferred_product ← most_frequent (PRODUCTLINE <$> g);
  mret (CustomerProfile.mk
          name
          (col_first (PHONE <$> g))
          (col_first (CITY <$> g))
          (col_first (STATE <$> g))
          (col_first (COUNTRY <$> g))
          (col_first (TERRITORY <$> g))
          (py_str (col_first (CONTACTFIRSTNAME <$> g)) +:+ " " +:+
           py_str (col_first (CONTACTLASTNAME <$> g)))
          (col_count (ORDERNUMBER <$> g))
          (col_sum (SALES <$> g))
          (col_mean (SALES <$> g))
          [preferred_product]
          (unique (DEALSIZE <$> g))
          (Z_max_list (dropna (ORDERDATE <$> g)))
          (if decide (Some "Shipped" ∈ STATUS <$> g) then "Active" else "Inactive")).

(** The contents of [self.customer_profiles] after the call on a fresh
    processor whose frame is [df]; the aggregation raises, before any
    profile is stored, when a customer has no product line at all. *)
Definition create_customer_profiles (df : DataFrame)
  : result (list (string * CustomerProfile.t)) :=
  customer_data ← mapM (λ kg, p ← customer_profile kg.1 kg.2; mret (kg.1, p))
                       (groupby String.le CUSTOMERNAME df);
  mret (dict_of_items customer_data).

(** *** analyze_product_catalog *)

Module Product.
Record t : Type := mk {
  product_line : string;
  product_code : string;
  total_sales : Qc;
  avg_sales : option Qc;
  order_count : nat;
  avg_price : option Qc;
  total_quantity : Qc;
  typical_deal_size : string;
  performance_score : Qc
}.
End Product.

(** [x / m if m > 0 else 0], where [m] is NaN when the frame has no
    value to take the maximum of. *)
Definition normalize (x : Qc) (m : option Qc) : Qc :=
  match m with
  | Some m => if decide (0 < m)%Qc then (x / m)%Qc else 0%Qc
  | None => 0%Qc
  end.

Definition _calculate_product_performance (df : DataFrame)
    (total_sales : Qc) (order_count : nat) (total_quantity : Qc) : Qc :=
  let max_sales := col_max (SALES <$> df) in
  let max_orders :=
    nat_max_list ((λ kg, col_count (ORDERNUMBER <$> kg.2))
                    <$> groupby String.le PRODUCTCODE df) in
  let max_quantity :=
    Qc_max_list ((λ kg, col_sum (QUANTITYORDERED <$> kg.2))
                   <$> groupby String.le PRODUCTCODE df) in
  let sales_score := normalize total_sales max_sales in
  let order_score := normalize (Qc_of_nat order_count) (Qc_of_nat <$> max_orders) in
  let quantity_score := normalize total_quantity max_quantity in
  (sales_score * Q2Qc (5 # 10) + order_score * Q2Qc (3 # 10)
   + quantity_score * Q2Qc (2 # 10))%Qc.

Definition product_entry (df : DataFrame) (k : string * string) (g : DataFrame)
  : result (string * Product.t) :=
  typical_deal_size ←
    (if decide (0 < length g) then most_frequent (DEALSIZE <$> g) else Ok "Unknown");
  let total_sales := col_sum (SALES <$> g) in
  let order_count := col_count (SALES <$> g) in
  let total_quantity := col_sum (QUANTITYORDERED <$> g) in
  mret (k.1 +:+ "_" +:+ k.2,
        Product.mk k.1 k.2 total_sales (col_mean (SALES <$> g)) order_count
          (col_mean (PRICEEACH <$> g)) total_quantity typical_deal_size
          (_calculate_product_performance df total_sales order_count total_quantity)).

Definition analyze_product_catalog (df : DataFrame)
  : result (list (string * Product.t)) :=
  product_analysis ← mapM (λ kg, product_entry df kg.1 kg.2)
                          (groupby pair_le product_key df);
  mret (dict_of_items product_analysis).

(** *** analyze_territories *)

Module Territory.
Record t : Type := mk {
  total_sales : Qc;
  avg_sales : option Qc;
  total_orders : nat;
  unique_customers : nat;
  top_products : list (string * nat);
  deal_distribution : list (string * nat);
  market_share : option Qc
}.
End Territory.

Definition territory_entry (df : DataFrame) (g : DataFrame) : Territory.t :=
  let total_sales := col_sum (SALES <$> g) in
  Territory.mk total_sales (col_mean (SALES <$> g)) (col_count (SALES <$> g))
    (nunique (CUSTOMERNAME <$> g))
    (take 3 (value_counts (PRODUCTLINE <$> g)))
    (value_counts (DEALSIZE <$> g))
    ((λ x, x * Qc_of_Z 100)%Qc <$> fdiv total_sales (col_sum (SALES <$> df))).

Definition analyze_territories (df : DataFrame) : list (string * Territory.t) :=
  dict_of_items ((λ kg, (kg.1, territory_entry df kg.2))
                   <$> groupby String.le TERRITORY df).


(** *** get_top_customers, get_top_products, get_territory_insights *)

(** [l[:n]]: the first [n] elements, all but the last [-n] when [n] is
    negative. *)
Definition slice_to {A} (n : Z) (l : list A) : list A :=
  if decide (0 ≤ n)%Z then take (Z.to_nat n) l
  else take (length l - Z.to_nat (- n)) l.

Definition get_top_customers (customer_profiles : list (string * CustomerProfile.t))
    (n : Z) : list CustomerProfile.t :=
  slice_to n (sort_desc Qcle CustomerProfile.total_sales customer_profiles.*2).

Definition get_top_products (product_catalog : list (string * Product.t))
    (n : Z) : list Product.t :=
  slice_to n (sort_desc Qcle Product.performance_score product_catalog.*2).

(** [max(items, key=key)]: the first of the items with the largest
    key; nothing to return on an empty sequence, where Python raises
    ValueError. *)
Definition max_by {A} (key : A → Qc) (items : list A) : option A :=
  match items with
  | [] => None
  | x :: rest =>
      Some (foldl (λ best y, if decide (key best < key y)%Qc then y else best) x rest)
  end.

Record TerritoryInsights : Type := mkTerritoryInsights {
  total_territories : nat;
  top_territory : string * Territory.t;
  territory_breakdown : list (string * Territory.t)
}.

(** [None] stands for the ValueError that leaves the function when no
    territory has been analysed. *)
Definition get_territory_insights (territory_analysis : list (string * Territory.t))
  : option TerritoryInsights :=
  top ← max_by (λ kv, Territory.total_sales kv.2) territory_analysis;
  Some (mkTerritoryInsights (length territory_analysis) top territory_analysis).

End Processor.

(** ** src/config/settings.py *)

Module Settings.
(** The options the modelled code reads, each whatever integer the
    environment gives: [int(os.getenv(...))] checks no range. *)
Record t : Type := mk {
  EMBEDDING_DIMENSION : Z;
  RATE_LIMIT_REQUESTS : Z
}.
End Settings.

Abbreviation vector := (list Qc).

(** ** src/embeddings/generator.py *)

Module Generator.

(** [np.zeros(n, dtype=np.float32)]: numpy refuses a negative length.
    Memory is outside the model: an array of any other length can be
    allocated. *)
Definition zeros (n : Z) : result vector :=
  if decide (0 ≤ n)%Z then Ok (replicate (Z.to_nat n) 0%Qc)
  else Raise (ValueError "negative dimensions are not allowed").

(** The generator's own state and what it sees of the outside: the
    clock, the requests it remembers, and the Groq service, given by
    the outcomes of its successive completions. Calls other than
    [time.sleep] take no time. *)
Record World : Type := mkWorld {
  now : Qc;
  rate_limit_tracker : list Qc;
  groq_script : list (result string);
  groq_prompts : list string;
  slept : list Qc
}.

Definition set_tracker (tr : list Qc) (w : World) : World :=
  mkWorld (now w) tr (groq_script w) (groq_prompts w) (slept w).

(** [time.sleep(d)] *)
Definition sleep (d : Qc) (w : World) : World :=
  mkWorld (now w + d)%Qc (rate_limit_tracker w) (groq_script w)
          (groq_prompts w) (slept w ++ [d]).

(** [self.groq_client.chat.completions.create(...)] together with the
    reading of [response.choices[0].message.content]: the next outcome
    of the script, a failure once the script is used up. *)
Definition groq_complete (prompt : string) (w : World) : result string * World :=
  match groq_script w with
  | [] => (Raise (ServiceError "connection error"),
           mkWorld (now w) (rate_limit_tracker w) [] (groq_prompts w ++ [prompt]) (slept w))
  | r :: rest => (r, mkWorld (now w) (rate_limit_tracker w) rest
                             (groq_prompts w ++ [prompt]) (slept w))
  end.

(** *** tenacity *)

Definition Qc_min (a b : Qc) : Qc := if decide (a ≤ b)%Qc then a else b.

(** [wait_exponential(multiplier, min, max)] before the attempt that
    follows attempt [attempt_number]. *)
Definition wait_exponential (multiplier min max : Qc) (attempt_number : nat) : Qc :=
  let exp := (Qc_of_Z 2 ^ (attempt_number - 1))%Qc in
  let result := (multiplier * exp)%Qc in
  Processor.Qc_max (Processor.Qc_max 0%Qc min) (Qc_min result max).

(** [@retry(stop=stop_after_attempt(n), wait=wait)]: call again after
    an exception, sleeping in between; after the last allowed attempt
    the exception leaves as a [RetryError]. *)
Fixpoint retry_from {A} (wait : nat → Qc) (f : World → result A * World)
    (remaining attempt_number : nat) (w : World) {struct remaining}
  : result A * World :=
  let '(r, w) := f w in
  match r with
  | Ok a => (Ok a, w)
  | Raise e =>
      match remaining with
      | 0 => (Raise (RetryError e), w)
      | S n => retry_from wait f n (S attempt_number) (sleep (wait attempt_number) w)
      end
  end.

Definition retry {A} (stop_after_attempt : nat) (wait : nat → Qc)
    (f : World → result A * World) (w : World) : result A * World :=
  retry_from wait f (stop_after_attempt - 1) 1 w.

Section generator.
Variable settings : Settings.t.
(** [self.embedding_model.encode], the conversion
    [embedding.astype(np.float32)] of what it returned and
    [str.strip] are library code; the first two can fail. *)
Variable encode : string → result vector.
Variable astype_float32 : vector → result vector.
Variable strip : string → string.

Definition _check_rate_limit (w : World) : result unit * World :=
  let current_time := now w in
  let tracker := filter (λ req_time, current_time - req_time < Qc_of_Z 60)%Qc
                        (rate_limit_tracker w) in
  let w := set_tracker tracker w in
  if decide (Settings.RATE_LIMIT_REQUESTS settings ≤ Z.of_nat (length tracker))%Z then
    match tracker with
    | [] => (Raise (IndexError "list index out of range"), w)
    | oldest :: _ =>
        let sleep_time := (Qc_of_Z 60 - (current_time - oldest))%Qc in
        let w := sleep sleep_time w in
        (Ok (), set_tracker (tracker ++ [current_time]) w)
    end
  else (Ok (), set_tracker (tracker ++ [current_time]) w).

Definition generate_text_embedding (text : string) : result vector :=
  try_except
    (embedding ← encode text; astype_float32 embedding)
    (λ _, zeros (Settings.EMBEDDING_DIMENSION settings)).

Definition enhance_prompt (text context : string) : string :=
  "
            Enhance this customer/product description for better semantic search:
            
            Context: " +:+ context +:+ "
            Original text: " +:+ text +:+ "
            
            Create a rich, descriptive text that captures:
            1. Key business characteristics
            2. Sales potential
            3. Market segment
            4. Product preferences
            5. Geographic and demographic insights
            
            Keep it concise but informative (max 200 words):
            ".

(** The body of [enhance_text_with_groq], one attempt. The rate
    limit check is outside the [try]; the completion is inside. *)
Definition enhance_text_with_groq_once (text context : string) (w : World)
  : result string * World :=
  let '(checked, w) := _check_rate_limit w in
  match checked with
  | Raise e => (Raise e, w)
  | Ok _ =>
      let '(response, w) := groq_complete (enhance_prompt text context) w in
      (try_except (strip <$> response) (λ _, Ok text), w)
  end.

Definition enhance_text_with_groq (text context : string) (w : World)
  : result string * World :=
  retry 3 (wait_exponential 1%Qc (Qc_of_Z 4) (Qc_of_Z 10))
        (enhance_text_with_groq_once text context) w.
End generator.

End Generator.

(** ** src/embeddings/storage.py *)

Module Storage.

(** The [metadata] dict of an embedding record; the generator builds
    exactly these three shapes, tagged by the value of ['type']. *)
Inductive Metadata : Type :=
| CustomerMeta (territory : option string) (total_sales : Qc) (customer_status : string)
| ProductMeta (product_line : string) (performance_score : Qc) (typical_deal_size : string)
| TerritoryMeta (market_share : option Qc) (total_sales : Qc) (unique_customers : nat).

(** A value of the [embeddings] dict (its ['profile'] / ['data'] entry
    is not read by the store). *)
Record EmbeddingData : Type := mkEmbeddingData {
  text : string;
  embedding : vector;
  metadata : Metadata
}.

(** The payload [{'key', 'text', 'metadata', **metadata}]. *)
Record Payload : Type := mkPayload {
  payload_key : string;
  payload_text : string;
  payload_metadata : Metadata
}.

Record PointStruct : Type := mkPoint {
  point_vector : vector;
  point_payload : Payload
}.

(** [payload.get(field, 0)] for the numeric fields; [None] is NaN. *)
Definition payload_get_num (field : string) (p : Payload) : option Qc :=
  match payload_metadata p with
  | CustomerMeta _ total_sales _ =>
      if decide (field = "total_sales") then Some total_sales else Some 0%Qc
  | ProductMeta _ performance_score _ =>
      if decide (field = "performance_score") then Some performance_score else Some 0%Qc
  | TerritoryMeta market_share total_sales unique_customers =>
      if decide (field = "market_share") then market_share
      else if decide (field = "total_sales") then Some total_sales
      else if decide (field = "unique_customers") then Some (Qc_of_nat unique_customers)
      else Some 0%Qc
  end.

(** The string fields of a payload that the equality filters of the
    searches name; [None] when the payload has no such field (or, for
    a territory, no value). *)
Definition payload_get_str (field : string) (p : Payload) : option string :=
  if decide (field = "key") then Some (payload_key p)
  else if decide (field = "text") then Some (payload_text p)
  else
    match payload_metadata p with
    | CustomerMeta territory _ customer_status =>
        if decide (field = "type") then Some "customer"
        else if decide (field = "territory") then territory
        else if decide (field = "customer_status") then Some customer_status
        else None
    | ProductMeta product_line _ typical_deal_size =>
        if decide (field = "type") then Some "product"
        else if decide (field = "product_line") then Some product_line
        else if decide (field = "typical_deal_size") then Some typical_deal_size
        else None
    | TerritoryMeta _ _ _ =>
        if decide (field = "type") then Some "territory" else None
    end.

(** [x >= m] on floats: false when [x] is NaN. *)
Definition float_ge (x : option Qc) (m : Qc) : bool :=
  match x with Some x => bool_decide (m ≤ x)%Qc | None => false end.

Record SearchRequest : Type := mkSearchRequest {
  query_vector : vector;
  query_filter : option (list (string * string));
  limit : nat;
  score_threshold : Qc
}.

Record Hit : Type := mkHit {
  id : N;
  score : Qc;
  payload : Payload
}.

(** The Qdrant collection behind [self.client]: its points by id,
    whether the server answers, how many uuids have been drawn so far
    and the search requests issued so far. *)
Record Qdrant : Type := mkQdrant {
  points : gmap N PointStruct;
  available : bool;
  drawn : nat;
  searches : list SearchRequest
}.

Section storage.
(** [uuid.uuid4()] as the n-th value of a random stream; the server's
    check of a batch to upsert, which it may refuse (a vector of the
    wrong size, say); and its nearest-neighbour search, which may
    reject a request. *)
Variable uuid4 : nat → N.
Variable accept : gmap N PointStruct → list (N * PointStruct) → result unit.
Variable nearest : gmap N PointStruct → SearchRequest → result (list Hit).

(** [self.client.upsert]: nothing is written unless the server is
    reachable and accepts the whole batch. *)
Definition client_upsert (batch : list (N * PointStruct)) (s : Qdrant)
  : result unit * Qdrant :=
  if available s then
    match accept (points s) batch with
    | Ok _ =>
        (Ok (), mkQdrant (foldl (λ m ip, <[ip.1 := ip.2]> m) (points s) batch)
                         (available s) (drawn s) (searches s))
    | Raise e => (Raise e, s)
    end
  else (Raise (ServiceError "upsert failed"), s).

(** A search request reaches the client: it is recorded, whatever the
    server then does. *)
Definition issue (req : SearchRequest) (s : Qdrant) : Qdrant :=
  mkQdrant (points s) (available s) (drawn s) (searches s ++ [req]).

Definition client_search (req : SearchRequest) (s : Qdrant)
  : result (list Hit) * Qdrant :=
  (if available s then nearest (points s) req
   else Raise (ServiceError "search failed"), issue req s).

(** The loop of [store_embeddings] that builds [points]. *)
Fixpoint build_points (embeddings : list (string * EmbeddingData)) (n : nat)
  : list (N * PointStruct) :=
  match embeddings with
  | [] => []
  | (key, embedding_data) :: rest =>
      (uuid4 n, mkPoint (embedding embedding_data)
                        (mkPayload key (text embedding_data) (metadata embedding_data)))
      :: build_points rest (S n)
  end.

(** The records are typed, so reading a field of one cannot fail; the
    only exception left inside the [try] is a failure of the upsert,
    whatever its cause. *)
Definition store_embeddings (embeddings : list (string * EmbeddingData)) (s : Qdrant)
  : bool * Qdrant :=
  match embeddings with
  | [] => (true, s)
  | _ =>
      let batch := build_points embeddings (drawn s) in
      let s := mkQdrant (points s) (available s) (drawn s + length embeddings)
                        (searches s) in
      match batch with
      | [] => (true, s)
      | _ =>
          match client_upsert batch s with
          | (Ok _, s) => (true, s)
          | (Raise _, s) => (false, s)
          end
      end
  end.

Definition search_similar (query_embedding : vector) (limit : nat)
    (filter_conditions : list (string * string)) (score_threshold : Qc) (s : Qdrant)
  : list Hit * Qdrant :=
  let query_filter :=
    match filter_conditions with [] => None | _ => Some filter_conditions end in
  match client_search (mkSearchRequest query_embedding query_filter limit score_threshold) s with
  | (Ok search_result, s) => (search_result, s)
  | (Raise _, s) => ([], s)
  end.

(** [if x:] on an [Optional[str]] *)
Definition truthy (x : option string) : bool :=
  match x with Some v => bool_decide (v ≠ "") | None => false end.

Definition condition (field : string) (x : option string) : list (string * string) :=
  if truthy x then [(field, default "" x)] else [].

Definition post_filter (field : string) (minimum : option Qc) (results : list Hit)
  : list Hit :=
  match minimum with
  | Some m => filter (λ r, float_ge (payload_get_num field (payload r)) m) results
  | None => results
  end.

Definition search_customers (query_embedding : vector) (territory : option string)
    (min_sales : option Qc) (customer_status : option string) (limit : nat) (s : Qdrant)
  : list Hit * Qdrant :=
  let filter_conditions :=
    [("type", "customer")] ++ condition "territory" territory
      ++ condition "customer_status" customer_status in
  let '(results, s) := search_similar query_embedding limit filter_conditions 0%Qc s in
  (post_filter "total_sales" min_sales results, s).

Definition search_products (query_embedding : vector) (product_line deal_size : option string)
    (min_performance : option Qc) (limit : nat) (s : Qdrant)
  : list Hit * Qdrant :=
  let filter_conditions :=
    [("type", "product")] ++ condition "product_line" product_line
      ++ condition "typical_deal_size" deal_size in
  let '(results, s) := search_similar query_embedding limit filter_conditions 0%Qc s in
  (post_filter "performance_score" min_performance results, s).

Definition search_territories (query_embedding : vector)
    (min_market_share : option Qc) (limit : nat) (s : Qdrant)
  : list Hit * Qdrant :=
  let filter_conditions := [("type", "territory")] in
  let '(results, s) := search_similar query_embedding limit filter_conditions 0%Qc s in
  (post_filter "market_share" min_market_share results, s).
End storage.

End Storage.

(** ** src/agent/sales_agent.py *)

Module Agent.
Import Storage.

Section agent.
Variable settings : Settings.t.
Variable encode : string → result vector.
Variable astype_float32 : vector → result vector.
Variable nearest : gmap N PointStruct → SearchRequest → result (list Hit).

Definition retrieve_context (query context_type : string) (s : Qdrant)
  : result (list Hit) * Qdrant :=
  match Generator.generate_text_embedding settings encode astype_float32 query with
  | Raise e => (Raise e, s)
  | Ok query_embedding =>
      let context_results := [] in
      let '(context_results, s) :=
        if decide (context_type ∈ ["all"; "customer"]) then
          let '(customer_results, s) :=
            search_customers nearest query_embedding None None None 3 s in
          (context_results ++ customer_results, s)
        else (context_results, s) in
      let '(context_results, s) :=
        if decide (context_type ∈ ["all"; "product"]) then
          let '(product_results, s) :=
            search_products nearest query_embedding None None None 3 s in
          (context_results ++ product_results, s)
        else (context_results, s) in
      let '(context_results, s) :=
        if decide (context_type ∈ ["all"; "territory"]) then
          let '(territory_results, s) :=
            search_territories nearest query_embedding None 2 s in
          (context_results ++ territory_results, s)
        else (context_results, s) in
      (Ok (sort_desc Qcle score context_results), s)
  end.
End agent.

End Agent.

(** ** src/agent/sales_agent.py, the operations built on retrieval *)

Module AgentOps.
Import Storage Generator.

Definition nl : string := String (Ascii.ascii_of_nat 10) EmptyString.

(** [needle in hay] on strings. *)
Fixpoint contains (needle hay : string) : bool :=
  String.prefix needle hay
  || match hay with
     | EmptyString => false
     | String _ rest => contains needle rest
     end.

(** How a list of chat messages is written down in [groq_prompts]. *)
Definition render_messages (messages : list (string * string)) : string :=
  String.concat nl ((λ m, m.1 +:+ ": " +:+ m.2) <$> messages).

Module SalesResponse.
Record t : Type := mk {
  response : string;
  context_used : nat;
  context_details : list Hit;
  timestamp : string
}.
End SalesResponse.

Module CustomerAnalysis.
(** The two dicts [analyze_customer] can return. *)
Inductive t : Type :=
| NotFound (error : string) (suggestions : list string)
| Found (customer_analysis : string) (customer_data : Payload) (timestamp : string).
End CustomerAnalysis.

Module TerritoryAnalysis.
(** [territory_data] is [None] for the empty dict. *)
Record t : Type := mk {
  territory_analysis : string;
  territory_data : option Payload;
  timestamp : string
}.
End TerritoryAnalysis.

Module Recommendation.
Record t : Type := mk {
  recommendations : string;
  products_analyzed : nat;
  timestamp : string
}.
End Recommendation.

Module SalesPitch.
Record t : Type := mk {
  sales_pitch : string;
  personalization_level : nat;
  timestamp : string
}.
End SalesPitch.

Module Insights.
Record t : Type := mk {
  insights : string;
  data_points_analyzed : nat;
  timestamp : string
}.
End Insights.

Section ops.
Variable settings : Settings.t.
Variable encode : string → result vector.
Variable astype_float32 : vector → result vector.
Variable nearest : gmap N PointStruct → SearchRequest → result (list Hit).
(** Library code: [str.strip], [str(e)], [str.lower],
    [datetime.now().isoformat()] as a function of the clock, and the
    format specifications [.3f], [,.2f], [.2f] (of a float that may be
    NaN) and the default one of an integer. *)
Variable strip : string → string.
Variable exn_str : exn → string.
Variable lower : string → string.
Variable isoformat : Qc → string.
Variable fmt_3f : Qc → string.
Variable fmt_money : Qc → string.
Variable fmt_2f : option Qc → string.
Variable fmt_int : nat → string.
(** The default format of a stored text cell that may be missing. *)
Variable fmt_cell : option string → string.

(** The body of [_query_groq], one attempt: everything is inside the
    [try]. *)
Definition _query_groq_once (prompt system_prompt : string) (w : World)
  : result string * World :=
  let messages :=
    (if decide (system_prompt ≠ "") then [("system", system_prompt)] else [])
    ++ [("user", prompt)] in
  let '(response, w) := groq_complete (render_messages messages) w in
  (try_except (strip <$> response)
     (λ e, Ok ("Error generating response: " +:+ exn_str e)), w).

Definition _query_groq (prompt system_prompt : string) (w : World)
  : result string * World :=
  retry 3 (wait_exponential 1%Qc (Qc_of_Z 2) (Qc_of_Z 10))
        (_query_groq_once prompt system_prompt) w.

(** The lines of [format_context] for one result; the typed payload
    always has a type, a key and a text. *)
Definition format_item (result : Hit) : string :=
  let payload := payload result in
  let context_item := "**Relevance Score: " +:+ fmt_3f (score result) +:+ "**" +:+ nl in
  let context_item :=
    context_item +:+ "**Type:** "
      +:+ default "unknown" (payload_get_str "type" payload) +:+ nl in
  let context_item := context_item +:+ "**Key:** " +:+ payload_key payload +:+ nl in
  let context_item :=
    context_item +:+ "**Description:**" +:+ nl +:+ payload_text payload +:+ nl in
  match payload_metadata payload with
  | CustomerMeta territory total_sales customer_status =>
      context_item
        +:+ "- Territory: " +:+ fmt_cell territory +:+ nl
        +:+ "- Total Sales: $" +:+ fmt_money total_sales +:+ nl
        +:+ "- Status: " +:+ customer_status +:+ nl
  | ProductMeta product_line performance_score typical_deal_size =>
      context_item
        +:+ "- Product Line: " +:+ product_line +:+ nl
        +:+ "- Performance Score: " +:+ fmt_3f performance_score +:+ nl
        +:+ "- Deal Size: " +:+ typical_deal_size +:+ nl
  | TerritoryMeta market_share total_sales unique_customers =>
      context_item
        +:+ "- Market Share: " +:+ fmt_2f market_share +:+ "%" +:+ nl
        +:+ "- Total Sales: $" +:+ fmt_money total_sales +:+ nl
        +:+ "- Unique Customers: " +:+ fmt_int unique_customers +:+ nl
  end.

Definition format_context (context_results : list Hit) : string :=
  match context_results with
  | [] => "No relevant context found."
  | _ => String.concat (nl +:+ nl +:+ "---" +:+ nl +:+ nl)
           (format_item <$> context_results)
  end.

(** What the six operations share: retrieval on the store, then, with
    a context chosen from the results, one question to Groq. *)
Definition retrieve (query context_type : string) (s : Qdrant)
  : result (list Hit) * Qdrant :=
  Agent.retrieve_context settings encode astype_float32 nearest query context_type s.

Definition generate_sales_response (user_query context_type : string)
    (w : World) (s : Qdrant) : result SalesResponse.t * World * Qdrant :=
  let '(retrieved, s) := retrieve user_query context_type s in
  match retrieved with
  | Raise e => (Raise e, w, s)
  | Ok context_results =>
      let formatted_context := format_context context_results in
      let system_prompt := ("
        Eres un agente de ventas experto e inteligente con acceso a datos completos de ventas. 
        Tu trabajo es:
        
        1. Analizar la consulta del usuario y proporcionar insights valiosos
        2. Hacer recomendaciones basadas en datos reales
        3. Identificar oportunidades de venta
        4. Proporcionar estrategias personalizadas
        5. Usar un tono profesional pero amigable
        
        Siempre basa tus respuestas en los datos proporcionados y sé específico con números y ejemplos.
        Si no tienes información suficiente, menciona qué datos adicionales necesitarías.
        ") in
      let user_prompt := ("
        Consulta del usuario: " +:+ user_query +:+ "
        
        Información relevante de la base de datos:
        " +:+ formatted_context +:+ "
        
        Por favor, proporciona una respuesta completa y útil basada en esta información.
        ") in
      let '(answer, w) := _query_groq user_prompt system_prompt w in
      match answer with
      | Raise e => (Raise e, w, s)
      | Ok response =>
          (Ok (SalesResponse.mk response (length context_results) context_results
                 (isoformat (now w))), w, s)
      end
  end.

Definition analyze_customer (customer_name : string) (w : World) (s : Qdrant)
  : result CustomerAnalysis.t * World * Qdrant :=
  let query := ("Análisis completo del cliente " +:+ customer_name) in
  let '(retrieved, s) := retrieve query "customer" s in
  match retrieved with
  | Raise e => (Raise e, w, s)
  | Ok context_results =>
      let customer_context :=
        filter (λ r, contains (lower customer_name) (lower (payload_key (payload r))))
               context_results in
      match customer_context with
      | [] =>
          (Ok (CustomerAnalysis.NotFound
                 ("No se encontró información del cliente " +:+ customer_name)
                 ["Verificar el nombre del cliente";
                  "Buscar por nombre parcial";
                  "Revisar la base de datos"]), w, s)
      | first :: _ =>
          let formatted_context := format_context customer_context in
          let system_prompt := ("
        Eres un analista de ventas experto. Analiza el perfil del cliente y proporciona:
        1. Resumen del cliente
        2. Historial de compras
        3. Potencial de crecimiento
        4. Productos recomendados
        5. Estrategia de ventas sugerida
        6. Riesgos y oportunidades
        ") in
          let user_prompt := ("
        Analiza este cliente en detalle:
        " +:+ formatted_context +:+ "
        
        Proporciona un análisis completo y recomendaciones accionables.
        ") in
          let '(answer, w) := _query_groq user_prompt system_prompt w in
          match answer with
          | Raise e => (Raise e, w, s)
          | Ok response =>
              (Ok (CustomerAnalysis.Found response (payload first) (isoformat (now w))),
               w, s)
          end
      end
  end.

Definition recommend_products (customer_criteria : string) (w : World) (s : Qdrant)
  : result Recommendation.t * World * Qdrant :=
  let query := ("Productos recomendados para " +:+ customer_criteria) in
  let '(retrieved, s) := retrieve query "product" s in
  match retrieved with
  | Raise e => (Raise e, w, s)
  | Ok context_results =>
      let formatted_context := format_context context_results in
      let system_prompt := ("
        Eres un experto en productos que hace recomendaciones basadas en datos.
        Proporciona:
        1. Top 3 productos recomendados
        2. Razones para cada recomendación
        3. Segmentos de clientes ideales
        4. Estrategias de pricing
        5. Métricas de rendimiento
        ") in
      let user_prompt := ("
        Criterios del cliente: " +:+ customer_criteria +:+ "
        
        Productos disponibles:
        " +:+ formatted_context +:+ "
        
        Proporciona recomendaciones específicas con justificación basada en datos.
        ") in
      let '(answer, w) := _query_groq user_prompt system_prompt w in
      match answer with
      | Raise e => (Raise e, w, s)
      | Ok response =>
          (Ok (Recommendation.mk response (length context_results) (isoformat (now w))),
           w, s)
      end
  end.

Definition analyze_territory (territory_name : string) (w : World) (s : Qdrant)
  : result TerritoryAnalysis.t * World * Qdrant :=
  let query := ("Análisis del territorio " +:+ territory_name) in
  let '(retrieved, s) := retrieve query "territory" s in
  match retrieved with
  | Raise e => (Raise e, w, s)
  | Ok context_results =>
      let territory_context :=
        filter (λ r, contains (lower territory_name) (lower (payload_key (payload r))))
               context_results in
      let formatted_context := format_context territory_context in
      let system_prompt := ("
        Eres un analista de territorios de ventas. Proporciona:
        1. Performance del territorio
        2. Comparación con otros territorios
        3. Oportunidades de crecimiento
        4. Productos con mejor desempeño
        5. Estrategias de expansión
        6. Riesgos del mercado
        ") in
      let user_prompt := ("
        Analiza este territorio:
        " +:+ formatted_context +:+ "
        
        Proporciona insights estratégicos y recomendaciones accionables.
        ") in
      let '(answer, w) := _query_groq user_prompt system_prompt w in
      match answer with
      | Raise e => (Raise e, w, s)
      | Ok response =>
          (Ok (TerritoryAnalysis.mk response (payload <$> head territory_context)
                 (isoformat (now w))), w, s)
      end
  end.

Definition generate_sales_pitch (customer_name product_focus : string)
    (w : World) (s : Qdrant) : result SalesPitch.t * World * Qdrant :=
  let query := ("Pitch de ventas para " +:+ customer_name +:+ " " +:+ product_focus) in
  let '(retrieved, s) := retrieve query "all" s in
  match retrieved with
  | Raise e => (Raise e, w, s)
  | Ok context_results =>
      let formatted_context := format_context context_results in
      let system_prompt := ("
        Eres un vendedor experto que crea pitches personalizados y persuasivos.
        Crea un pitch que:
        1. Se dirija específicamente al cliente
        2. Destaque beneficios relevantes
        3. Use datos concretos
        4. Incluya llamadas a la acción
        5. Aborde posibles objeciones
        6. Sea profesional pero convincente
        ") in
      let user_prompt := ("
        Cliente objetivo: " +:+ customer_name +:+ "
        Enfoque del producto: " +:+ product_focus +:+ "
        
        Información del cliente y mercado:
        " +:+ formatted_context +:+ "
        
        Crea un pitch de ventas personalizado y persuasivo.
        ") in
      let '(answer, w) := _query_groq user_prompt system_prompt w in
      match answer with
      | Raise e => (Raise e, w, s)
      | Ok response =>
          (Ok (SalesPitch.mk response (length context_results) (isoformat (now w))),
           w, s)
      end
  end.

Definition get_sales_insights (query : string) (w : World) (s : Qdrant)
  : result Insights.t * World * Qdrant :=
  let '(retrieved, s) := retrieve query "all" s in
  match retrieved with
  | Raise e => (Raise e, w, s)
  | Ok context_results =>
      let formatted_context := format_context context_results in
      let system_prompt := ("
        Eres un consultor de ventas senior que proporciona insights estratégicos.
        Analiza los datos y proporciona:
        1. Tendencias identificadas
        2. Oportunidades de mercado
        3. Recomendaciones estratégicas
        4. Métricas clave
        5. Próximos pasos sugeridos
        ") in
      let user_prompt := ("
        Consulta: " +:+ query +:+ "
        
        Datos disponibles:
        " +:+ formatted_context +:+ "
        
        Proporciona insights valiosos y recomendaciones estratégicas.
        ") in
      let '(answer, w) := _query_groq user_prompt system_prompt w in
      match answer with
      | Raise e => (Raise e, w, s)
      | Ok response =>
          (Ok (Insights.mk response (length context_results) (isoformat (now w))),
           w, s)
      end
  end.
End ops.

End AgentOps.

(** ** src/api/routes.py, the customer analysis route *)

Module Routes.
Import Storage Generator AgentOps.

Record ApiResponse : Type := mkApiResponse {
  success : bool;
  message : string;
  data : CustomerAnalysis.t
}.

(** The route answers with a response or with an [HTTPException] of
    status 500 and the given detail. *)
Inductive reply : Type :=
| Response (r : ApiResponse)
| HTTPException (status_code : nat) (detail : string).

Section routes.
Variable settings : Settings.t.
Variable encode : string → result vector.
Variable astype_float32 : vector → result vector.
Variable nearest : gmap N PointStruct → SearchRequest → result (list Hit).
Variable strip : string → string.
Variable exn_str : exn → string.
Variable lower : string → string.
Variable isoformat : Qc → string.
Variable fmt_3f : Qc → string.
Variable fmt_money : Qc → string.
Variable fmt_2f : option Qc → string.
Variable fmt_int : nat → string.
Variable fmt_cell : option string → string.

Definition analyze_customer (customer_name : string) (w : World) (s : Qdrant)
  : reply * World * Qdrant :=
  let '(outcome, w, s) :=
    AgentOps.analyze_customer settings encode astype_float32 nearest strip exn_str
      lower isoformat fmt_3f fmt_money fmt_2f fmt_int fmt_cell customer_name w s in
  match outcome with
  | Ok result =>
      match result with
      | CustomerAnalysis.NotFound error _ =>
          (Response (mkApiResponse false error result), w, s)
      | CustomerAnalysis.Found _ _ _ =>
          (Response (mkApiResponse true "Customer analysis completed" result), w, s)
      end
  | Raise e => (HTTPException 500 ("Error analyzing customer: " +:+ exn_str e), w, s)
  end.
End routes.

End Routes.

(** ** src/embeddings/generator.py, the texts and the batches *)

Module GeneratorBatch.
Import Processor Storage Generator.

(** The batches can fail with an exception of the services or with
    the [TypeError] of [str.join]. *)
Inductive error : Type :=
| TypeError (msg : string)
| Raised (e : exn).

Inductive outcome (A : Type) : Type :=
| Done (a : A)
| Failed (e : error).
Global Arguments Done {A} a.
Global Arguments Failed {A} e.

Section batch.
Variable settings : Settings.t.
Variable GROQ_API_KEY : string.
Variable encode : string → result vector.
Variable astype_float32 : vector → result vector.
(** Library code: [str.strip]; the format specifications [,.2f] and
    [.2f] of a float that may be NaN, [.3f] and the default format of
    a float, the default format of an integer and of a text cell that
    may be missing; [str] of the latest order date and of a dict of
    counts. *)
Variable strip : string → string.
Variable fmt_money : option Qc → string.
Variable fmt_2f : option Qc → string.
Variable fmt_3f : Qc → string.
Variable fmt_num : Qc → string.
Variable fmt_int : nat → string.
Variable fmt_cell : option string → string.
Variable str_date : option Z → string.
Variable repr_dict : list (string * nat) → string.

(** [sep.join(items)] on cells: a missing cell is the float NaN, which
    [join] refuses. *)
Definition join (sep : string) (items : list (option string)) : outcome string :=
  match list_find (λ x, x = None) items with
  | Some (i, _) =>
      Failed (TypeError ("sequence item " +:+ fmt_int i
                         +:+ ": expected str instance, float found"))
  | None => Done (String.concat sep (dropna items))
  end.

Definition create_customer_text (customer_profile : CustomerProfile.t) : outcome string :=
  match join ", " (CustomerProfile.deal_sizes customer_profile) with
  | Failed e => Failed e
  | Done deal_sizes =>
      match CustomerProfile.preferred_products customer_profile with
      | [] => Failed (Raised (IndexError "list index out of range"))
      | preferred :: _ =>
          let text := "
        Customer: " +:+ (CustomerProfile.name customer_profile) +:+ "
        Location: " +:+ (fmt_cell (CustomerProfile.city customer_profile)) +:+ ", " +:+ (fmt_cell (CustomerProfile.state customer_profile)) +:+ ", " +:+ (fmt_cell (CustomerProfile.country customer_profile)) +:+ "
        Territory: " +:+ (fmt_cell (CustomerProfile.territory customer_profile)) +:+ "
        Contact: " +:+ (CustomerProfile.contact_name customer_profile) +:+ "
        
        Sales Profile:
        - Total Orders: " +:+ (fmt_int (CustomerProfile.total_orders customer_profile)) +:+ "
        - Total Sales: $" +:+ (fmt_money (Some (CustomerProfile.total_sales customer_profile))) +:+ "
        - Average Order Value: $" +:+ (fmt_money (CustomerProfile.avg_order_value customer_profile)) +:+ "
        - Preferred Products: " +:+ (String.concat ", " (CustomerProfile.preferred_products customer_profile)) +:+ "
        - Deal Sizes: " +:+ deal_sizes +:+ "
        - Status: " +:+ (CustomerProfile.customer_status customer_profile) +:+ "
        - Last Order: " +:+ (str_date (CustomerProfile.last_order_date customer_profile)) +:+ "
        
        Customer Segment: " +:+ (fmt_cell (CustomerProfile.territory customer_profile)) +:+ " market with focus on " +:+ preferred +:+ " products
        " in
          Done (strip text)
      end
  end.

Definition create_product_text (product_data : Product.t) : string :=
  let text := "
        Product: " +:+ (Product.product_line product_data) +:+ " - " +:+ (Product.product_code product_data) +:+ "
        
        Performance Metrics:
        - Total Sales: $" +:+ (fmt_money (Some (Product.total_sales product_data))) +:+ "
        - Average Sales per Order: $" +:+ (fmt_money (Product.avg_sales product_data)) +:+ "
        - Total Orders: " +:+ (fmt_int (Product.order_count product_data)) +:+ "
        - Average Price: $" +:+ (fmt_money (Product.avg_price product_data)) +:+ "
        - Total Quantity Sold: " +:+ (fmt_num (Product.total_quantity product_data)) +:+ "
        - Typical Deal Size: " +:+ (Product.typical_deal_size product_data) +:+ "
        - Performance Score: " +:+ (fmt_3f (Product.performance_score product_data)) +:+ "
        
        Product Category: " +:+ (Product.product_line product_data) +:+ " with strong performance in " +:+ (Product.typical_deal_size product_data) +:+ " market segment
        " in
  strip text.

Definition create_territory_text (territory_name : string) (territory_data : Territory.t)
  : string :=
  let top_products := take 3 (Territory.top_products territory_data).*1 in
  let text := "
        Territory: " +:+ territory_name +:+ "
        
        Market Performance:
        - Total Sales: $" +:+ (fmt_money (Some (Territory.total_sales territory_data))) +:+ "
        - Average Sales: $" +:+ (fmt_money (Territory.avg_sales territory_data)) +:+ "
        - Total Orders: " +:+ (fmt_int (Territory.total_orders territory_data)) +:+ "
        - Unique Customers: " +:+ (fmt_int (Territory.unique_customers territory_data)) +:+ "
        - Market Share: " +:+ (fmt_2f (Territory.market_share territory_data)) +:+ "%
        
        Top Products: " +:+ (String.concat ", " top_products) +:+ "
        Deal Distribution: " +:+ (repr_dict (Territory.deal_distribution territory_data)) +:+ "
        
        Market Characteristics: " +:+ territory_name +:+ " region with strong demand for " +:+ (default "various" (head top_products)) +:+ " products
        " in
  strip text.

(** The loop of the three batches, which differ in the text, the
    context handed to Groq and the metadata of a record. The awaited
    [asyncio.sleep(0.1)] is a sleep of the clock. *)
Section loop.
Context {T : Type}.
Variable create_text : string → T → outcome string.
Variable context : string → T → string.
Variable metadata_of : T → Metadata.

Fixpoint generate_embeddings_from (items : list (string * T))
    (embeddings : list (string * (T * EmbeddingData))) (w : World)
  : outcome (list (string * (T * EmbeddingData))) * World :=
  match items with
  | [] => (Done embeddings, w)
  | (key, item) :: rest =>
      match create_text key item with
      | Failed e => (Failed e, w)
      | Done base_text =>
          let '(enhanced, w) :=
            if decide (GROQ_API_KEY ≠ "")
            then enhance_text_with_groq settings strip base_text (context key item) w
            else (Ok base_text, w) in
          match enhanced with
          | Raise e => (Failed (Raised e), w)
          | Ok enhanced_text =>
              match generate_text_embedding settings encode astype_float32 enhanced_text with
              | Raise e => (Failed (Raised e), w)
              | Ok embedding =>
                  let embeddings :=
                    dict_set key
                      (item, mkEmbeddingData enhanced_text embedding (metadata_of item))
                      embeddings in
                  let w := sleep (Q2Qc (1 # 10)) w in
                  generate_embeddings_from rest embeddings w
              end
          end
      end
  end.
End loop.

Definition generate_customer_embeddings
    (customer_profiles : list (string * CustomerProfile.t)) (w : World)
  : outcome (list (string * (CustomerProfile.t * EmbeddingData))) * World :=
  generate_embeddings_from
    (λ _ profile, create_customer_text profile)
    (λ _ profile,
       "Customer in " +:+ fmt_cell (CustomerProfile.territory profile) +:+ " territory")
    (λ profile,
       CustomerMeta (CustomerProfile.territory profile)
                    (CustomerProfile.total_sales profile)
                    (CustomerProfile.customer_status profile))
    customer_profiles [] w.

Definition generate_product_embeddings
    (product_catalog : list (string * Product.t)) (w : World)
  : outcome (list (string * (Product.t * EmbeddingData))) * World :=
  generate_embeddings_from
    (λ _ product_data, Done (create_product_text product_data))
    (λ _ product_data,
       "Product in " +:+ Product.product_line product_data +:+ " category")
    (λ product_data,
       ProductMeta (Product.product_line product_data)
                   (Product.performance_score product_data)
                   (Product.typical_deal_size product_data))
    product_catalog [] w.

Definition generate_territory_embeddings
    (territory_analysis : list (string * Territory.t)) (w : World)
  : outcome (list (string * (Territory.t * EmbeddingData))) * World :=
  generate_embeddings_from
    (λ territory_name territory_data,
       Done (create_territory_text territory_name territory_data))
    (λ territory_name _, "Sales territory analysis for " +:+ territory_name)
    (λ territory_data,
       TerritoryMeta (Territory.market_share territory_data)
                     (Territory.total_sales territory_data)
                     (Territory.unique_customers territory_data))
    territory_analysis [] w.
End batch.

End GeneratorBatch.

(** * Vocabulary of the statements *)

(** The score as the specification words it: every ratio is taken
    against the largest value among the catalog entries. *)
Definition spec_performance_score (catalog : list (string * Processor.Product.t))
    (e : Processor.Product.t) : Qc :=
  let max_total_sales :=
    Processor.Qc_max_list ((λ kv, Processor.Product.total_sales kv.2) <$> catalog) in
  let max_order_count :=
    Processor.nat_max_list ((λ kv, Processor.Product.order_count kv.2) <$> catalog) in
  let max_quantity :=
    Processor.Qc_max_list ((λ kv, Processor.Product.total_quantity kv.2) <$> catalog) in
  (Q2Qc (5 # 10) * Processor.normalize (Processor.Product.total_sales e) max_total_sales
   + Q2Qc (3 # 10) * Processor.normalize (Qc_of_nat (Processor.Product.order_count e))
                                         (Qc_of_nat <$> max_order_count)
   + Q2Qc (2 # 10) * Processor.normalize (Processor.Product.total_quantity e) max_quantity)%Qc.

(** Equality of floats up to a tolerance. *)
Definition within (tol x y : Qc) : Prop := (y - tol ≤ x ∧ x ≤ y + tol)%Qc.
Definition tolerance : Qc := Q2Qc (1 # 1000000).

(** [a] may stand before [b] in a list sorted by descending key. *)
Definition desc {A K : Type} (le : relation K) (key : A → K) (a b : A) : Prop :=
  le (key b) (key a).

(** What [search_similar] hands back for a request: the hits of the
    server, nothing when the server is down or rejects the request. *)
Definition answer (nearest : gmap N Storage.PointStruct → Storage.SearchRequest
                             → result (list Storage.Hit))
    (s : Storage.Qdrant) (req : Storage.SearchRequest) : list Storage.Hit :=
  match (if Storage.available s then nearest (Storage.points s) req
         else Raise (ServiceError "search failed")) with
  | Ok hits => hits
  | Raise _ => []
  end.

(** A hit meets the conditions of a request: every field named by the
    filter has the value asked for. *)
Definition meets (conds : option (list (string * string))) (h : Storage.Hit) : Prop :=
  ∀ field value, (field, value) ∈ default [] conds →
    Storage.payload_get_str field (Storage.payload h) = Some value.

(** The server returns only hits that meet the filter of the request,
    and no more of them than the limit of the request. *)
Definition honours_requests
    (nearest : gmap N Storage.PointStruct → Storage.SearchRequest
               → result (list Storage.Hit)) : Prop :=
  ∀ pts req hits, nearest pts req = Ok hits →
    length hits ≤ Storage.limit req
    ∧ ∀ h, h ∈ hits → meets (Storage.query_filter req) h.

(** The request of one category search of [retrieve_context]. *)
Definition category_request (query_embedding : vector) (category : string) (cap : nat)
  : Storage.SearchRequest :=
  Storage.mkSearchRequest query_embedding (Some [("type", category)]) cap 0%Qc.

(** The category searches issued for a scope, in the order of the code. *)
Definition scope_requests (query_embedding : vector) (context_type : string)
  : list Storage.SearchRequest :=
  (if decide (context_type ∈ ["all"; "customer"])
   then [category_request query_embedding "customer" 3] else [])
  ++ (if decide (context_type ∈ ["all"; "product"])
      then [category_request query_embedding "product" 3] else [])
  ++ (if decide (context_type ∈ ["all"; "territory"])
      then [category_request query_embedding "territory" 2] else []).

(** * Test data *)

Module Fixtures.
Import Processor.

(** A shipped order line with every cell the aggregations read. *)
Definition sale (order : option Z) (quantity : Z) (amount : option Z)
    (line code customer : string) (territory : option string) : Row :=
  mkRow order (Some (Qc_of_Z quantity)) (Some (Qc_of_Z 50)) (Qc_of_Z <$> amount)
        (Some 20040101%Z) (Some "Shipped") (Some line) (Some code) (Some customer)
        (Some "555-0100") (Some "Madrid") None None (Some "Spain") territory
        (Some "Freyre") (Some "Diego") (Some "Medium") [].

(** One product sold twice, 100 each time. *)
Definition two_orders_one_product : DataFrame :=
  [ sale (Some 10100%Z) 30 (Some 100%Z) "Classic Cars" "S10_1949" "Euro Shopping" (Some "EMEA");
    sale (Some 10101%Z) 30 (Some 100%Z) "Classic Cars" "S10_1949" "Mini Gifts" (Some "EMEA") ].



(** A customer with four rows: two have no readable SALES cell and
    one no order number. *)
Definition customer_with_missing_cells : DataFrame :=
  [ sale (Some 10100%Z) 30 (Some 100%Z) "Classic Cars" "S10_1949" "Euro Shopping" (Some "EMEA");
    sale (Some 10101%Z) 20 None "Classic Cars" "S10_1949" "Euro Shopping" (Some "EMEA");
    sale (Some 10102%Z) 20 None "Classic Cars" "S10_1949" "Euro Shopping" (Some "EMEA");
    sale None 10 (Some 20%Z) "Classic Cars" "S10_1949" "Euro Shopping" (Some "EMEA") ].

(** The scenario of the specification: customer A with three orders
    of 100, customer B with one order of 500, all in EMEA. *)
Definition two_customers : DataFrame :=
  [ sale (Some 1%Z) 1 (Some 100%Z) "Classic Cars" "S10_1949" "A" (Some "EMEA");
    sale (Some 2%Z) 1 (Some 100%Z) "Classic Cars" "S10_1949" "A" (Some "EMEA");
    sale (Some 3%Z) 1 (Some 100%Z) "Classic Cars" "S10_1949" "A" (Some "EMEA");
    sale (Some 4%Z) 1 (Some 500%Z) "Classic Cars" "S10_1949" "B" (Some "EMEA") ].

(** An order line, a second one, and the first once more. *)
Definition repeated_order : DataFrame :=
  [ sale (Some 1%Z) 1 (Some 100%Z) "Classic Cars" "S10_1949" "A" (Some "EMEA");
    sale (Some 2%Z) 1 (Some 100%Z) "Classic Cars" "S10_1949" "B" (Some "EMEA");
    sale (Some 1%Z) 1 (Some 100%Z) "Classic Cars" "S10_1949" "A" (Some "EMEA") ].

(** Three order lines in EMEA: two small deals and a large one. *)
Definition deal (order : Z) (size : string) : Row :=
  mkRow (Some order) (Some (Qc_of_Z 10)) (Some (Qc_of_Z 50)) (Some (Qc_of_Z 100))
        (Some 20040101%Z) (Some "Shipped") (Some "Classic Cars") (Some "S10_1949")
        (Some "Euro Shopping") (Some "555-0100") (Some "Madrid") None None
        (Some "Spain") (Some "EMEA") (Some "Freyre") (Some "Diego") (Some size) [].

Definition mixed_deal_sizes : DataFrame :=
  [ deal 1 "Small"; deal 2 "Large"; deal 3 "Small" ].

(** A customer with two order lines, one of them without deal size. *)
Definition order_without_deal_size : DataFrame :=
  [ sale (Some 10100%Z) 30 (Some 100%Z) "Classic Cars" "S10_1949" "Euro Shopping" (Some "EMEA");
    mkRow (Some 10101%Z) (Some (Qc_of_Z 20)) (Some (Qc_of_Z 50)) (Some (Qc_of_Z 80))
          (Some 20040201%Z) (Some "Shipped") (Some "Classic Cars") (Some "S10_1949")
          (Some "Euro Shopping") (Some "555-0100") (Some "Madrid") None None
          (Some "Spain") (Some "EMEA") (Some "Freyre") (Some "Diego") None [] ].
End Fixtures.

Module GeneratorFixtures.
Import Generator.

Definition default_settings : Settings.t := Settings.mk 384 30.
Definition no_quota_settings : Settings.t := Settings.mk 384 0.

(** EMBEDDING_DIMENSION=-1 in the environment. *)
Definition negative_dimension_settings : Settings.t := Settings.mk (-1) 30.

(** An embedding model that fails on every text. *)
Definition failing_encoder (_ : string) : result vector :=
  Raise (ServiceError "model unavailable").

(** The service fails once and would answer at the second call. *)
Definition flaky_once : World :=
  mkWorld 0%Qc [] [Raise (ServiceError "timeout"); Ok "A loyal EMEA customer"] [] [].
End GeneratorFixtures.

Module StorageFixtures.
Import Storage.

Definition euro_shopping : EmbeddingData :=
  mkEmbeddingData "Customer: Euro Shopping"
    [Q2Qc (1 # 2); Q2Qc (1 # 4)]
    (CustomerMeta (Some "EMEA") (Qc_of_Z 300) "Active").

Definition one_customer : list (string * EmbeddingData) :=
  [("Euro Shopping", euro_shopping)].

Definition empty_collection : Qdrant := mkQdrant ∅ true 0 [].

(** A server that accepts every batch, and one that accepts only
    vectors of two components. *)
Definition accept_all (_ : gmap N PointStruct) (_ : list (N * PointStruct))
  : result unit := Ok ().

Definition accept_pairs (_ : gmap N PointStruct) (batch : list (N * PointStruct))
  : result unit :=
  if decide (Forall (λ ip, length (point_vector ip.2) = 2) batch) then Ok ()
  else Raise (ServiceError "wrong vector size").

(** A record whose vector has three components. *)
Definition long_vector : EmbeddingData :=
  mkEmbeddingData "Customer: Mini Gifts" [1%Qc; 0%Qc; 0%Qc]
    (CustomerMeta (Some "NA") (Qc_of_Z 100) "Active").

Definition hit (n : N) (s : Z) (sales : Z) : Hit :=
  mkHit n (Qc_of_Z s / Qc_of_Z 10)%Qc
    (mkPayload "Euro Shopping" "Customer: Euro Shopping"
       (CustomerMeta (Some "EMEA") (Qc_of_Z sales) "Active")).

(** A server that answers every request with the same two customers. *)
Definition two_hits (_ : gmap N PointStruct) (_ : SearchRequest)
  : result (list Hit) :=
  Ok [hit 1 9 300; hit 2 8 50].
Definition product_hit (n : N) (s : Z) : Hit :=
  mkHit n (Qc_of_Z s / Qc_of_Z 10)%Qc
    (mkPayload "Classic Cars_S10_1949" "Product: Classic Cars - S10_1949"
       (ProductMeta "Classic Cars" (Q2Qc (3 # 2)) "Medium")).

(** A server that holds four hits and answers a request with those
    that meet its filter, up to its limit. *)
Definition filtering_server (_ : gmap N PointStruct) (req : SearchRequest)
  : result (list Hit) :=
  Ok (take (limit req)
        (filter (λ h, Forall (λ fv, payload_get_str fv.1 (payload h) = Some fv.2)
                             (default [] (query_filter req)))
                [hit 1 9 300; product_hit 3 8; hit 2 7 50; product_hit 4 6])).

Definition unreachable_collection : Qdrant := mkQdrant ∅ false 0 [].
End StorageFixtures.

Module BatchFixtures.
Import Processor.

Definition euro_profile : CustomerProfile.t :=
  CustomerProfile.mk "Euro Shopping" (Some "555-0100") (Some "Madrid") None (Some "Spain")
    (Some "EMEA") "Diego Freyre" 3 (Qc_of_Z 300) (Some (Qc_of_Z 100))
    ["Classic Cars"] [Some "Medium"] (Some 20040101%Z) "Active".

Definition classic_car : Product.t :=
  Product.mk "Classic Cars" "S10_1949" (Qc_of_Z 300) (Some (Qc_of_Z 100)) 3
    (Some (Qc_of_Z 50)) (Qc_of_Z 90) "Medium" 1%Qc.

Definition emea : Territory.t :=
  Territory.mk (Qc_of_Z 300) (Some (Qc_of_Z 100)) 3 1
    [("Classic Cars", 3)] [("Medium", 3)] (Some (Qc_of_Z 100)).
End BatchFixtures.

(** * Properties *)

(** ** The stable descending sort *)

Section sort_facts.
Context {A K : Type} (le : relation K) `{!RelDecision le} (key : A → K).

Lemma insert_desc_Permutation x l : insert_desc le key x l ≡ₚ x :: l.
Proof.
  induction l as [|y t IH]; cbn; [done|].
  destruct (decide (le (key y) (key x))); [done|].
  rewrite IH. apply Permutation_swap.
Qed.

Lemma sort_desc_Permutation l : sort_desc le key l ≡ₚ l.
Proof.
  induction l as [|x l IH]; cbn; [done|].
  fold (sort_desc le key l). by rewrite insert_desc_Permutation, IH.
Qed.

Section sorted.
Context `{!Total le, !Transitive le}.

Lemma insert_desc_sorted x l :
  StronglySorted (desc le key) l → StronglySorted (desc le key) (insert_desc le key x l).
Proof.
  induction 1 as [|y t Hsorted IH Hy]; cbn.
  - by repeat constructor.
  - destruct (decide (le (key y) (key x))) as [Hle|Hnle].
    + constructor; [by constructor|]. constructor; [done|].
      eapply Forall_impl; [exact Hy|]. intros z Hz. unfold desc in *. by etrans.
    + constructor; [done|].
      rewrite insert_desc_Permutation. constructor; [|done].
      unfold desc. by destruct (total le (key x) (key y)).
Qed.

Lemma sort_desc_sorted l : StronglySorted (desc le key) (sort_desc le key l).
Proof.
  induction l as [|x l IH]; cbn; [constructor|]. by apply insert_desc_sorted.
Qed.
End sorted.

Section stable.
Context `{!Reflexive le} `{EqDecision K}.

Lemma insert_desc_stable v x l :
  filter (λ a, key a = v) (insert_desc le key x l) = filter (λ a, key a = v) (x :: l).
Proof.
  induction l as [|y t IH]; cbn [insert_desc]; [done|].
  destruct (decide (le (key y) (key x))) as [Hle|Hnle]; [done|].
  assert (key y ≠ key x) as Hne by (intros Heq; apply Hnle; by rewrite Heq).
  rewrite (filter_cons _ y), IH, !(filter_cons _ x), (filter_cons _ y).
  destruct (decide (key x = v)) as [Hx|Hx], (decide (key y = v)) as [Hy|Hy];
    try done; congruence.
Qed.

Lemma sort_desc_stable v l :
  filter (λ a, key a = v) (sort_desc le key l) = filter (λ a, key a = v) l.
Proof.
  induction l as [|x l IH]; [done|]. cbn [sort_desc foldr].
  fold (sort_desc le key l). by rewrite insert_desc_stable, !filter_cons, IH.
Qed.
End stable.
End sort_facts.

(** ** Association lists, groups and sums *)

Section dict_facts.
Context {V : Type}.
Implicit Types (d items : list (string * V)).

Lemma dict_set_fresh k v d : k ∉ d.*1 → dict_set k v d = d ++ [(k, v)].
Proof.
  induction d as [|[k' v'] d IH]; intros Hk; simpl; [done|].
  rewrite fmap_cons, not_elem_of_cons in Hk. destruct Hk as [Hne Hk].
  simpl in Hne. rewrite decide_False by done. by rewrite IH.
Qed.

Lemma foldl_dict_set_fresh items d :
  NoDup (d.*1 ++ items.*1) →
  foldl (λ d kv, dict_set kv.1 kv.2 d) d items = d ++ items.
Proof.
  revert d. induction items as [|[k v] items IH]; intros d Hnd; simpl.
  - by rewrite app_nil_r.
  - rewrite fmap_cons in Hnd. simpl in Hnd.
    rewrite dict_set_fresh.
    + rewrite IH; [by rewrite <-app_assoc|].
      rewrite fmap_app. simpl. by rewrite <-app_assoc.
    + apply NoDup_app in Hnd as (_ & Hd & _). intros Hin.
      apply (Hd _ Hin). left.
Qed.

Lemma dict_set_elem_of k v d kv : kv ∈ dict_set k v d → kv = (k, v) ∨ kv ∈ d.
Proof.
  induction d as [|[k' v'] d IH]; cbn.
  - intros ->%list_elem_of_singleton. by left.
  - destruct (decide (k' = k)) as [->|Hne].
    + intros [->|Hin]%elem_of_cons; [by left|]. right. by right.
    + intros [->|Hin]%elem_of_cons; [right; left|].
      destruct (IH Hin) as [->|Hd]; [by left|]. right. by right.
Qed.

Lemma dict_of_items_elem_of items kv : kv ∈ dict_of_items items → kv ∈ items.
Proof.
  unfold dict_of_items.
  assert (∀ d, kv ∈ foldl (λ d kv, dict_set kv.1 kv.2 d) d items → kv ∈ d ∨ kv ∈ items)
    as Hgen.
  { induction items as [|[k v] items IH]; intros d; cbn; [by left|].
    intros [Hin|Hin]%IH; [|right; by right].
    apply dict_set_elem_of in Hin as [->|Hin]; [right; left|by left]. }
  intros [Hin|Hin]%Hgen; [by apply not_elem_of_nil in Hin|done].
Qed.

Lemma dict_of_items_NoDup items : NoDup items.*1 → dict_of_items items = items.
Proof. intros Hnd. unfold dict_of_items. by rewrite foldl_dict_set_fresh. Qed.
End dict_facts.

Lemma mapM_Ok_Forall2 {A B} (f : A → result B) l ys :
  mapM f l = Ok ys → Forall2 (λ x y, f x = Ok y) l ys.
Proof.
  revert ys. induction l as [|x l IH]; intros ys; simpl.
  - intros [= <-]. constructor.
  - destruct (f x) as [y|e] eqn:Hfx; simpl; [|done].
    destruct (mapM f l) as [ys'|e] eqn:Hl; simpl; [|done].
    intros [= <-]. constructor; auto.
Qed.

Lemma mapM_Forall_Ok {A B} (f : A → result B) l :
  Forall (λ x, ∃ y, f x = Ok y) l → ∃ ys, mapM f l = Ok ys.
Proof.
  induction 1 as [|x l [y Hy] _ [ys Hys]]; simpl; [by eexists|].
  rewrite Hy, Hys. by eexists.
Qed.

Section group_facts.
Import Processor.
Context {K : Type} `{EqDecision K} (le : relation K) `{!RelDecision le}.
Variable key : Row → option K.

Lemma elem_of_group_keys df k :
  k ∈ group_keys le key df ↔ ∃ r, r ∈ df ∧ key r = Some k.
Proof.
  unfold group_keys. rewrite merge_sort_Permutation, elem_of_remove_dups.
  rewrite list_elem_of_omap. naive_solver.
Qed.

Lemma NoDup_group_keys df : NoDup (group_keys le key df).
Proof.
  unfold group_keys. rewrite merge_sort_Permutation. apply NoDup_remove_dups.
Qed.

Lemma groupby_keys df : (groupby le key df).*1 = group_keys le key df.
Proof.
  unfold groupby. rewrite <-list_fmap_compose. apply list_fmap_id.
Qed.

Lemma elem_of_groupby df k g :
  (k, g) ∈ groupby le key df → g = group_rows key df k ∧ k ∈ group_keys le key df.
Proof.
  unfold groupby. rewrite list_elem_of_fmap. intros (k' & [= -> ->] & Hk). done.
Qed.

Lemma group_rows_nonempty df k : k ∈ group_keys le key df → group_rows key df k ≠ [].
Proof.
  rewrite elem_of_group_keys. intros (r & Hr & Hk) Hnil.
  assert (r ∈ group_rows key df k) as Hin by (apply list_elem_of_filter; done).
  rewrite Hnil in Hin. by apply not_elem_of_nil in Hin.
Qed.
End group_facts.

Section sum_facts.
Import Processor.

Lemma fsum_cons (x : Qc) xs : fsum (x :: xs) = (x + fsum xs)%Qc.
Proof. reflexivity. Qed.

Lemma col_sum_cons (x : option Qc) xs :
  col_sum (x :: xs) = (default 0%Qc x + col_sum xs)%Qc.
Proof. unfold col_sum, dropna. destruct x; simpl; [done|by rewrite Qcplus_0_l]. Qed.

Lemma col_count_present {A B} (f : A → option B) (l : list A) :
  (∀ x, x ∈ l → is_Some (f x)) → col_count (f <$> l) = length l.
Proof.
  unfold col_count, dropna. induction l as [|x l IH]; intros Hall; simpl; [done|].
  destruct (Hall x) as [y Hy]; [left|]. rewrite Hy. simpl.
  f_equal. apply IH. intros z Hz. apply Hall. by right.
Qed.

Lemma Qc_of_nat_nonzero n : n ≠ 0 → Qc_of_nat n ≠ 0%Qc.
Proof.
  intros Hn Heq. apply (f_equal this) in Heq. unfold Qc_of_nat in Heq. simpl in Heq.
  injection Heq as Heq. lia.
Qed.

Context {K : Type} `{EqDecision K}.

(** Adding [v] to the term of one key of a duplicate-free key list
    adds [v] to the sum. *)
Lemma fsum_bump (g : K → Qc) (k0 : K) (v : Qc) (ks : list K) :
  NoDup ks →
  fsum ((λ k, if decide (Some k0 = Some k) then v + g k else g k)%Qc <$> ks)
  = ((if decide (k0 ∈ ks) then v else 0) + fsum (g <$> ks))%Qc.
Proof.
  induction 1 as [|k ks Hk Hnd IH].
  - rewrite decide_False by apply not_elem_of_nil. cbn. ring.
  - rewrite !fmap_cons, !fsum_cons, IH.
    destruct (decide (Some k0 = Some k)) as [[= ->]|Hne].
    + rewrite (decide_True (P := k ∈ k :: ks)) by left.
      rewrite (decide_False (P := k ∈ ks)) by done. ring.
    + destruct (decide (k0 ∈ ks)) as [Hin|Hin].
      * rewrite (decide_True (P := k0 ∈ k :: ks)) by (by right). ring.
      * rewrite (decide_False (P := k0 ∈ k :: ks)); [ring|].
        rewrite not_elem_of_cons. split; [congruence|done].
Qed.

(** The group sums over a duplicate-free list of keys that covers
    every row add up to the sum of the column. *)
Lemma group_sum_partition (key : Row → option K) (f : Row → option Qc)
    (ks : list K) (df : DataFrame) :
  NoDup ks →
  (∀ r, r ∈ df → ∃ k, key r = Some k ∧ k ∈ ks) →
  fsum ((λ k, col_sum (f <$> group_rows key df k)) <$> ks) = col_sum (f <$> df).
Proof.
  intros Hnd. induction df as [|r df IH]; intros Hcov.
  - unfold group_rows. cbn. clear Hnd Hcov.
    induction ks as [|k ks IHk]; [done|].
    rewrite fmap_cons, fsum_cons, IHk. cbn. ring.
  - destruct (Hcov r) as (k0 & Hk0 & Hin); [left|].
    rewrite fmap_cons, col_sum_cons, <-IH by (intros; apply Hcov; by right).
    set (v := default 0%Qc (f r)).
    assert (∀ k, col_sum (f <$> group_rows key (r :: df) k)
                 = if decide (Some k0 = Some k)
                   then (v + col_sum (f <$> group_rows key df k))%Qc
                   else col_sum (f <$> group_rows key df k)) as Hstep.
    { intros k. unfold group_rows. rewrite filter_cons, Hk0.
      destruct (decide (Some k0 = Some k)); [|done].
      by rewrite fmap_cons, col_sum_cons. }
    erewrite list_fmap_ext; [|intros ? k _; apply Hstep].
    rewrite (fsum_bump (λ k, col_sum (f <$> group_rows key df k))) by done.
    by rewrite decide_True.
Qed.
End sum_facts.

(** ** Aggregation (src/data/processor.py) *)

Section aggregation.
Import Processor Fixtures.


Lemma fsum_scale (c : Qc) xs : fsum ((λ x, x * c)%Qc <$> xs) = (fsum xs * c)%Qc.
Proof.
  induction xs as [|x xs IH]; [cbn; ring|].
  rewrite fmap_cons, !fsum_cons, IH. ring.
Qed.

Lemma analyze_territories_groups df :
  analyze_territories df
  = (λ k, (k, territory_entry df (group_rows TERRITORY df k)))
      <$> group_keys String.le TERRITORY df.
Proof.
  unfold analyze_territories, groupby. rewrite <-list_fmap_compose.
  apply dict_of_items_NoDup. rewrite <-list_fmap_compose.
  rewrite (list_fmap_ext _ id) by done. rewrite list_fmap_id.
  apply NoDup_group_keys.
Qed.

Lemma most_frequent_present xs v :
  Some v ∈ xs → ∃ top, most_frequent xs = Ok top.
Proof.
  intros Hin. unfold most_frequent.
  destruct (value_counts xs) as [|[top n] rest] eqn:Hcounts; [|by eexists].
  apply (f_equal length) in Hcounts. unfold value_counts in Hcounts.
  rewrite (sort_desc_Permutation Nat.le snd), length_fmap in Hcounts.
  assert (v ∈ dropna xs) as Hv by (apply list_elem_of_omap; by exists (Some v)).
  unfold unique in Hcounts. destruct (dropna xs) as [|x t]; [by apply not_elem_of_nil in Hv|].
  cbn in Hcounts. rewrite decide_False in Hcounts by apply not_elem_of_nil. done.
Qed.

(** The customer aggregation returns as soon as every row with a
    customer name has a product line. *)
Lemma create_customer_profiles_returns df :
  (∀ r, r ∈ df → is_Some (CUSTOMERNAME r) → is_Some (PRODUCTLINE r)) →
  ∃ profiles, create_customer_profiles df = Ok profiles.
Proof.
  intros Hlines. unfold create_customer_profiles.
  destruct (mapM_Forall_Ok
              (λ kg : string * DataFrame,
                 p ← customer_profile kg.1 kg.2; mret (kg.1, p))
              (groupby String.le CUSTOMERNAME df)) as [customer_data ->];
    [|by eexists].
  apply Forall_forall. intros [k g] Hkg.
  apply elem_of_groupby in Hkg as [-> Hk]. cbn.
  apply elem_of_group_keys in Hk as (r & Hr & Hname).
  destruct (Hlines r Hr) as [line Hline]; [by rewrite Hname|].
  destruct (most_frequent_present (PRODUCTLINE <$> group_rows CUSTOMERNAME df k) line)
    as [top Htop].
  { apply list_elem_of_fmap. exists r. split; [done|]. by apply list_elem_of_filter. }
  unfold customer_profile. rewrite Htop. by eexists.
Qed.

(** With all three base metrics at zero the score is zero, whatever
    the frame: every division is guarded. *)
Lemma performance_of_zero_metrics df :
  _calculate_product_performance df 0%Qc 0 0%Qc = 0%Qc.
Proof.
  assert (∀ m, normalize 0%Qc m = 0%Qc) as Hzero.
  { intros [m|]; [|done]. unfold normalize. destruct (decide (0 < m)%Qc); [|done].
    unfold Qcdiv. apply Qcmult_0_l. }
  unfold _calculate_product_performance. cbv zeta.
  assert (Qc_of_nat 0 = 0%Qc) as -> by (by apply Qc_is_canon).
  rewrite !Hzero. by apply Qc_is_canon.
Qed.

Lemma create_customer_profiles_groups df profiles :
  create_customer_profiles df = Ok profiles →
  ∀ name p, (name, p) ∈ profiles →
    name ∈ group_keys String.le CUSTOMERNAME df
    ∧ customer_profile name (group_rows CUSTOMERNAME df name) = Ok p.
Proof.
  unfold create_customer_profiles.
  destruct (mapM _ _) as [customer_data|e] eqn:Hmap; [|done].
  cbn. intros [= <-]. apply mapM_Ok_Forall2 in Hmap.
  assert (Forall2 (λ kg kp, kp.1 = kg.1 ∧ customer_profile kg.1 kg.2 = Ok kp.2)
                  (groupby String.le CUSTOMERNAME df) customer_data) as Hall.
  { eapply Forall2_impl; [exact Hmap|]. intros [k g] kp. cbn.
    destruct (customer_profile k g); cbn; [|done]. by intros [= <-]. }
  assert (customer_data.*1 = group_keys String.le CUSTOMERNAME df) as Hkeys.
  { rewrite <-(groupby_keys String.le CUSTOMERNAME df).
    clear Hmap. induction Hall as [|kg kp ? ? [Hk _] _ IH]; [done|].
    rewrite !fmap_cons. by f_equal. }
  rewrite dict_of_items_NoDup by (rewrite Hkeys; apply NoDup_group_keys).
  intros name p Hin.
  apply list_elem_of_lookup in Hin as [i Hi].
  destruct (Forall2_lookup_r _ _ _ _ _ Hall Hi) as ([k g] & Hg & Hk & Hp).
  cbn in Hk, Hp. subst k.
  apply list_elem_of_lookup_2, elem_of_groupby in Hg as [-> Hg]. done.
Qed.

Lemma analyze_product_catalog_entries df catalog key e :
  analyze_product_catalog df = Ok catalog →
  (key, e) ∈ catalog →
  ∃ k, k ∈ group_keys pair_le product_key df
       ∧ product_entry df k (group_rows product_key df k) = Ok (key, e).
Proof.
  unfold analyze_product_catalog.
  destruct (mapM _ _) as [product_analysis|err] eqn:Hmap; [|done].
  cbn. intros [= <-] Hin%dict_of_items_elem_of.
  apply mapM_Ok_Forall2 in Hmap.
  apply list_elem_of_lookup in Hin as [i Hi].
  destruct (Forall2_lookup_r _ _ _ _ _ Hmap Hi) as ([k g] & Hg & Hentry).
  apply list_elem_of_lookup_2, elem_of_groupby in Hg as [-> Hk]. by exists k.
Qed.

(** What the code computes for every catalog entry: the entry's own
    sums, scored against the maxima that
    [_calculate_product_performance] takes from the frame. *)
Lemma performance_score_as_computed df catalog key e :
  analyze_product_catalog df = Ok catalog →
  (key, e) ∈ catalog →
  Product.performance_score e
  = _calculate_product_performance df (Product.total_sales e) (Product.order_count e)
      (Product.total_quantity e).
Proof.
  intros Hrun Hin.
  destruct (analyze_product_catalog_entries _ _ _ _ Hrun Hin) as (k & _ & Hentry).
  unfold product_entry in Hentry.
  destruct (if decide (0 < length _) then _ else _) as [deal|err]; [|done].
  cbn in Hentry. by injection Hentry as _ <-.
Qed.

(** C1 (defect of the code). On two order lines of 100 for the same
    product, [_calculate_product_performance] divides the product's
    total sales (200) by the largest single order line (100): the score
    of the only catalog entry is 3/2, above 1, while the score of the
    specification, normalised by the largest product total, is 1. *)
Theorem performance_score_exceeds_one :
  ∃ e, analyze_product_catalog (clean_data two_orders_one_product)
         = Ok [("Classic Cars_S10_1949", e)]
       ∧ Product.performance_score e = Q2Qc (3 # 2)
       ∧ spec_performance_score [("Classic Cars_S10_1949", e)] e = 1%Qc
       ∧ (1 < Product.performance_score e)%Qc.
Proof.
  eexists. split; [vm_compute; reflexivity|].
  split; [by apply Qc_is_canon|]. split; [by apply Qc_is_canon|]. by vm_compute.
Qed.


(** In exact arithmetic the shares of a frame whose rows all have a
    territory add up to 100. *)
Lemma market_share_sums_to_100_exact (df : DataFrame) :
  (∀ r, r ∈ df → is_Some (TERRITORY r)) →
  col_sum (SALES <$> df) ≠ 0%Qc →
  ∃ exact,
    (λ kv : string * Territory.t, Territory.market_share kv.2) <$> analyze_territories df
    = Some <$> exact
    ∧ fsum exact = Qc_of_Z 100.
Proof.
  intros Hterr Hsum. set (ta := analyze_territories df).
  set (grand_total := fsum ((λ kv, Territory.total_sales kv.2) <$> ta)).
  assert (grand_total = col_sum (SALES <$> df)) as Hgrand.
  { unfold grand_total, ta. rewrite analyze_territories_groups, <-list_fmap_compose.
    apply (group_sum_partition TERRITORY SALES); [apply NoDup_group_keys|].
    intros r Hr. destruct (Hterr r Hr) as [k Hk]. exists k. split; [done|].
    apply elem_of_group_keys. eauto. }
  exists ((λ x, x * (Qc_of_Z 100 / grand_total))%Qc
            <$> ((λ kv, Territory.total_sales kv.2) <$> ta)).
  split.
  - rewrite <-!list_fmap_compose. apply list_fmap_ext.
    intros _ [name e] Hin%list_elem_of_lookup_2. cbn. revert Hin.
    unfold ta. rewrite analyze_territories_groups, list_elem_of_fmap.
    intros (k & [= -> ->] & _). cbn.
    unfold fdiv. rewrite decide_False by done. cbn. f_equal.
    fold ta. fold grand_total. rewrite <-Hgrand. field. by rewrite Hgrand.
  - rewrite fsum_scale. fold grand_total. field. by rewrite Hgrand.
Qed.




Lemma Qc_of_nat_S n : Qc_of_nat (S n) = (Qc_of_nat n + 1)%Qc.
Proof.
  unfold Qc_of_nat. rewrite Nat2Z.inj_succ, <-Z.add_1_r.
  by rewrite Z2Qc_inj_add, Z2Qc_inj_1.
Qed.

Lemma fsum_within (err : Qc) (exact computed : list Qc) :
  Forall2 (λ m c, within err c m) exact computed →
  within (Qc_of_nat (length computed) * err) (fsum computed) (fsum exact).
Proof.
  induction 1 as [|m c ms cs [Hlo Hhi] _ [IHlo IHhi]].
  - unfold within. cbn. split.
    + assert (0 - Qc_of_nat 0 * err = 0)%Qc as -> by (by apply Qc_is_canon). done.
    + assert (0 + Qc_of_nat 0 * err = 0)%Qc as -> by (by apply Qc_is_canon). done.
  - cbn [length]. rewrite !fsum_cons, Qc_of_nat_S. split.
    + assert (m + fsum ms - (Qc_of_nat (length cs) + 1) * err
              = (m - err) + (fsum ms - Qc_of_nat (length cs) * err))%Qc as -> by ring.
      by apply Qcplus_le_compat.
    + assert (m + fsum ms + (Qc_of_nat (length cs) + 1) * err
              = (m + err) + (fsum ms + Qc_of_nat (length cs) * err))%Qc as -> by ring.
      by apply Qcplus_le_compat.
Qed.

(** What the tolerance of C2 is for: when every share the program
    reports is within [err] of the exact share, and the errors of all
    territories together stay below 1e-6, the reported shares add up
    to 100 within 1e-6. *)
Lemma market_share_sum_absorbs_rounding (df : DataFrame) (err : Qc) (reported : list Qc) :
  (∀ r, r ∈ df → is_Some (TERRITORY r)) →
  col_sum (SALES <$> df) ≠ 0%Qc →
  Forall2 (λ kv c, ∃ m, Territory.market_share kv.2 = Some m ∧ within err c m)
          (analyze_territories df) reported →
  (Qc_of_nat (length reported) * err ≤ tolerance)%Qc →
  within tolerance (fsum reported) (Qc_of_Z 100).
Proof.
  intros Hterr Hsum Hall Hbudget.
  destruct (market_share_sums_to_100_exact df Hterr Hsum) as (exact & Hexact & Htotal).
  assert (Forall2 (λ m c, within err c m) exact reported) as Hclose.
  { clear Htotal Hbudget. revert exact Hexact.
    induction Hall as [|kv c ta cs (m & Hm & Hc) _ IH]; intros exact Hexact.
    - destruct exact; [constructor|done].
    - rewrite fmap_cons, Hm in Hexact. destruct exact as [|m' exact]; [done|].
      rewrite fmap_cons in Hexact. injection Hexact as <- Hexact.
      constructor; [done|]. by apply IH. }
  destruct (fsum_within _ _ _ Hclose) as [Hlo Hhi]. rewrite Htotal in Hlo, Hhi.
  split.
  - etrans; [|exact Hlo].
    assert (∀ a b c : Qc, (b ≤ c → a - c ≤ a - b)%Qc) as Hmono.
    { intros a b c Hbc. assert (a - c = a + - c)%Qc as -> by ring.
      assert (a - b = a + - b)%Qc as -> by ring.
      apply Qcplus_le_compat; [apply Qcle_refl|by apply Qcopp_le_compat]. }
    by apply Hmono.
  - etrans; [exact Hhi|]. by apply Qcplus_le_compat; [apply Qcle_refl|].
Qed.

(** C3, as stated, fails: the customer has four rows after
    deduplication, but three orders are counted (one row has no order
    number), and the average order value, taken over the two readable
    SALES cells, is 60 while total sales / total orders is 40. *)
Lemma customer_average_differs :
  let df := clean_data customer_with_missing_cells in
  ∃ p, create_customer_profiles df = Ok [("Euro Shopping", p)]
       ∧ length (filter (λ r, CUSTOMERNAME r = Some "Euro Shopping") df) = 4
       ∧ CustomerProfile.total_orders p = 3
       ∧ CustomerProfile.total_sales p = Qc_of_Z 120
       ∧ CustomerProfile.avg_order_value p = Some (Qc_of_Z 60)
       ∧ ¬ ∃ avg, CustomerProfile.avg_order_value p = Some avg
                  ∧ within tolerance avg
                      (CustomerProfile.total_sales p
                       / Qc_of_nat (CustomerProfile.total_orders p))%Qc.
Proof.
  cbv zeta. eexists. split; [vm_compute; reflexivity|].
  split; [by vm_compute|]. split; [done|]. split; [by apply Qc_is_canon|].
  assert (∀ x y : Qc, x = y → Some x = Some y) as Hsome by (by intros ?? ->).
  split; [by apply Hsome, Qc_is_canon|].
  intros (avg & [= <-] & _ & Hhi). revert Hhi. by vm_compute.
Qed.

(** C3 (amended). For every customer profile produced from the cleaned
    frame whose rows all have a readable SALES cell and an order
    number, total_orders is the number of rows of the cleaned frame
    with that customer name, it is not zero, and avg_order_value is
    total_sales / total_orders. *)
Theorem customer_profile_average (df : DataFrame) profiles name p :
  create_customer_profiles (clean_data df) = Ok profiles →
  (name, p) ∈ profiles →
  (∀ r, r ∈ clean_data df → CUSTOMERNAME r = Some name →
        is_Some (SALES r) ∧ is_Some (ORDERNUMBER r)) →
  CustomerProfile.total_orders p
    = length (filter (λ r, CUSTOMERNAME r = Some name) (clean_data df))
  ∧ CustomerProfile.total_orders p ≠ 0
  ∧ CustomerProfile.total_sales p
    = col_sum (SALES <$> filter (λ r, CUSTOMERNAME r = Some name) (clean_data df))
  ∧ CustomerProfile.avg_order_value p
    = Some (CustomerProfile.total_sales p
            / Qc_of_nat (CustomerProfile.total_orders p))%Qc.
Proof.
  intros Hrun Hin Hcells.
  destruct (create_customer_profiles_groups _ _ Hrun _ _ Hin) as [Hkey Hp].
  apply (group_rows_nonempty String.le) in Hkey.
  unfold group_rows in *. set (g := filter _ (clean_data df)) in *.
  assert (∀ r, r ∈ g → is_Some (SALES r) ∧ is_Some (ORDERNUMBER r)) as Hg.
  { intros r [Hname Hr]%list_elem_of_filter. by apply Hcells. }
  unfold customer_profile in Hp.
  destruct (most_frequent _) as [preferred|e]; [|done].
  cbn in Hp. injection Hp as <-. cbn.
  rewrite (col_count_present ORDERNUMBER) by (intros; by apply Hg).
  assert (length g ≠ 0) as Hlen by (by destruct g).
  split; [done|]. split; [done|]. split; [done|].
  unfold col_mean, fdiv.
  rewrite (col_count_present SALES) by (intros; by apply Hg).
  by rewrite decide_False by (by apply Qc_of_nat_nonzero).
Qed.

(** Witness of C3 (amended): customer A of the scenario of the
    specification, three orders of 100. *)
Lemma customer_profile_average_witness :
  ∃ profiles p,
    create_customer_profiles (clean_data two_customers) = Ok profiles
    ∧ ("A", p) ∈ profiles
    ∧ CustomerProfile.total_orders p = 3
    ∧ CustomerProfile.avg_order_value p
      = Some (CustomerProfile.total_sales p
              / Qc_of_nat (CustomerProfile.total_orders p))%Qc.
Proof.
  destruct (create_customer_profiles (clean_data two_customers))
    as [profiles|e] eqn:Hrun; [|by vm_compute in Hrun].
  assert (∃ p, profiles !! 0 = Some ("A", p)) as [p Hp].
  { vm_compute in Hrun. injection Hrun as <-. by eexists. }
  apply list_elem_of_lookup_2 in Hp.
  exists profiles, p. split; [done|]. split; [done|].
  assert (∀ r, r ∈ clean_data two_customers → CUSTOMERNAME r = Some "A" →
               is_Some (SALES r) ∧ is_Some (ORDERNUMBER r)) as Hcells.
  { intros r Hr _. vm_compute in Hr.
    by repeat (apply elem_of_cons in Hr as [->|Hr]; [by split; eexists|]);
      apply not_elem_of_nil in Hr. }
  destruct (customer_profile_average two_customers profiles "A" p Hrun Hp Hcells)
    as (Horders & _ & _ & Havg).
  split; [|done]. rewrite Horders. by vm_compute.
Defined.
End aggregation.

(** ** Embedding and enrichment (src/embeddings/generator.py) *)

Section generator_props.
Import Generator.
Variable settings : Settings.t.
Variable encode : string → result vector.
Variable astype_float32 : vector → result vector.
Variable strip : string → string.

Lemma generate_text_embedding_total text :
  (0 ≤ Settings.EMBEDDING_DIMENSION settings)%Z →
  ∃ v, generate_text_embedding settings encode astype_float32 text = Ok v.
Proof.
  intros Hdim. unfold generate_text_embedding, zeros. rewrite decide_True by done.
  destruct (encode text) as [raw|e]; cbn; [|by eexists].
  destruct (astype_float32 raw); cbn; by eexists.
Qed.

(** C6 (amended). With a configured dimension that is not negative,
    [generate_text_embedding] returns a vector for every text and never
    raises: the model's vector converted to float32 when both library
    calls succeed, and otherwise the zero vector, whose length is the
    configured dimension. Hence embedding a batch of texts one after
    the other yields one vector per text, whatever text fails. *)
Theorem generate_text_embedding_fails_soft :
  (0 ≤ Settings.EMBEDDING_DIMENSION settings)%Z →
  (∀ text,
     ∃ v, generate_text_embedding settings encode astype_float32 text = Ok v
          ∧ ((∃ raw, encode text = Ok raw ∧ astype_float32 raw = Ok v)
             ∨ (((∃ e, encode text = Raise e)
                 ∨ (∃ raw e, encode text = Ok raw ∧ astype_float32 raw = Raise e))
                ∧ zeros (Settings.EMBEDDING_DIMENSION settings) = Ok v
                ∧ Z.of_nat (length v) = Settings.EMBEDDING_DIMENSION settings
                ∧ Forall (λ x, x = 0%Qc) v)))
  ∧ (∀ texts,
       ∃ vs, mapM (generate_text_embedding settings encode astype_float32) texts = Ok vs
             ∧ length vs = length texts).
Proof.
  intros Hdim. split.
  - intros text.
    assert (∃ v, zeros (Settings.EMBEDDING_DIMENSION settings) = Ok v
                 ∧ Z.of_nat (length v) = Settings.EMBEDDING_DIMENSION settings
                 ∧ Forall (λ x, x = 0%Qc) v) as (z & Hz & Hlen & Hzero).
    { unfold zeros. rewrite decide_True by done. eexists. split; [done|].
      split; [rewrite length_replicate; lia|].
      apply Forall_forall. by intros x [-> _]%elem_of_replicate. }
    unfold generate_text_embedding. rewrite Hz.
    destruct (encode text) as [raw|e] eqn:Henc; cbn.
    + destruct (astype_float32 raw) as [v|e] eqn:Hcast; cbn.
      * exists v. split; [done|]. left. by exists raw.
      * exists z. split; [done|]. right. split; [right; by exists raw, e|done].
    + exists z. split; [done|]. right. split; [left; by exists e|done].
  - intros texts.
    destruct (mapM_Forall_Ok (generate_text_embedding settings encode astype_float32) texts)
      as [vs Hvs].
    { apply Forall_forall. intros text _. by apply generate_text_embedding_total. }
    exists vs. split; [done|]. symmetry.
    eapply Forall2_length, mapM_Ok_Forall2, Hvs.
Qed.

(** One attempt whose rate-limit check passes and whose completion
    fails already returns the base text. *)
Lemma enhance_once_swallows_failure text context w w1 e rest :
  _check_rate_limit settings w = (Ok (), w1) →
  groq_script w1 = Raise e :: rest →
  enhance_text_with_groq_once settings strip text context w
  = (Ok text, mkWorld (now w1) (rate_limit_tracker w1) rest
                      (groq_prompts w1 ++ [enhance_prompt text context]) (slept w1)).
Proof.
  intros Hcheck Hscript. unfold enhance_text_with_groq_once. rewrite Hcheck.
  unfold groq_complete. by rewrite Hscript.
Qed.

(** Hence the decorated function makes a single attempt: no wait, no
    second completion, whatever the rest of the script holds. *)
Lemma enhance_text_with_groq_single_attempt text context w w1 e rest :
  _check_rate_limit settings w = (Ok (), w1) →
  groq_script w1 = Raise e :: rest →
  enhance_text_with_groq settings strip text context w
  = (Ok text, mkWorld (now w1) (rate_limit_tracker w1) rest
                      (groq_prompts w1 ++ [enhance_prompt text context]) (slept w1)).
Proof.
  intros Hcheck Hscript. unfold enhance_text_with_groq, retry. cbn [Nat.sub retry_from].
  by rewrite (enhance_once_swallows_failure _ _ _ _ _ _ Hcheck Hscript).
Qed.
End generator_props.

Section generator_cases.
Import Generator GeneratorFixtures.

(** C6, as stated, fails: the dimension is read from the environment
    unchecked, and with EMBEDDING_DIMENSION=-1 the fallback
    [np.zeros] itself raises inside the handler. With a model that
    fails, every text then makes [generate_text_embedding] raise
    ValueError, and a batch stops at its first text. *)
Lemma negative_dimension_makes_embedding_raise :
  (∀ text,
     generate_text_embedding negative_dimension_settings failing_encoder Ok text
     = Raise (ValueError "negative dimensions are not allowed"))
  ∧ mapM (generate_text_embedding negative_dimension_settings failing_encoder Ok)
         ["Customer: Euro Shopping"; "Customer: Mini Gifts"]
    = Raise (ValueError "negative dimensions are not allowed").
Proof. split; [by intros text|done]. Qed.

(** Witness of C6 (amended): the default dimension 384 and a model
    that fails. *)
Lemma generate_text_embedding_fails_soft_witness :
  (0 ≤ Settings.EMBEDDING_DIMENSION default_settings)%Z
  ∧ ∃ v, generate_text_embedding default_settings failing_encoder Ok
           "Customer: Euro Shopping" = Ok v
         ∧ length v = 384.
Proof.
  assert (0 ≤ Settings.EMBEDDING_DIMENSION default_settings)%Z as Hdim by (cbn; lia).
  split; [done|].
  destruct (generate_text_embedding_fails_soft default_settings failing_encoder Ok Hdim)
    as [Hone _].
  destruct (Hone "Customer: Euro Shopping") as (v & Hrun & [(raw & Hraw & _)|(_ & _ & Hlen & _)]).
  - discriminate Hraw.
  - exists v. split; [done|]. cbn in Hlen. lia.
Defined.

(** C5 (defect of the code). The completion fails once and would
    succeed at the second attempt: [enhance_text_with_groq] returns the
    base text after that single failure, without waiting and without
    a second call: the answer that a retry would have obtained is
    still unread in the script. *)
Theorem enhance_text_with_groq_does_not_retry :
  ∃ w, enhance_text_with_groq default_settings id "Customer: Euro Shopping" "EMEA" flaky_once
       = (Ok "Customer: Euro Shopping", w)
       ∧ length (groq_prompts w) = 1
       ∧ slept w = []
       ∧ groq_script w = [Ok "A loyal EMEA customer"].
Proof.
  eexists. split.
  - apply (enhance_text_with_groq_single_attempt default_settings id _ _ flaky_once
             (mkWorld 0%Qc [0%Qc] (groq_script flaky_once) [] [])
             (ServiceError "timeout") [Ok "A loyal EMEA customer"]); by vm_compute.
  - done.
Qed.

(** When it is the rate-limit check that raises (a limit of zero
    requests), the retries do take place, 4 seconds apart, and the
    third failure leaves the function as a [RetryError]. *)
Lemma enhance_text_with_groq_exhaustion_raises :
  ∃ w, enhance_text_with_groq no_quota_settings id "Customer: Euro Shopping" "EMEA" flaky_once
       = (Raise (RetryError (IndexError "list index out of range")), w)
       ∧ slept w = [Qc_of_Z 4; Qc_of_Z 4]
       ∧ groq_prompts w = [].
Proof.
  eexists. split; [vm_compute; reflexivity|].
  split; [|done]. repeat f_equal; by apply Qc_is_canon.
Qed.
End generator_cases.

(** ** The vector store (src/embeddings/storage.py) *)

Section storage_props.
Import Storage.
Variable uuid4 : nat → N.
Variable accept : gmap N PointStruct → list (N * PointStruct) → result unit.
Variable nearest : gmap N PointStruct → SearchRequest → result (list Hit).

Lemma build_points_ids embeddings n :
  (build_points uuid4 embeddings n).*1 = uuid4 <$> seq n (length embeddings).
Proof.
  revert n. induction embeddings as [|[key data] rest IH]; intros n; [done|].
  cbn. by rewrite IH.
Qed.

Lemma build_points_elem_of embeddings n key data :
  (key, data) ∈ embeddings →
  ∃ i, (i, mkPoint (embedding data) (mkPayload key (text data) (metadata data)))
         ∈ build_points uuid4 embeddings n.
Proof.
  revert n. induction embeddings as [|[key' data'] rest IH]; intros n Hin.
  - by apply not_elem_of_nil in Hin.
  - apply elem_of_cons in Hin as [[= -> ->]|Hin]; cbn.
    + eexists. left.
    + destruct (IH (S n) Hin) as [i Hi]. exists i. by right.
Qed.

(** Upserting a batch under new, pairwise distinct ids only adds. *)
Lemma upsert_fresh (batch : list (N * PointStruct)) (m : gmap N PointStruct) :
  NoDup batch.*1 →
  (∀ i, i ∈ batch.*1 → m !! i = None) →
  let m' := foldl (λ m ip, <[ip.1 := ip.2]> m) m batch in
  size m' = size m + length batch
  ∧ (∀ i pt, m !! i = Some pt → m' !! i = Some pt)
  ∧ (∀ i pt, (i, pt) ∈ batch → m' !! i = Some pt).
Proof.
  revert m. induction batch as [|[i pt] batch IH]; intros m Hnd Hfresh; cbn.
  - split; [lia|]. split; [done|]. intros ?? Hin. by apply not_elem_of_nil in Hin.
  - rewrite fmap_cons in Hnd, Hfresh. cbn in Hnd, Hfresh.
    apply NoDup_cons in Hnd as [Hi Hnd].
    destruct (IH (<[i:=pt]> m) Hnd) as (Hsize & Hold & Hnew).
    { intros j Hj. rewrite lookup_insert_ne by (intros ->; done).
      apply Hfresh. by right. }
    cbn in Hsize, Hold, Hnew. split; [|split].
    + rewrite Hsize, map_size_insert_None by (apply Hfresh; left). lia.
    + intros j pt' Hj. apply Hold. rewrite lookup_insert_ne; [done|].
      intros ->. rewrite Hfresh in Hj by left. done.
    + intros j pt' [[= -> ->]|Hin]%elem_of_cons; [|by apply Hnew].
      apply Hold. by rewrite lookup_insert_eq.
Qed.

Lemma store_embeddings_available embeddings s :
  available s = true →
  accept (points s) (build_points uuid4 embeddings (drawn s)) = Ok () →
  embeddings ≠ [] →
  store_embeddings uuid4 accept embeddings s
  = (true, mkQdrant (foldl (λ m ip, <[ip.1 := ip.2]> m) (points s)
                           (build_points uuid4 embeddings (drawn s)))
                    true (drawn s + length embeddings) (searches s)).
Proof.
  intros Hup Hok Hne. destruct embeddings as [|[key data] rest]; [done|].
  unfold store_embeddings, client_upsert. cbn. cbn in Hok. by rewrite Hup, Hok.
Qed.

Lemma search_similar_spec q limit conds threshold s :
  let req := mkSearchRequest q (match conds with [] => None | _ => Some conds end)
                             limit threshold in
  search_similar nearest q limit conds threshold s = (answer nearest s req, issue req s).
Proof.
  unfold search_similar, client_search, answer. cbv zeta.
  by destruct (if available s then _ else _).
Qed.

Lemma post_filter_sublist field minimum results :
  post_filter field minimum results `sublist_of` results.
Proof. destruct minimum; cbn; [apply sublist_filter|done]. Qed.
End storage_props.

Section storage_claims.
Import Storage StorageFixtures.

(** C4, as stated, fails: ids are drawn anew at every call, so storing
    the record of the same entity a second time leaves two points with
    the same key and the same content in the collection. *)
Lemma storing_twice_duplicates_the_entity :
  let uuid4 := N.of_nat in
  let stored := mkPoint (embedding euro_shopping)
                  (mkPayload "Euro Shopping" (text euro_shopping) (metadata euro_shopping)) in
  let first := store_embeddings uuid4 accept_all one_customer empty_collection in
  let second := store_embeddings uuid4 accept_all one_customer first.2 in
  first.1 = true ∧ second.1 = true
  ∧ size (points first.2) = 1 ∧ size (points second.2) = 2
  ∧ points second.2 !! 0%N = Some stored ∧ points second.2 !! 1%N = Some stored.
Proof. cbv zeta. repeat split; by vm_compute. Qed.

(** C4 (amended). [store_embeddings] gives every record an identifier
    drawn anew from uuid4 at each call, whatever the entity key. When
    the server answers and accepts the batch and the identifiers drawn
    are pairwise distinct and not in use, the call succeeds, adds one
    point per record, each with the record's key, text, vector and
    metadata, and leaves every point already stored in place. *)
Theorem store_embeddings_adds_one_point_per_record
    (uuid4 : nat → N)
    (accept : gmap N PointStruct → list (N * PointStruct) → result unit)
    (embeddings : list (string * EmbeddingData)) (s : Qdrant) :
  let ids := uuid4 <$> seq (drawn s) (length embeddings) in
  available s = true →
  accept (points s) (build_points uuid4 embeddings (drawn s)) = Ok () →
  NoDup ids →
  (∀ i, i ∈ ids → points s !! i = None) →
  ∃ s', store_embeddings uuid4 accept embeddings s = (true, s')
        ∧ size (points s') = size (points s) + length embeddings
        ∧ (∀ i pt, points s !! i = Some pt → points s' !! i = Some pt)
        ∧ (∀ key data, (key, data) ∈ embeddings →
             ∃ i, i ∈ ids
                  ∧ points s' !! i
                    = Some (mkPoint (embedding data)
                                    (mkPayload key (text data) (metadata data)))).
Proof.
  intros ids Hup Hok Hnd Hfresh. unfold ids in *. clear ids.
  rewrite <-build_points_ids in Hnd, Hfresh. rewrite <-build_points_ids.
  destruct (upsert_fresh _ (points s) Hnd Hfresh) as (Hsize & Hold & Hnew).
  cbn in Hsize, Hold, Hnew.
  assert (length (build_points uuid4 embeddings (drawn s)) = length embeddings) as Hlen.
  { rewrite <-(length_fmap fst), build_points_ids, length_fmap. apply length_seq. }
  destruct (decide (embeddings = [])) as [->|Hne].
  - exists s. cbn. split; [done|]. split; [lia|]. split; [done|].
    intros ?? Hin. by apply not_elem_of_nil in Hin.
  - rewrite store_embeddings_available by done.
    eexists. split; [done|]. cbn [points]. rewrite <-Hlen.
    split; [done|]. split; [done|].
    intros key data Hin.
    destruct (build_points_elem_of uuid4 _ (drawn s) _ _ Hin) as [i Hi].
    exists i. split; [|by apply Hnew].
    apply list_elem_of_fmap. by eexists (_, _).
Qed.

(** Witness of C4 (amended): one record stored in an empty collection
    whose server accepts vectors of two components. *)
Lemma store_embeddings_adds_one_point_per_record_witness :
  available empty_collection = true
  ∧ accept_pairs (points empty_collection)
      (build_points N.of_nat one_customer (drawn empty_collection)) = Ok ()
  ∧ NoDup (N.of_nat <$> seq (drawn empty_collection) (length one_customer))
  ∧ ∃ s', store_embeddings N.of_nat accept_pairs one_customer empty_collection = (true, s')
          ∧ size (points s') = 1.
Proof.
  assert (NoDup (N.of_nat <$> seq (drawn empty_collection) (length one_customer)))
    as Hnd by (cbn; apply NoDup_singleton).
  split; [done|]. split; [by vm_compute|]. split; [done|].
  destruct (store_embeddings_adds_one_point_per_record N.of_nat accept_pairs one_customer
              empty_collection eq_refl eq_refl Hnd) as (s' & Hrun & Hsize & _).
  - intros i _. apply lookup_empty.
  - exists s'. by split.
Defined.

(** C9. With no record to store, [store_embeddings] returns success and
    leaves the collection as it was: no identifier is drawn, no request
    is sent, the points and their number are unchanged. *)
Theorem store_embeddings_empty
    (uuid4 : nat → N)
    (accept : gmap N PointStruct → list (N * PointStruct) → result unit)
    (s : Qdrant) :
  store_embeddings uuid4 accept [] s = (true, s)
  ∧ size (points (store_embeddings uuid4 accept [] s).2) = size (points s).
Proof. by split. Qed.

(** C8. For every query vector, limit and threshold, the search with a
    numeric post-filter returns a sublist of what the same search
    without it returns, hence at most as many results; this holds for
    customers (minimum sales), products (minimum performance score) and
    territories (minimum market share). *)
Theorem numeric_post_filter_returns_sublist
    (nearest : gmap N PointStruct → SearchRequest → result (list Hit))
    (query_embedding : vector) (limit : nat) (minimum : Qc) (s : Qdrant) :
  let fewer (filtered unfiltered : list Hit) :=
    filtered `sublist_of` unfiltered ∧ length filtered ≤ length unfiltered in
  (∀ territory customer_status,
     fewer (search_customers nearest query_embedding territory (Some minimum)
                             customer_status limit s).1
           (search_customers nearest query_embedding territory None
                             customer_status limit s).1)
  ∧ (∀ product_line deal_size,
       fewer (search_products nearest query_embedding product_line deal_size
                              (Some minimum) limit s).1
             (search_products nearest query_embedding product_line deal_size
                              None limit s).1)
  ∧ fewer (search_territories nearest query_embedding (Some minimum) limit s).1
          (search_territories nearest query_embedding None limit s).1.
Proof.
  assert (∀ field results,
            post_filter field (Some minimum) results `sublist_of` post_filter field None results
            ∧ length (post_filter field (Some minimum) results)
              ≤ length (post_filter field None results)) as Hfilter.
  { intros field results.
    pose proof (post_filter_sublist field (Some minimum) results) as Hsub.
    split; [done|]. by apply sublist_length. }
  cbv zeta. unfold search_customers, search_products, search_territories.
  split; [|split]; intros; rewrite search_similar_spec; apply Hfilter.
Qed.

(** The post-filter can indeed drop results: of two customers found,
    only one has sales of at least 100. *)
Lemma numeric_post_filter_may_return_fewer :
  length (search_customers two_hits [] None (Some (Qc_of_Z 100)) None 10 empty_collection).1 = 1
  ∧ length (search_customers two_hits [] None None None 10 empty_collection).1 = 2.
Proof. split; by vm_compute. Qed.
End storage_claims.

(** ** Retrieval (src/agent/sales_agent.py) *)

Section agent_claims.
Import Storage Agent StorageFixtures.

Lemma retrieve_context_unfold settings encode astype_float32 nearest
    query context_type s query_embedding :
  Generator.generate_text_embedding settings encode astype_float32 query
    = Ok query_embedding →
  let requests := scope_requests query_embedding context_type in
  retrieve_context settings encode astype_float32 nearest query context_type s
  = (Ok (sort_desc Qcle score (mjoin (answer nearest s <$> requests))),
     mkQdrant (points s) (available s) (drawn s) (searches s ++ requests)).
Proof.
  intros Hq. unfold retrieve_context, scope_requests. rewrite Hq.
  unfold search_customers, search_products, search_territories.
  destruct s as [pts up n log].
  destruct (decide (context_type ∈ ["all"; "customer"]));
    destruct (decide (context_type ∈ ["all"; "product"]));
    destruct (decide (context_type ∈ ["all"; "territory"]));
    rewrite ?search_similar_spec; unfold answer, issue, category_request; cbn;
    rewrite ?app_nil_r, <-?app_assoc; done.
Qed.

(** C7, as stated, fails: retrieval embeds the query first, and with
    EMBEDDING_DIMENSION=-1 and a model that fails the embedding raises
    (see C6). No search is issued and nothing is returned. *)
Lemma retrieval_raises_for_negative_dimension :
  retrieve_context GeneratorFixtures.negative_dimension_settings
    GeneratorFixtures.failing_encoder Ok two_hits "best customers" "all" empty_collection
  = (Raise (ValueError "negative dimensions are not allowed"), empty_collection).
Proof. reflexivity. Qed.

(** C7 (amended). With a configured dimension that is not negative, for
    every query and scope, [retrieve_context] embeds the query, issues
    the category searches of the scope in the order customer, product,
    territory with the limits 3, 3 and 2, and returns the concatenation
    of their results sorted by descending score: the result is a
    permutation of the concatenation, scores never increase along it,
    and results of equal score keep the order in which the searches
    emitted them. *)
Theorem retrieve_context_merges_by_score
    (settings : Settings.t) (encode : string → result vector)
    (astype_float32 : vector → result vector)
    (nearest : gmap N PointStruct → SearchRequest → result (list Hit))
    (query context_type : string) (s : Qdrant) :
  (0 ≤ Settings.EMBEDDING_DIMENSION settings)%Z →
  ∃ query_embedding results s',
    Generator.generate_text_embedding settings encode astype_float32 query
      = Ok query_embedding
    ∧ retrieve_context settings encode astype_float32 nearest query context_type s
      = (Ok results, s')
    ∧ let requests := scope_requests query_embedding context_type in
      let emitted := mjoin (answer nearest s <$> requests) in
      searches s' = searches s ++ requests
      ∧ points s' = points s
      ∧ results ≡ₚ emitted
      ∧ StronglySorted (λ a b, score b ≤ score a)%Qc results
      ∧ ∀ v, filter (λ r, score r = v) results = filter (λ r, score r = v) emitted.
Proof.
  intros Hdim.
  destruct (generate_text_embedding_total settings encode astype_float32 query Hdim)
    as [query_embedding Hq].
  eexists query_embedding, _, _. split; [done|].
  split; [by apply retrieve_context_unfold|]. cbv zeta. cbn [searches points].
  split; [done|]. split; [done|]. split; [apply sort_desc_Permutation|].
  split; [apply (sort_desc_sorted Qcle score)|].
  intros v. apply (sort_desc_stable Qcle score).
Qed.

(** Witness of C7 (amended): the default dimension, a server that
    returns two customers for every request, the scope all. *)
Lemma retrieve_context_merges_by_score_witness :
  (0 ≤ Settings.EMBEDDING_DIMENSION GeneratorFixtures.default_settings)%Z
  ∧ ∃ results s',
      retrieve_context GeneratorFixtures.default_settings (λ _, Ok [1%Qc]) Ok two_hits
        "best customers" "all" empty_collection = (Ok results, s')
      ∧ length (searches s') = 3
      ∧ length results = 6
      ∧ StronglySorted (λ a b, score b ≤ score a)%Qc results.
Proof.
  assert (0 ≤ Settings.EMBEDDING_DIMENSION GeneratorFixtures.default_settings)%Z
    as Hdim by (cbn; lia).
  split; [done|].
  destruct (retrieve_context_merges_by_score GeneratorFixtures.default_settings
              (λ _, Ok [1%Qc]) Ok two_hits "best customers" "all" empty_collection Hdim)
    as (q & results & s' & _ & Hrun & Hlog & _ & Hperm & Hsorted & _).
  exists results, s'. split; [exact Hrun|].
  split; [by rewrite Hlog|]. split; [|exact Hsorted].
  by rewrite (Permutation_length Hperm).
Defined.

(** C10, as stated, fails: the query is embedded before the scope is
    looked at, and with EMBEDDING_DIMENSION=-1 and a model that fails
    the embedding raises (see C6), so the call raises for the unknown
    scope orders as for any other. *)
Lemma unknown_scope_raises_for_negative_dimension :
  ("orders" ∉ ["all"; "customer"; "product"; "territory"])
  ∧ retrieve_context GeneratorFixtures.negative_dimension_settings
      GeneratorFixtures.failing_encoder Ok two_hits "best customers" "orders"
      empty_collection
    = (Raise (ValueError "negative dimensions are not allowed"), empty_collection).
Proof. split; [|reflexivity]. apply (bool_decide_unpack _). by vm_compute. Qed.

(** C10 (amended). With a configured dimension that is not negative,
    for a scope other than all, customer, product and territory,
    [retrieve_context] sends no search to the vector store and returns
    the empty list, without raising. *)
Theorem retrieve_context_unknown_scope
    (settings : Settings.t) (encode : string → result vector)
    (astype_float32 : vector → result vector)
    (nearest : gmap N PointStruct → SearchRequest → result (list Hit))
    (query context_type : string) (s : Qdrant) :
  (0 ≤ Settings.EMBEDDING_DIMENSION settings)%Z →
  context_type ∉ ["all"; "customer"; "product"; "territory"] →
  retrieve_context settings encode astype_float32 nearest query context_type s = (Ok [], s)
  ∧ searches (retrieve_context settings encode astype_float32 nearest
                query context_type s).2 = searches s.
Proof.
  intros Hdim Hscope.
  assert (retrieve_context settings encode astype_float32 nearest query context_type s
          = (Ok [], s)) as Hrun.
  { destruct (generate_text_embedding_total settings encode astype_float32 query Hdim)
      as [query_embedding Hq].
    rewrite (retrieve_context_unfold _ _ _ _ _ _ _ _ Hq). unfold scope_requests.
    assert (∀ c, c ∈ ["customer"; "product"; "territory"] →
                 context_type ∉ ["all"; c]) as Hno.
    { intros c Hc Hin. apply Hscope.
      apply elem_of_cons in Hin as [->|Hin]; [left|].
      apply list_elem_of_singleton in Hin as ->. by right. }
    rewrite !decide_False by (apply Hno; rewrite !elem_of_cons; auto).
    cbn. rewrite app_nil_r. by destruct s. }
  by rewrite Hrun.
Qed.

(** Witness of C10 (amended): the default dimension and the scope
    orders. *)
Lemma retrieve_context_unknown_scope_witness :
  (0 ≤ Settings.EMBEDDING_DIMENSION GeneratorFixtures.default_settings)%Z
  ∧ ("orders" ∉ ["all"; "customer"; "product"; "territory"])
  ∧ retrieve_context GeneratorFixtures.default_settings (λ _, Ok [1%Qc]) Ok two_hits
      "best customers" "orders" empty_collection
    = (Ok [], empty_collection).
Proof.
  assert ("orders" ∉ ["all"; "customer"; "product"; "territory"]) as Hscope.
  { apply (bool_decide_unpack _). by vm_compute. }
  assert (0 ≤ Settings.EMBEDDING_DIMENSION GeneratorFixtures.default_settings)%Z
    as Hdim by (cbn; lia).
  split; [done|]. split; [done|].
  apply (retrieve_context_unknown_scope GeneratorFixtures.default_settings
           (λ _, Ok [1%Qc]) Ok two_hits "best customers" "orders" empty_collection
           Hdim Hscope).
Defined.
End agent_claims.

(** * Further properties of the code *)

(** ** First occurrences *)

Section unique_facts.
Context {A : Type} `{EqDecision A}.
Implicit Types (l seen : list A).

Lemma elem_of_unique_from seen l x :
  x ∈ unique_from seen l ↔ x ∈ l ∧ x ∉ seen.
Proof.
  revert seen. induction l as [|y l IH]; intros seen; cbn.
  - split; [by intros ?%elem_of_nil|by intros [?%elem_of_nil _]].
  - destruct (decide (y ∈ seen)) as [Hy|Hy].
    + rewrite IH, elem_of_cons. split; [intros [??]; auto|].
      intros [[->|?] ?]; done.
    + rewrite !elem_of_cons, IH, not_elem_of_cons. split.
      * intros [->|(? & ? & ?)]; auto.
      * intros [[->|?] ?]; [by left|]. destruct (decide (x = y)); auto.
Qed.

Lemma NoDup_unique_from seen l : NoDup (unique_from seen l).
Proof.
  revert seen. induction l as [|y l IH]; intros seen; cbn; [constructor|].
  destruct (decide (y ∈ seen)); [done|]. constructor; [|done].
  rewrite elem_of_unique_from, not_elem_of_cons. intros (_ & ? & _). done.
Qed.

Lemma unique_from_sublist seen l : unique_from seen l `sublist_of` l.
Proof.
  revert seen. induction l as [|y l IH]; intros seen; cbn; [done|].
  destruct (decide (y ∈ seen)); [by apply sublist_cons|by apply sublist_skip].
Qed.

Lemma unique_from_NoDup seen l :
  NoDup l → (∀ x, x ∈ l → x ∉ seen) → unique_from seen l = l.
Proof.
  revert seen. induction l as [|y l IH]; intros seen Hnd Hdisj; cbn; [done|].
  apply NoDup_cons in Hnd as [Hy Hnd].
  rewrite decide_False by (apply Hdisj; left). f_equal. apply IH; [done|].
  intros x Hx. rewrite not_elem_of_cons. split; [by intros ->|].
  apply Hdisj. by right.
Qed.

(** Of two elements kept, the one kept first occurs in the list before
    every occurrence of the other. *)
Lemma unique_from_order seen l i j x y :
  unique_from seen l !! i = Some x → unique_from seen l !! j = Some y → i < j →
  ∃ i', l !! i' = Some x ∧ ∀ j', l !! j' = Some y → i' < j'.
Proof.
  revert seen i j. induction l as [|a l IH]; intros seen i j; cbn; [done|].
  destruct (decide (a ∈ seen)) as [Ha|Ha].
  - intros Hx Hy Hij. destruct (IH seen i j Hx Hy Hij) as (i' & Hi' & Hlater).
    exists (S i'). split; [done|]. intros [|j'] Hj'.
    + cbn in Hj'. injection Hj' as ->.
      apply list_elem_of_lookup_2, elem_of_unique_from in Hy as [_ Hy]. done.
    + apply Hlater in Hj'. lia.
  - destruct i as [|i], j as [|j]; try lia.
    + intros [= <-] Hy _. exists 0. split; [done|]. intros [|j'] Hj'; [|lia].
      cbn in Hj'. injection Hj' as ->. cbn in Hy.
      apply list_elem_of_lookup_2, elem_of_unique_from in Hy as [_ Hy].
      destruct Hy. left.
    + cbn. intros Hx Hy Hij.
      destruct (IH (a :: seen) i j Hx Hy) as (i' & Hi' & Hlater); [lia|].
      exists (S i'). split; [done|]. intros [|j'] Hj'.
      * cbn in Hj'. injection Hj' as ->.
        apply list_elem_of_lookup_2, elem_of_unique_from in Hy as [_ Hy].
        destruct Hy. left.
      * apply Hlater in Hj'. lia.
Qed.

Lemma elem_of_unique l x : x ∈ unique l ↔ x ∈ l.
Proof.
  unfold unique. rewrite elem_of_unique_from. split; [by intros [??]|].
  intros ?. split; [done|]. apply not_elem_of_nil.
Qed.

Lemma NoDup_unique l : NoDup (unique l).
Proof. apply NoDup_unique_from. Qed.

Lemma unique_sublist l : unique l `sublist_of` l.
Proof. apply unique_from_sublist. Qed.

Lemma unique_NoDup l : NoDup l → unique l = l.
Proof. intros Hnd. apply unique_from_NoDup; [done|]. intros. apply not_elem_of_nil. Qed.
End unique_facts.

(** ** Cleaning (src/data/processor.py) *)

Section cleaning.
Import Processor Fixtures.

Lemma fill_missing_idemp r : fill_missing (fill_missing r) = fill_missing r.
Proof. by destruct r. Qed.

Lemma elem_of_clean_data (df : DataFrame) r :
  r ∈ clean_data df ↔ ∃ r0, r0 ∈ df ∧ r = fill_missing r0.
Proof.
  unfold clean_data, drop_duplicates. rewrite elem_of_unique, list_elem_of_fmap.
  split; intros (r0 & ? & ?); by exists r0.
Qed.

Lemma NoDup_clean_data (df : DataFrame) : NoDup (clean_data df).
Proof. apply NoDup_unique. Qed.

(** X1. [clean_data] returns the rows of the frame with STATE and
    POSTALCODE filled in, each different row once and in the order of
    first occurrence: the result has no duplicate, it is a sublist of
    the filled rows, it holds exactly the filled rows of the input, of
    two rows of the result the earlier one occurs among the filled rows
    before every occurrence of the later one, and no row is left
    without a state or a postal code. *)
Theorem clean_data_rows (df : DataFrame) :
  NoDup (clean_data df)
  ∧ clean_data df `sublist_of` (fill_missing <$> df)
  ∧ (∀ r, r ∈ clean_data df ↔ ∃ r0, r0 ∈ df ∧ r = fill_missing r0)
  ∧ (∀ i j r1 r2,
       clean_data df !! i = Some r1 → clean_data df !! j = Some r2 → i < j →
       ∃ i', (fill_missing <$> df) !! i' = Some r1
             ∧ ∀ j', (fill_missing <$> df) !! j' = Some r2 → i' < j')
  ∧ (∀ r, r ∈ clean_data df → is_Some (STATE r) ∧ is_Some (POSTALCODE r))
  ∧ length (clean_data df) ≤ length df.
Proof.
  split; [apply NoDup_clean_data|]. split; [apply unique_sublist|].
  split; [apply elem_of_clean_data|]. split; [|split].
  - intros i j r1 r2. apply unique_from_order.
  - intros r (r0 & _ & ->)%elem_of_clean_data. cbn. unfold fillna. by split; eexists.
  - rewrite <-(length_fmap fill_missing df). apply sublist_length, unique_sublist.
Qed.

(** A row that comes back after another keeps its first place: the
    second copy is the one dropped. *)
Lemma clean_data_keeps_the_first_copy :
  ∃ a b, a ≠ b
         ∧ fill_missing <$> repeated_order = [a; b; a]
         ∧ clean_data repeated_order = [a; b].
Proof. eexists _, _. split; [|split; reflexivity]. by vm_compute. Qed.

(** X2. Cleaning a cleaned frame changes nothing. *)
Theorem clean_data_idempotent (df : DataFrame) :
  clean_data (clean_data df) = clean_data df.
Proof.
  assert (fill_missing <$> clean_data df = clean_data df) as Hfix.
  { rewrite <-(list_fmap_id (clean_data df)) at 2. apply list_fmap_ext.
    intros i r Hr%list_elem_of_lookup_2. apply elem_of_clean_data in Hr as (r0 & _ & ->).
    apply fill_missing_idemp. }
  unfold clean_data at 1. rewrite Hfix. unfold drop_duplicates.
  apply unique_NoDup, NoDup_clean_data.
Qed.
End cleaning.

(** ** Customer profiles (src/data/processor.py) *)

Section customer_extras.
Import Processor Fixtures.

Lemma mapM_Raise_inv {A B} (f : A → result B) l e :
  mapM f l = Raise e → ∃ x, x ∈ l ∧ f x = Raise e.
Proof.
  induction l as [|x l IH]; cbn; [done|].
  destruct (f x) as [y|e'] eqn:Hfx; cbn.
  - destruct (mapM f l) as [ys|e'] eqn:Hl; cbn; [done|].
    intros [= <-]. destruct IH as (x' & ? & ?); [done|]. exists x'. split; [by right|done].
  - intros [= <-]. exists x. split; [left|done].
Qed.

Lemma most_frequent_Raise xs e :
  most_frequent xs = Raise e →
  e = IndexError "index 0 is out of bounds for axis 0 with size 0"
  ∧ ∀ v, Some v ∉ xs.
Proof.
  intros Hraise. split.
  - unfold most_frequent in Hraise. destruct (value_counts xs) as [|[??]?]; by inversion Hraise.
  - intros v Hv. destruct (most_frequent_present xs v Hv) as [top Htop]. congruence.
Qed.

Lemma create_customer_profiles_Forall2 df profiles :
  create_customer_profiles df = Ok profiles →
  Forall2 (λ k kp, kp.1 = k ∧ customer_profile k (group_rows CUSTOMERNAME df k) = Ok kp.2)
          (group_keys String.le CUSTOMERNAME df) profiles.
Proof.
  unfold create_customer_profiles.
  destruct (mapM _ _) as [customer_data|e] eqn:Hmap; [|done].
  cbn. intros [= <-]. apply mapM_Ok_Forall2 in Hmap.
  unfold groupby in Hmap. apply Forall2_fmap_l in Hmap.
  assert (Forall2 (λ k kp, kp.1 = k
                           ∧ customer_profile k (group_rows CUSTOMERNAME df k) = Ok kp.2)
                  (group_keys String.le CUSTOMERNAME df) customer_data) as Hall.
  { eapply Forall2_impl; [exact Hmap|]. intros k kp. cbn.
    destruct (customer_profile k _); cbn; [|done]. by intros [= <-]. }
  assert (customer_data.*1 = group_keys String.le CUSTOMERNAME df) as Hkeys.
  { clear Hmap. induction Hall as [|k kp ? ? [Hk _] _ IH]; [done|].
    rewrite fmap_cons. by f_equal. }
  rewrite dict_of_items_NoDup by (rewrite Hkeys; apply NoDup_group_keys). done.
Qed.

Lemma create_customer_profiles_keys df profiles :
  create_customer_profiles df = Ok profiles →
  profiles.*1 = group_keys String.le CUSTOMERNAME df.
Proof.
  intros Hall%create_customer_profiles_Forall2.
  induction Hall as [|k kp ? ? [Hk _] _ IH]; [done|]. rewrite fmap_cons. by f_equal.
Qed.

(** X3. [create_customer_profiles] either files one profile under each
    customer name of the frame, the names in ascending order and each
    profile carrying its own name, or raises IndexError; it raises
    exactly when some customer has no row with a product line. *)
Theorem create_customer_profiles_outcome (df : DataFrame) :
  let named name := ∃ r, r ∈ df ∧ CUSTOMERNAME r = Some name in
  let has_line name :=
    ∃ r, r ∈ df ∧ CUSTOMERNAME r = Some name ∧ is_Some (PRODUCTLINE r) in
  match create_customer_profiles df with
  | Ok profiles =>
      (∀ name, named name → has_line name)
      ∧ NoDup profiles.*1
      ∧ StronglySorted String.le profiles.*1
      ∧ (∀ name, name ∈ profiles.*1 ↔ named name)
      ∧ (∀ name p, (name, p) ∈ profiles → CustomerProfile.name p = name)
  | Raise e =>
      e = IndexError "index 0 is out of bounds for axis 0 with size 0"
      ∧ ∃ name, named name ∧ ¬ has_line name
  end.
Proof.
  intros named has_line.
  destruct (create_customer_profiles df) as [profiles|e] eqn:Hrun.
  - pose proof (create_customer_profiles_keys _ _ Hrun) as Hkeys.
    assert (∀ name, name ∈ profiles.*1 ↔ named name) as Hnamed.
    { intros name. rewrite Hkeys. apply elem_of_group_keys. }
    split; [|split; [|split; [|split]]].
    + intros name Hname. apply Hnamed, list_elem_of_fmap in Hname as ([k p] & -> & Hin).
      destruct (create_customer_profiles_groups _ _ Hrun _ _ Hin) as [_ Hp].
      unfold customer_profile in Hp. cbn in Hp.
      destruct (most_frequent _) as [top|e] eqn:Htop; [|done].
      unfold most_frequent in Htop.
      destruct (value_counts _) as [|[v n] rest] eqn:Hcounts; [done|].
      assert (v ∈ dropna (PRODUCTLINE <$> group_rows CUSTOMERNAME df k)) as Hv.
      { apply elem_of_unique.
        assert ((v, n) ∈ value_counts (PRODUCTLINE <$> group_rows CUSTOMERNAME df k))
          as Hvn by (rewrite Hcounts; left).
        unfold value_counts in Hvn. rewrite (sort_desc_Permutation Nat.le snd) in Hvn.
        apply list_elem_of_fmap in Hvn as (v' & [= -> _] & Hv'). done. }
      apply list_elem_of_omap in Hv as (cell & Hcell & Hsome). cbn in Hsome. subst cell.
      apply list_elem_of_fmap in Hcell as (r & Hline & [Hname Hr]%list_elem_of_filter).
      exists r. split; [done|]. split; [done|]. by rewrite <-Hline.
    + rewrite Hkeys. apply NoDup_group_keys.
    + rewrite Hkeys. unfold group_keys. apply StronglySorted_merge_sort; apply _.
    + done.
    + intros name p Hin. destruct (create_customer_profiles_groups _ _ Hrun _ _ Hin) as [_ Hp].
      unfold customer_profile in Hp. destruct (most_frequent _); [|done].
      cbn in Hp. by injection Hp as <-.
  - unfold create_customer_profiles in Hrun.
    destruct (mapM _ _) as [customer_data|e'] eqn:Hmap; [done|].
    cbn in Hrun. injection Hrun as ->.
    apply mapM_Raise_inv in Hmap as ([k g] & Hkg & Hfail).
    apply elem_of_groupby in Hkg as [-> Hk]. cbn in Hfail.
    unfold customer_profile in Hfail.
    destruct (most_frequent _) as [top|e'] eqn:Htop; [done|].
    cbn in Hfail. injection Hfail as ->.
    apply most_frequent_Raise in Htop as [-> Hnone]. split; [done|].
    exists k. split; [by apply elem_of_group_keys in Hk|].
    intros (r & Hr & Hname & [line Hline]). apply (Hnone line).
    apply list_elem_of_fmap. exists r. split; [done|]. by apply list_elem_of_filter.
Qed.

Lemma group_rows_named {K} `{EqDecision K} (key : Row → option K) (df : DataFrame) k :
  group_rows key (filter (λ r, is_Some (key r)) df) k = group_rows key df k.
Proof.
  unfold group_rows. rewrite list_filter_filter. apply list_filter_iff.
  intros r. split; [by intros [? _]|]. intros Hk. split; [done|]. by rewrite Hk.
Qed.

(** X4. The total sales of the customer profiles add up to the sales
    of the rows that have a customer name: no such sale is lost or
    counted twice by the grouping. *)
Theorem customer_total_sales_add_up (df : DataFrame) profiles :
  create_customer_profiles df = Ok profiles →
  fsum ((λ kv, CustomerProfile.total_sales kv.2) <$> profiles)
  = col_sum (SALES <$> filter (λ r, is_Some (CUSTOMERNAME r)) df).
Proof.
  intros Hall%create_customer_profiles_Forall2.
  rewrite <-(group_sum_partition CUSTOMERNAME SALES
               (group_keys String.le CUSTOMERNAME df)).
  - induction Hall as [|k kp ks kps [_ Hp] _ IH]; [done|].
    rewrite !fmap_cons, !fsum_cons, IH. f_equal.
    unfold customer_profile in Hp. destruct (most_frequent _); [|done].
    cbn in Hp. injection Hp as <-. cbn. by rewrite group_rows_named.
  - apply NoDup_group_keys.
  - intros r [[k Hk] Hr]%list_elem_of_filter. exists k. split; [done|].
    apply elem_of_group_keys. eauto.
Qed.

(** Witness of X4: the two customers of the scenario of the
    specification, 300 and 500. *)
Lemma customer_total_sales_add_up_witness :
  ∃ profiles,
    create_customer_profiles two_customers = Ok profiles
    ∧ fsum ((λ kv, CustomerProfile.total_sales kv.2) <$> profiles) = Qc_of_Z 800.
Proof.
  destruct (create_customer_profiles two_customers) as [profiles|e] eqn:Hrun;
    [|by vm_compute in Hrun].
  exists profiles. split; [done|].
  rewrite (customer_total_sales_add_up two_customers profiles Hrun).
  by apply Qc_is_canon.
Defined.
End customer_extras.

(** ** Rankings and insights (src/data/processor.py) *)

Section ranking_extras.
Import Processor Fixtures.

Lemma slice_to_take {A} (n : Z) (l : list A) : ∃ m, slice_to n l = take m l.
Proof. unfold slice_to. destruct (decide (0 ≤ n)%Z); by eexists. Qed.

Lemma length_slice_to {A} (n : Z) (l : list A) :
  length (slice_to n l)
  = if decide (0 ≤ n)%Z then Z.to_nat n `min` length l
    else length l - Z.to_nat (- n).
Proof.
  unfold slice_to. destruct (decide (0 ≤ n)%Z); rewrite length_take; [done|lia].
Qed.

Lemma length_sort_desc {A} (key : A → Qc) (l : list A) :
  length (sort_desc Qcle key l) = length l.
Proof. apply Permutation_length, sort_desc_Permutation. Qed.

(** The first entries of a descending sort are the largest ones. *)
Lemma top_of_sort_desc {A} (key : A → Qc) (l : list A) (n : Z) :
  let top := slice_to n (sort_desc Qcle key l) in
  StronglySorted (desc Qcle key) top
  ∧ ∃ rest, top ++ rest ≡ₚ l
            ∧ top ++ rest = sort_desc Qcle key l
            ∧ ∀ a b, a ∈ top → b ∈ rest → (key b ≤ key a)%Qc.
Proof.
  cbv zeta. destruct (slice_to_take n (sort_desc Qcle key l)) as [m ->].
  pose proof (sort_desc_sorted Qcle key l) as Hsorted.
  rewrite <-(take_drop m (sort_desc Qcle key l)) in Hsorted.
  split; [by apply StronglySorted_app_1_l in Hsorted|].
  exists (drop m (sort_desc Qcle key l)).
  split; [by rewrite take_drop, sort_desc_Permutation|].
  split; [by rewrite take_drop|].
  intros a b Ha Hb. by apply (StronglySorted_app_1_elem_of _ _ _ a b) in Hsorted.
Qed.

(** X5. [get_top_customers] and [get_top_products] return the head of
    the list sorted by descending total sales, resp. performance score:
    the result is sorted, it and the entries left out make up the whole
    collection, no entry left out ranks above a returned one, and for
    [n >= 0] it has [min(n, size)] entries, for a negative [n] all but
    the last [-n]. *)
Theorem get_top_entries_are_the_largest
    (customer_profiles : list (string * CustomerProfile.t))
    (product_catalog : list (string * Product.t)) (n : Z) :
  (let top := get_top_customers customer_profiles n in
   StronglySorted (desc Qcle CustomerProfile.total_sales) top
   ∧ (∃ rest, top ++ rest ≡ₚ customer_profiles.*2
              ∧ ∀ a b, a ∈ top → b ∈ rest →
                  (CustomerProfile.total_sales b ≤ CustomerProfile.total_sales a)%Qc)
   ∧ length top = if decide (0 ≤ n)%Z then Z.to_nat n `min` length customer_profiles
                  else length customer_profiles - Z.to_nat (- n))
  ∧ (let top := get_top_products product_catalog n in
     StronglySorted (desc Qcle Product.performance_score) top
     ∧ (∃ rest, top ++ rest ≡ₚ product_catalog.*2
                ∧ ∀ a b, a ∈ top → b ∈ rest →
                    (Product.performance_score b ≤ Product.performance_score a)%Qc)
     ∧ length top = if decide (0 ≤ n)%Z then Z.to_nat n `min` length product_catalog
                    else length product_catalog - Z.to_nat (- n)).
Proof.
  split; cbv zeta.
  - destruct (top_of_sort_desc CustomerProfile.total_sales customer_profiles.*2 n)
      as (Hsorted & rest & Hperm & _ & Htop).
    split; [done|]. split; [by exists rest|].
    unfold get_top_customers.
    by rewrite length_slice_to, length_sort_desc, length_fmap.
  - destruct (top_of_sort_desc Product.performance_score product_catalog.*2 n)
      as (Hsorted & rest & Hperm & _ & Htop).
    split; [done|]. split; [by exists rest|].
    unfold get_top_products.
    by rewrite length_slice_to, length_sort_desc, length_fmap.
Qed.

Lemma max_by_spec {A} (key : A → Qc) (items : list A) :
  match max_by key items with
  | None => items = []
  | Some m =>
      ∃ before after,
        items = before ++ m :: after
        ∧ (∀ x, x ∈ before → (key x < key m)%Qc)
        ∧ (∀ x, x ∈ after → (key x ≤ key m)%Qc)
  end.
Proof.
  destruct items as [|x rest]; [done|]. cbn.
  induction rest as [|y rest IH] using rev_ind; cbn.
  - exists [], []. split; [done|]. split; intros ? Hx; by apply elem_of_nil in Hx.
  - rewrite foldl_app. cbn.
    destruct IH as (before & after & Heq & Hbefore & Hafter).
    set (m := foldl _ x rest) in *.
    destruct (decide (key m < key y)%Qc) as [Hlt|Hge].
    + exists (x :: rest), []. split; [done|]. split; [|intros ? Hx; by apply elem_of_nil in Hx].
      intros z Hz. rewrite Heq in Hz.
      apply elem_of_app in Hz as [Hz|[->|Hz]%elem_of_cons].
      * eapply Qclt_trans; [by apply Hbefore|done].
      * done.
      * eapply Qcle_lt_trans; [by apply Hafter|done].
    + exists before, (after ++ [y]). split; [|split; [done|]].
      * rewrite app_comm_cons, Heq, <-app_assoc. done.
      * intros z [Hz|Hz]%elem_of_app; [by apply Hafter|].
        apply list_elem_of_singleton in Hz as ->. by apply Qcnot_lt_le.
Qed.

(** X6. [get_territory_insights] has nothing to return (Python's max
    raises ValueError) exactly when no territory has been analysed.
    Otherwise it reports the number of territories and, as top
    territory, an analysed territory whose total sales no other
    exceeds, the first such one in the order of the analysis. *)
Theorem get_territory_insights_top (territory_analysis : list (string * Territory.t)) :
  match get_territory_insights territory_analysis with
  | None => territory_analysis = []
  | Some insights =>
      total_territories insights = length territory_analysis
      ∧ territory_breakdown insights = territory_analysis
      ∧ ∃ before after,
          territory_analysis = before ++ top_territory insights :: after
          ∧ (∀ kv, kv ∈ before →
               (Territory.total_sales kv.2
                < Territory.total_sales (top_territory insights).2)%Qc)
          ∧ (∀ kv, kv ∈ after →
               (Territory.total_sales kv.2
                ≤ Territory.total_sales (top_territory insights).2)%Qc)
  end.
Proof.
  unfold get_territory_insights.
  pose proof (max_by_spec (λ kv : string * Territory.t, Territory.total_sales kv.2)
                territory_analysis) as Hmax.
  destruct (max_by _ territory_analysis) as [top|]; cbn; [|done].
  split; [done|]. split; [done|]. done.
Qed.
End ranking_extras.

(** ** Frequencies, territories and the product catalog *)

Section frequency_extras.
Import Processor Fixtures.

Lemma sum_counts {K} `{EqDecision K} (ks l : list K) :
  NoDup ks → (∀ x, x ∈ l → x ∈ ks) →
  sum_list ((λ k, length (filter (λ w, w = k) l)) <$> ks) = length l.
Proof.
  intros Hnd. revert l. induction Hnd as [|k ks Hk Hnd IH]; intros l Hcov.
  - destruct l as [|x l]; [done|]. by destruct (not_elem_of_nil x); apply Hcov; left.
  - rewrite fmap_cons. cbn [sum_list sum_list_with].
    rewrite <-(Permutation_length (filter_app_complement (λ w, w = k) l)), length_app.
    f_equal. rewrite <-(IH (filter (λ w, ¬ w = k) l)).
    + f_equal. apply list_fmap_ext. intros _ k' Hk'%list_elem_of_lookup_2.
      rewrite list_filter_filter. f_equal. apply list_filter_iff.
      intros w. split; [|by intros [-> _]]. intros ->. split; [done|]. by intros ->.
    + intros x [Hne Hx]%list_elem_of_filter.
      apply Hcov, elem_of_cons in Hx as [->|Hx]; done.
Qed.

Lemma value_counts_spec (xs : list (option string)) :
  (value_counts xs).*1 ≡ₚ unique (dropna xs)
  ∧ sum_list (value_counts xs).*2 = col_count xs
  ∧ StronglySorted (desc Nat.le snd) (value_counts xs)
  ∧ ∀ v n, (v, n) ∈ value_counts xs →
      n = length (filter (λ w, w = v) (dropna xs)) ∧ 0 < n.
Proof.
  unfold value_counts. cbv zeta. set (vals := dropna xs).
  set (counted := (λ v, (v, length (filter (λ w, w = v) vals))) <$> unique vals).
  pose proof (sort_desc_Permutation Nat.le snd counted) as Hperm.
  split; [|split; [|split]].
  - rewrite Hperm. unfold counted. rewrite <-list_fmap_compose.
    by rewrite (list_fmap_ext _ id) by done; rewrite list_fmap_id.
  - rewrite Hperm. unfold counted, col_count. rewrite <-list_fmap_compose. fold vals.
    apply (sum_counts (unique vals) vals); [apply NoDup_unique|].
    intros x. by rewrite elem_of_unique.
  - apply (sort_desc_sorted Nat.le snd).
  - intros v n. rewrite Hperm. unfold counted.
    intros (v' & [= -> ->] & Hv)%list_elem_of_fmap. split; [done|].
    rewrite elem_of_unique in Hv.
    assert (v' ∈ filter (λ w, w = v') vals) as Hin by (by apply list_elem_of_filter).
    destruct (filter _ vals); [by apply elem_of_nil in Hin|cbn; lia].
Qed.

Lemma col_count_le {A} (xs : list (option A)) : col_count xs ≤ length xs.
Proof.
  unfold col_count, dropna. induction xs as [|[x|] xs IH]; cbn; lia.
Qed.

Lemma count_present_value {A} (f : A → option string) (l : list A) v :
  length (filter (λ w, w = v) (dropna (f <$> l)))
  = length (filter (λ r, f r = Some v) l).
Proof.
  unfold dropna. induction l as [|r l IH]; [done|].
  rewrite fmap_cons, (filter_cons _ r). cbn [omap list_omap].
  destruct (f r) as [v'|]; cbn [id].
  - rewrite filter_cons. destruct (decide (v' = v)) as [->|Hne].
    + rewrite decide_True by done. cbn [length]. by f_equal.
    + rewrite decide_False by congruence. done.
  - rewrite decide_False by done. done.
Qed.

(** X7. For every analysed territory, the deal-size distribution has
    one entry per deal size of its rows and no other: no size is listed
    twice, every size of a row is listed, each entry holds the positive
    number of the territory's rows of that size, the entries come in
    non-increasing order of that number, and the numbers add up to the
    number of rows that have a deal size. At most three top products
    are listed, in non-increasing order of frequency, each with the
    positive number of the territory's rows of that product line; and
    neither the order count nor the number of unique customers exceeds
    the number of rows, which is not zero. *)
Theorem territory_distributions (df : DataFrame) name e :
  (name, e) ∈ analyze_territories df →
  let rows := filter (λ r, TERRITORY r = Some name) df in
  rows ≠ []
  ∧ sum_list (Territory.deal_distribution e).*2 = col_count (DEALSIZE <$> rows)
  ∧ NoDup (Territory.deal_distribution e).*1
  ∧ (∀ size n, (size, n) ∈ Territory.deal_distribution e →
       0 < n ∧ n = length (filter (λ r, DEALSIZE r = Some size) rows))
  ∧ (∀ r size, r ∈ rows → DEALSIZE r = Some size →
       ∃ n, (size, n) ∈ Territory.deal_distribution e)
  ∧ StronglySorted (desc Nat.le snd) (Territory.deal_distribution e)
  ∧ length (Territory.top_products e) ≤ 3
  ∧ StronglySorted (desc Nat.le snd) (Territory.top_products e)
  ∧ (∀ line n, (line, n) ∈ Territory.top_products e →
       0 < n ∧ n = length (filter (λ r, PRODUCTLINE r = Some line) rows))
  ∧ Territory.total_orders e ≤ length rows
  ∧ Territory.unique_customers e ≤ length rows.
Proof.
  rewrite analyze_territories_groups, list_elem_of_fmap.
  intros (k & [= -> ->] & Hk). cbv zeta. unfold group_rows in *. cbn.
  set (rows := filter _ df).
  destruct (value_counts_spec (DEALSIZE <$> rows)) as (Hkeys & Hsum & Hdeals & Hsizes).
  destruct (value_counts_spec (PRODUCTLINE <$> rows)) as (_ & _ & Hsorted & Hcount).
  split; [by apply (group_rows_nonempty String.le TERRITORY)|].
  split; [done|]. split; [rewrite Hkeys; apply NoDup_unique|].
  split.
  { intros size n Hin. destruct (Hsizes _ _ Hin) as [-> Hpos]. split; [done|].
    apply count_present_value. }
  split.
  { intros r size Hr Hsize.
    assert (size ∈ (value_counts (DEALSIZE <$> rows)).*1) as Hin.
    { rewrite Hkeys, elem_of_unique. unfold dropna. apply list_elem_of_omap.
      exists (Some size). split; [|done]. apply list_elem_of_fmap. by exists r. }
    apply list_elem_of_fmap in Hin as ([size' n] & -> & Hin). by exists n. }
  split; [done|].
  split; [rewrite length_take; lia|]. split.
  { rewrite <-(take_drop 3 (value_counts _)) in Hsorted.
    by apply StronglySorted_app_1_l in Hsorted. }
  split.
  { intros line n Hin.
    pose proof (elem_of_sublist _ _ _ Hin (sublist_take _ 3)) as Hin'.
    destruct (Hcount _ _ Hin') as [-> Hpos]. split; [done|].
    apply count_present_value. }
  split.
  - etrans; [apply col_count_le|]. by rewrite length_fmap.
  - unfold nunique. etrans; [apply sublist_length, unique_sublist|].
    etrans; [apply (col_count_le (CUSTOMERNAME <$> rows))|]. by rewrite length_fmap.
Qed.

(** Witness of X7: a territory with two small deals and a large one. *)
Lemma territory_distributions_witness :
  ∃ e, ("EMEA", e) ∈ analyze_territories mixed_deal_sizes
       ∧ Territory.deal_distribution e = [("Small", 2); ("Large", 1)]
       ∧ sum_list (Territory.deal_distribution e).*2 = 3
       ∧ length (Territory.top_products e) ≤ 3.
Proof.
  assert (∃ e, analyze_territories mixed_deal_sizes !! 0 = Some ("EMEA", e)
               ∧ Territory.deal_distribution e = [("Small", 2); ("Large", 1)])
    as (e & He & Hdeals).
  { vm_compute. by eexists. }
  apply list_elem_of_lookup_2 in He. exists e. split; [done|]. split; [done|].
  destruct (territory_distributions mixed_deal_sizes "EMEA" e He)
    as (_ & Hsum & _ & _ & _ & _ & Htop & _).
  split; [|done]. rewrite Hsum. by vm_compute.
Defined.
End frequency_extras.

Section catalog_extras.
Import Processor Fixtures.

Lemma dict_set_keys {V} k (v : V) d :
  (dict_set k v d).*1 = if decide (k ∈ d.*1) then d.*1 else d.*1 ++ [k].
Proof.
  induction d as [|[k' v'] d IH]; cbn; [by rewrite decide_False by apply not_elem_of_nil|].
  destruct (decide (k' = k)) as [->|Hne]; cbn.
  - by rewrite decide_True by left.
  - rewrite IH. destruct (decide (k ∈ d.*1)) as [Hin|Hin].
    + by rewrite decide_True by (by right).
    + rewrite decide_False; [done|]. rewrite not_elem_of_cons. by split; [intros ->|].
Qed.

Lemma dict_of_items_keys {V} (items : list (string * V)) :
  NoDup (dict_of_items items).*1
  ∧ (∀ k, k ∈ (dict_of_items items).*1 ↔ k ∈ items.*1)
  ∧ length (dict_of_items items) ≤ length items.
Proof.
  unfold dict_of_items.
  assert (∀ d : list (string * V),
            NoDup d.*1 →
            let d' := foldl (λ d kv, dict_set kv.1 kv.2 d) d items in
            NoDup d'.*1
            ∧ (∀ k, k ∈ d'.*1 ↔ k ∈ d.*1 ∨ k ∈ items.*1)
            ∧ length d' ≤ length d + length items) as Hgen.
  { induction items as [|[k v] items IH]; intros d Hnd; cbn.
    - split; [done|]. split; [|lia]. intros k. split; [by left|].
      intros [?|?%elem_of_nil]; done.
    - destruct (IH (dict_set k v d)) as (Hnd' & Hkeys & Hlen).
      { rewrite dict_set_keys. destruct (decide (k ∈ d.*1)); [done|].
        apply NoDup_app. split; [done|]. split; [|apply NoDup_singleton].
        intros x Hx ->%list_elem_of_singleton. done. }
      cbn in Hnd', Hkeys, Hlen. split; [done|]. split.
      + intros k0. rewrite Hkeys, dict_set_keys, elem_of_cons.
        destruct (decide (k ∈ d.*1)) as [Hin|Hin].
        * split; [intros [?|?]; auto|]. intros [?|[->|?]]; auto.
        * rewrite elem_of_app, list_elem_of_singleton.
          split; [intros [[?|?]|?]; auto|]. intros [?|[->|?]]; auto.
      + etrans; [exact Hlen|].
        assert (length (dict_set k v d) ≤ S (length d)); [|lia].
        rewrite <-(length_fmap fst (dict_set k v d)), dict_set_keys.
        destruct (decide (k ∈ d.*1)); rewrite ?length_app, length_fmap; cbn; lia. }
  destruct (Hgen [] (NoDup_nil_2)) as (Hnd & Hkeys & Hlen).
  cbn in Hnd, Hkeys, Hlen. split; [done|]. split; [|done].
  intros k. rewrite Hkeys. split; [intros [?%elem_of_nil|?]; done|by right].
Qed.

(** X8. When [analyze_product_catalog] returns, no two catalog entries
    share a key and there are at most as many entries as pairs of
    product line and product code in the frame; every pair of the
    frame has its key in the catalog; and every entry is filed under
    its product line, an underscore and its product code, with the
    sums and the count of the SALES and QUANTITYORDERED cells of the
    rows of that product, of which there is at least one. *)
Theorem product_catalog_entries (df : DataFrame) catalog :
  analyze_product_catalog df = Ok catalog →
  NoDup catalog.*1
  ∧ length catalog ≤ length (group_keys pair_le product_key df)
  ∧ (∀ r line code, r ∈ df → PRODUCTLINE r = Some line → PRODUCTCODE r = Some code →
       line +:+ "_" +:+ code ∈ catalog.*1)
  ∧ ∀ key e, (key, e) ∈ catalog →
      let rows :=
        filter (λ r, product_key r
                     = Some (Product.product_line e, Product.product_code e)) df in
      key = Product.product_line e +:+ "_" +:+ Product.product_code e
      ∧ rows ≠ []
      ∧ Product.total_sales e = col_sum (SALES <$> rows)
      ∧ Product.order_count e = col_count (SALES <$> rows)
      ∧ Product.total_quantity e = col_sum (QUANTITYORDERED <$> rows).
Proof.
  intros Hrun.
  assert (∃ product_analysis,
            catalog = dict_of_items product_analysis
            ∧ Forall2 (λ k ke, product_entry df k (group_rows product_key df k) = Ok ke)
                      (group_keys pair_le product_key df) product_analysis)
    as (product_analysis & -> & Hall).
  { unfold analyze_product_catalog in Hrun.
    destruct (mapM _ _) as [product_analysis|err] eqn:Hmap; [|done].
    cbn in Hrun. injection Hrun as <-. exists product_analysis. split; [done|].
    apply mapM_Ok_Forall2 in Hmap. unfold groupby in Hmap.
    by apply Forall2_fmap_l in Hmap. }
  destruct (dict_of_items_keys product_analysis) as (Hnd & Hkeys & Hlen).
  split; [done|]. split; [by rewrite (Forall2_length _ _ _ Hall)|]. split.
  - intros r line code Hr Hline Hcode. apply Hkeys.
    assert ((line, code) ∈ group_keys pair_le product_key df) as Hk.
    { apply elem_of_group_keys. exists r. split; [done|].
      unfold product_key. by rewrite Hline, Hcode. }
    apply list_elem_of_lookup in Hk as [i Hi].
    destruct (Forall2_lookup_l _ _ _ _ _ Hall Hi) as ([key e] & Hke & Hentry).
    unfold product_entry in Hentry.
    destruct (if decide (0 < length _) then _ else _) as [deal|err]; [|done].
    cbn in Hentry. injection Hentry as <- _.
    apply list_elem_of_fmap. exists (line +:+ "_" +:+ code, e).
    split; [done|]. by apply list_elem_of_lookup_2 in Hke.
  - intros key e Hin. cbv zeta.
    destruct (analyze_product_catalog_entries _ _ _ _ Hrun Hin) as (k & Hk & Hentry).
    unfold product_entry in Hentry.
    destruct (if decide (0 < length _) then _ else _) as [deal|err]; [|done].
    cbn in Hentry. injection Hentry as <- <-. cbn. destruct k as [line code]. cbn.
    split; [done|]. split; [|done].
    by apply (group_rows_nonempty pair_le product_key).
Qed.

(** Witness of X8: the catalog of one product sold twice. *)
Lemma product_catalog_entries_witness :
  ∃ catalog,
    analyze_product_catalog two_orders_one_product = Ok catalog
    ∧ NoDup catalog.*1
    ∧ "Classic Cars_S10_1949" ∈ catalog.*1.
Proof.
  destruct (analyze_product_catalog two_orders_one_product) as [catalog|e] eqn:Hrun;
    [|by vm_compute in Hrun].
  destruct (product_catalog_entries two_orders_one_product catalog Hrun)
    as (Hnd & _ & Hall & _).
  exists catalog. split; [done|]. split; [done|].
  apply (Hall (sale (Some 10100%Z) 30 (Some 100%Z) "Classic Cars" "S10_1949"
                    "Euro Shopping" (Some "EMEA")) "Classic Cars" "S10_1949");
    [left|done|done].
Defined.
End catalog_extras.

(** ** Rate limiting and enrichment (src/embeddings/generator.py) *)

Section generator_extras.
Import Generator GeneratorFixtures.
Variable settings : Settings.t.
Variable strip : string → string.

Lemma check_rate_limit_ok w :
  (1 ≤ Settings.RATE_LIMIT_REQUESTS settings)%Z →
  ∃ w1, _check_rate_limit settings w = (Ok (), w1)
        ∧ groq_script w1 = groq_script w
        ∧ groq_prompts w1 = groq_prompts w
        ∧ length (slept w1) ≤ S (length (slept w)).
Proof.
  intros Hlimit. unfold _check_rate_limit. cbv zeta.
  destruct (decide (_ ≤ _)%Z) as [Hfull|Hfree].
  - destruct (filter _ (rate_limit_tracker w)) as [|oldest rest] eqn:Hrecent.
    + cbn in Hfull. lia.
    + eexists. split; [done|]. cbn. rewrite length_app. cbn. split; [done|].
      split; [done|lia].
  - eexists. split; [done|]. cbn. split; [done|]. split; [done|lia].
Qed.

(** X9. [_check_rate_limit] keeps the timestamps younger than 60
    seconds and appends the current time. It sleeps at most once, when
    the timestamps kept are at least RATE_LIMIT_REQUESTS many, and then
    for the strictly positive time that remains until the oldest of
    them is 60 seconds old. It raises only IndexError, and only when
    the limit is zero or negative and no timestamp was kept; it never
    calls the Groq service. *)
Theorem check_rate_limit_outcome (w : World) :
  let recent := filter (λ t, now w - t < Qc_of_Z 60)%Qc (rate_limit_tracker w) in
  let result := (_check_rate_limit settings w).1 in
  let w' := (_check_rate_limit settings w).2 in
  groq_script w' = groq_script w
  ∧ groq_prompts w' = groq_prompts w
  ∧ match result with
    | Ok _ =>
        rate_limit_tracker w' = recent ++ [now w]
        ∧ if decide (Settings.RATE_LIMIT_REQUESTS settings ≤ Z.of_nat (length recent))%Z
          then ∃ oldest rest pause,
                 recent = oldest :: rest
                 ∧ pause = (Qc_of_Z 60 - (now w - oldest))%Qc
                 ∧ (0 < pause)%Qc
                 ∧ slept w' = slept w ++ [pause]
                 ∧ now w' = (now w + pause)%Qc
          else slept w' = slept w ∧ now w' = now w
    | Raise e =>
        e = IndexError "list index out of range"
        ∧ (Settings.RATE_LIMIT_REQUESTS settings ≤ 0)%Z
        ∧ recent = []
        ∧ rate_limit_tracker w' = []
        ∧ slept w' = slept w ∧ now w' = now w
    end.
Proof.
  cbv zeta. unfold _check_rate_limit. cbv zeta.
  destruct (decide (_ ≤ _)%Z) as [Hfull|Hfree].
  - destruct (filter _ (rate_limit_tracker w)) as [|oldest rest] eqn:Hrecent; cbn.
    + cbn in Hfull. done.
    + split; [done|]. split; [done|]. split; [done|].
      exists oldest, rest, (Qc_of_Z 60 - (now w - oldest))%Qc.
      split; [done|]. split; [done|]. split; [|done].
      assert (oldest ∈ filter (λ t, now w - t < Qc_of_Z 60)%Qc (rate_limit_tracker w))
        as [Hyoung _]%list_elem_of_filter by (rewrite Hrecent; left).
      exact (proj1 (Qclt_minus_iff _ _) Hyoung).
  - cbn. split; [done|]. split; [done|]. done.
Qed.

(** X10. With a limit of at least one request, [enhance_text_with_groq]
    never raises and asks Groq exactly once: it returns the stripped
    content when that completion succeeds and the unchanged text when
    it fails, and the retry decorator adds no attempt and no wait. *)
Theorem enhance_text_with_groq_outcome (text context : string) (w : World) :
  (1 ≤ Settings.RATE_LIMIT_REQUESTS settings)%Z →
  ∃ w', enhance_text_with_groq settings strip text context w
        = (Ok match groq_script w with
              | Ok content :: _ => strip content
              | _ => text
              end, w')
        ∧ groq_prompts w' = groq_prompts w ++ [enhance_prompt text context]
        ∧ groq_script w' = tail (groq_script w)
        ∧ length (slept w') ≤ S (length (slept w)).
Proof.
  intros Hlimit.
  destruct (check_rate_limit_ok w Hlimit) as (w1 & Hcheck & Hscript & Hprompts & Hslept).
  unfold enhance_text_with_groq, retry. cbn [Nat.sub retry_from].
  unfold enhance_text_with_groq_once. rewrite Hcheck. unfold groq_complete.
  rewrite Hscript, Hprompts.
  destruct (groq_script w) as [|[content|e] rest]; cbn; eexists; done.
Qed.
End generator_extras.

Section generator_extras_witness.
Import Generator GeneratorFixtures.

(** Witness of X10: the default limit of 30 requests. *)
Lemma enhance_text_with_groq_outcome_witness :
  (1 ≤ Settings.RATE_LIMIT_REQUESTS default_settings)%Z
  ∧ ∃ w', enhance_text_with_groq default_settings id "Customer: Euro Shopping" "EMEA"
            flaky_once = (Ok "Customer: Euro Shopping", w').
Proof.
  assert (1 ≤ Settings.RATE_LIMIT_REQUESTS default_settings)%Z as Hlimit by (cbn; lia).
  split; [done|].
  destruct (enhance_text_with_groq_outcome default_settings id
              "Customer: Euro Shopping" "EMEA" flaky_once Hlimit) as (w' & Hrun & _).
  by exists w'.
Defined.
End generator_extras_witness.

(** ** The vector store, further (src/embeddings/storage.py) *)

Section storage_extras.
Import Storage StorageFixtures.

(** X11. [store_embeddings] reports failure exactly when there is
    something to store and the upsert fails, because the server does
    not answer or because it refuses the batch; in that case no point
    is written, though an identifier was drawn for every record. It
    never touches the record of searches. *)
Theorem store_embeddings_failure
    (uuid4 : nat → N)
    (accept : gmap N PointStruct → list (N * PointStruct) → result unit)
    (embeddings : list (string * EmbeddingData)) (s : Qdrant) :
  let batch := build_points uuid4 embeddings (drawn s) in
  let out := store_embeddings uuid4 accept embeddings s in
  (out.1 = false
   ↔ embeddings ≠ []
     ∧ (available s = false ∨ ∃ e, accept (points s) batch = Raise e))
  ∧ (out.1 = false →
     points out.2 = points s ∧ drawn out.2 = drawn s + length embeddings)
  ∧ searches out.2 = searches s
  ∧ available out.2 = available s.
Proof.
  cbv zeta. destruct embeddings as [|[key data] rest].
  - cbn. split; [|done]. split; [done|]. by intros [? _].
  - unfold store_embeddings, client_upsert. cbn.
    destruct (available s) eqn:Hup; cbn.
    + destruct (accept _ _) as [[]|e] eqn:Hcheck; cbn.
      * split; [|done]. split; [done|]. by intros [_ [?|[? ?]]].
      * split; [|done]. split; [|done]. intros _. split; [done|]. right. by exists e.
    + split; [|done]. split; [|done]. intros _. split; [done|]. by left.
Qed.

(** A batch that the server answers but refuses: a vector of three
    components sent to a collection of vectors of two. *)
Lemma refused_batch_reports_failure :
  store_embeddings N.of_nat accept_pairs [("Mini Gifts", long_vector)] empty_collection
  = (false, mkQdrant ∅ true 1 []).
Proof. reflexivity. Qed.

Lemma elem_of_answer nearest s req h :
  h ∈ answer nearest s req →
  ∃ hits, nearest (points s) req = Ok hits ∧ h ∈ hits ∧ answer nearest s req = hits.
Proof.
  unfold answer. destruct (available s); [|by intros ?%elem_of_nil].
  destruct (nearest (points s) req) as [hits|e]; [|by intros ?%elem_of_nil].
  intros Hh. by exists hits.
Qed.

Lemma length_answer nearest s req :
  honours_requests nearest → length (answer nearest s req) ≤ limit req.
Proof.
  intros Hserver. unfold answer. destruct (available s); [|cbn; lia].
  destruct (nearest (points s) req) as [hits|e] eqn:Hhits; [|cbn; lia].
  by destruct (Hserver _ _ _ Hhits).
Qed.

Lemma elem_of_post_filter field minimum results h :
  h ∈ post_filter field minimum results →
  h ∈ results
  ∧ ∀ m, minimum = Some m →
      ∃ x, payload_get_num field (payload h) = Some x ∧ (m ≤ x)%Qc.
Proof.
  destruct minimum as [m|]; cbn; [|by intros ?].
  intros [Hge Hin]%list_elem_of_filter. split; [done|]. intros ? [= <-].
  unfold float_ge in Hge. destruct (payload_get_num _ _) as [x|]; [|done].
  exists x. split; [done|]. by apply bool_decide_unpack in Hge.
Qed.

Lemma elem_of_condition field x v :
  x = Some v → v ≠ "" → (field, v) ∈ condition field x.
Proof.
  intros -> Hv. unfold condition, truthy. rewrite bool_decide_true by done. left.
Qed.

(** X12. Against a server that returns only hits meeting the filter of
    a request, and at most [limit] of them, each category search
    returns at most [limit] hits, all of its own type. A customer hit
    has the territory and the status asked for (an empty string asks
    for nothing) and sales of at least [min_sales]; likewise a product
    hit for product line, deal size and [min_performance]; a territory
    hit has a market share that is a number of at least
    [min_market_share]. *)
Theorem category_search_results
    (nearest : gmap N PointStruct → SearchRequest → result (list Hit))
    (query_embedding : vector) (limit : nat) (s : Qdrant) :
  honours_requests nearest →
  (∀ territory min_sales customer_status,
     let hits := (search_customers nearest query_embedding territory min_sales
                                   customer_status limit s).1 in
     length hits ≤ limit
     ∧ ∀ h, h ∈ hits →
         ∃ t sales status,
           payload_metadata (payload h) = CustomerMeta t sales status
           ∧ (∀ v, territory = Some v → v ≠ "" → t = Some v)
           ∧ (∀ v, customer_status = Some v → v ≠ "" → status = v)
           ∧ (∀ m, min_sales = Some m → (m ≤ sales)%Qc))
  ∧ (∀ product_line deal_size min_performance,
       let hits := (search_products nearest query_embedding product_line deal_size
                                    min_performance limit s).1 in
       length hits ≤ limit
       ∧ ∀ h, h ∈ hits →
           ∃ line score deal,
             payload_metadata (payload h) = ProductMeta line score deal
             ∧ (∀ v, product_line = Some v → v ≠ "" → line = v)
             ∧ (∀ v, deal_size = Some v → v ≠ "" → deal = v)
             ∧ (∀ m, min_performance = Some m → (m ≤ score)%Qc))
  ∧ (∀ min_market_share,
       let hits := (search_territories nearest query_embedding min_market_share
                                       limit s).1 in
       length hits ≤ limit
       ∧ ∀ h, h ∈ hits →
           ∃ share sales customers,
             payload_metadata (payload h) = TerritoryMeta share sales customers
             ∧ (∀ m, min_market_share = Some m →
                  ∃ x, share = Some x ∧ (m ≤ x)%Qc)).
Proof.
  intros Hserver.
  assert (∀ conds threshold field minimum,
            let req := mkSearchRequest query_embedding (Some conds) limit threshold in
            let hits := post_filter field minimum (answer nearest s req) in
            length hits ≤ limit
            ∧ ∀ h, h ∈ hits →
                (∀ f v, (f, v) ∈ conds → payload_get_str f (payload h) = Some v)
                ∧ ∀ m, minimum = Some m →
                    ∃ x, payload_get_num field (payload h) = Some x ∧ (m ≤ x)%Qc)
    as Hsearch.
  { intros conds threshold field minimum. cbv zeta. split.
    - etrans; [apply sublist_length, post_filter_sublist|].
      apply (length_answer nearest s (mkSearchRequest _ _ limit _) Hserver).
    - intros h [Hin Hmin]%elem_of_post_filter. split; [|done].
      apply elem_of_answer in Hin as (hits & Hhits & Hh & _).
      destruct (Hserver _ _ _ Hhits) as [_ Hmeets]. apply (Hmeets h Hh). }
  unfold search_customers, search_products, search_territories.
  split; [|split].
  - intros territory min_sales customer_status. cbv zeta.
    rewrite search_similar_spec. cbn [fst app].
    destruct (Hsearch (("type", "customer") :: condition "territory" territory
                         ++ condition "customer_status" customer_status)
                      0%Qc "total_sales" min_sales) as [Hlen Hhits].
    split; [done|]. intros h Hh. destruct (Hhits h Hh) as [Hconds Hmin].
    pose proof (Hconds "type" "customer" ltac:(left)) as Htype.
    unfold payload_get_str, payload_get_num in *.
    destruct (payload_metadata (payload h)) as [t sales status| |]; cbn in Htype; [|done..].
    exists t, sales, status. split; [done|]. split; [|split].
    + intros v Hv Hne.
      apply (Hconds "territory" v). right. apply elem_of_app. left.
      by apply elem_of_condition.
    + intros v Hv Hne.
      pose proof (Hconds "customer_status" v) as Hst. cbn in Hst.
      assert (Some status = Some v) as [= ->]; [|done]. apply Hst.
      right. apply elem_of_app. right. by apply elem_of_condition.
    + intros m Hm. destruct (Hmin m Hm) as (x & [= <-] & Hle). done.
  - intros product_line deal_size min_performance. cbv zeta.
    rewrite search_similar_spec. cbn [fst app].
    destruct (Hsearch (("type", "product") :: condition "product_line" product_line
                         ++ condition "typical_deal_size" deal_size)
                      0%Qc "performance_score" min_performance) as [Hlen Hhits].
    split; [done|]. intros h Hh. destruct (Hhits h Hh) as [Hconds Hmin].
    pose proof (Hconds "type" "product" ltac:(left)) as Htype.
    unfold payload_get_str, payload_get_num in *.
    destruct (payload_metadata (payload h)) as [|line score deal|]; cbn in Htype; [done| |done].
    exists line, score, deal. split; [done|]. split; [|split].
    + intros v Hv Hne.
      pose proof (Hconds "product_line" v) as Hline. cbn in Hline.
      assert (Some line = Some v) as [= ->]; [|done]. apply Hline.
      right. apply elem_of_app. left. by apply elem_of_condition.
    + intros v Hv Hne.
      pose proof (Hconds "typical_deal_size" v) as Hdeal. cbn in Hdeal.
      assert (Some deal = Some v) as [= ->]; [|done]. apply Hdeal.
      right. apply elem_of_app. right. by apply elem_of_condition.
    + intros m Hm. destruct (Hmin m Hm) as (x & [= <-] & Hle). done.
  - intros min_market_share. cbv zeta.
    rewrite search_similar_spec. cbn [fst].
    destruct (Hsearch [("type", "territory")] 0%Qc "market_share" min_market_share)
      as [Hlen Hhits].
    split; [done|]. intros h Hh. destruct (Hhits h Hh) as [Hconds Hmin].
    pose proof (Hconds "type" "territory" ltac:(left)) as Htype.
    unfold payload_get_str, payload_get_num in *.
    destruct (payload_metadata (payload h)) as [| |share sales customers];
      cbn in Htype; [done..|].
    exists share, sales, customers. split; [done|].
    intros m Hm. destruct (Hmin m Hm) as (x & Hx & Hle). by exists x.
Qed.

Lemma filtering_server_honours : honours_requests filtering_server.
Proof.
  intros pts req hits [= <-]. split; [rewrite length_take; lia|].
  intros h Hh. pose proof (elem_of_sublist _ _ _ Hh (sublist_take _ _)) as Hin.
  apply list_elem_of_filter in Hin as [Hall _].
  intros field value Hfv. rewrite Forall_forall in Hall. apply (Hall (field, value) Hfv).
Qed.

(** Witness of X12: a server that filters four stored hits. *)
Lemma category_search_results_witness :
  honours_requests filtering_server
  ∧ length (search_customers filtering_server [] (Some "EMEA") (Some (Qc_of_Z 100))
              None 3 empty_collection).1 ≤ 3.
Proof.
  split; [apply filtering_server_honours|].
  destruct (category_search_results filtering_server [] 3 empty_collection
              filtering_server_honours) as (Hcustomers & _).
  apply (Hcustomers (Some "EMEA") (Some (Qc_of_Z 100)) None).
Defined.
End storage_extras.

(** ** The agent's operations *)

Section agent_extras.
Import Storage Generator Agent AgentOps.
Variable settings : Settings.t.
Variable encode : string → result vector.
Variable astype_float32 : vector → result vector.
Variable nearest : gmap N PointStruct → SearchRequest → result (list Hit).
Variable strip : string → string.
Variable exn_str : exn → string.
Variable lower : string → string.
Variable isoformat : Qc → string.
Variable fmt_3f : Qc → string.
Variable fmt_money : Qc → string.
Variable fmt_2f : option Qc → string.
Variable fmt_int : nat → string.
Variable fmt_cell : option string → string.

Lemma query_groq_run prompt system_prompt w :
  ∃ text,
    _query_groq strip exn_str prompt system_prompt w
    = (Ok text,
       mkWorld (now w) (rate_limit_tracker w) (tail (groq_script w))
         (groq_prompts w
          ++ [render_messages
                ((if decide (system_prompt ≠ "") then [("system", system_prompt)] else [])
                 ++ [("user", prompt)])])
         (slept w))
    ∧ match head (groq_script w) with
      | Some (Ok content) => text = strip content
      | Some (Raise e) => text = "Error generating response: " +:+ exn_str e
      | None =>
          text = "Error generating response: "
                 +:+ exn_str (ServiceError "connection error")
      end.
Proof.
  unfold _query_groq, retry, _query_groq_once, groq_complete.
  destruct w as [t tracker [|[content|e] rest] sent naps]; cbn; eauto.
Qed.

(** X13. [_query_groq] never raises, never waits and sends exactly one
    request, whatever Groq does: the answer is the stripped completion,
    or, when the completion fails, the text "Error generating response: "
    followed by the message of the failure. The retry decorator never
    sees a failure. *)
Theorem query_groq_asks_once (prompt system_prompt : string) (w : World) :
  ∃ text w',
    _query_groq strip exn_str prompt system_prompt w = (Ok text, w')
    ∧ slept w' = slept w
    ∧ groq_script w' = tail (groq_script w)
    ∧ length (groq_prompts w') = S (length (groq_prompts w))
    ∧ match head (groq_script w) with
      | Some (Ok content) => text = strip content
      | Some (Raise e) => text = "Error generating response: " +:+ exn_str e
      | None =>
          text = "Error generating response: "
                 +:+ exn_str (ServiceError "connection error")
      end.
Proof.
  destruct (query_groq_run prompt system_prompt w) as (text & -> & Htext).
  eexists _, _. split; [done|]. cbn. rewrite length_app. cbn.
  repeat split; [lia|done].
Qed.

Lemma format_item_head (r : Hit) :
  ∃ rest, format_item fmt_3f fmt_money fmt_2f fmt_int fmt_cell r = String "*"%char rest.
Proof. unfold format_item. destruct (payload_metadata (payload r)); cbn; eauto. Qed.

Lemma concat_head sep c x l :
  ∃ rest, String.concat sep (String c x :: l) = String c rest.
Proof. destruct l; cbn; eauto. Qed.

(** X14. [format_context] gives the text "No relevant context found."
    for the empty list of results and for no other list. *)
Theorem format_context_marker (context_results : list Hit) :
  format_context fmt_3f fmt_money fmt_2f fmt_int fmt_cell context_results
  = "No relevant context found."
  ↔ context_results = [].
Proof.
  split; [|by intros ->].
  destruct context_results as [|r rest]; [done|].
  unfold format_context. rewrite fmap_cons.
  destruct (format_item_head r) as [x ->].
  destruct (concat_head (nl +:+ nl +:+ "---" +:+ nl +:+ nl) "*"%char x
              (format_item fmt_3f fmt_money fmt_2f fmt_int fmt_cell <$> rest))
    as [y ->].
  discriminate.
Qed.
Lemma retrieve_context_run query context_type s :
  (0 ≤ Settings.EMBEDDING_DIMENSION settings)%Z →
  ∃ query_embedding,
    retrieve_context settings encode astype_float32 nearest query context_type s
    = (Ok (sort_desc Qcle score
             (mjoin (answer nearest s <$> scope_requests query_embedding context_type))),
       mkQdrant (points s) (available s) (drawn s)
                (searches s ++ scope_requests query_embedding context_type)).
Proof.
  intros Hdim.
  destruct (generate_text_embedding_total settings encode astype_float32 query Hdim)
    as [query_embedding Hq].
  exists query_embedding. by rewrite (retrieve_context_unfold _ _ _ _ _ _ _ _ Hq).
Qed.

Lemma scope_requests_cases query_embedding context_type :
  scope_requests query_embedding context_type
  = if decide (context_type = "all")
    then [category_request query_embedding "customer" 3;
          category_request query_embedding "product" 3;
          category_request query_embedding "territory" 2]
    else if decide (context_type = "customer")
    then [category_request query_embedding "customer" 3]
    else if decide (context_type = "product")
    then [category_request query_embedding "product" 3]
    else if decide (context_type = "territory")
    then [category_request query_embedding "territory" 2]
    else [].
Proof.
  unfold scope_requests.
  assert (∀ c, context_type ∈ ["all"; c] ↔ context_type = "all" ∨ context_type = c)
    as Hin.
  { intros c. by rewrite elem_of_cons, list_elem_of_singleton. }
  destruct (decide (context_type = "all")) as [->|Hall].
  { rewrite !decide_True by (by left). done. }
  destruct (decide (context_type = "customer")) as [->|Hc].
  { rewrite decide_True by (by right; left).
    rewrite !decide_False by (rewrite Hin; by intros [|]). done. }
  rewrite (decide_False (P := context_type ∈ ["all"; "customer"]))
    by (rewrite Hin; by intros [|]).
  destruct (decide (context_type = "product")) as [->|Hp].
  { rewrite decide_True by (by right; left).
    rewrite !decide_False by (rewrite Hin; by intros [|]). done. }
  rewrite (decide_False (P := context_type ∈ ["all"; "product"]))
    by (rewrite Hin; by intros [|]).
  destruct (decide (context_type = "territory")) as [->|Ht].
  { by rewrite decide_True by (by right; left). }
  by rewrite decide_False by (rewrite Hin; by intros [|]).
Qed.

Lemma answer_category q category cap s h :
  honours_requests nearest →
  h ∈ answer nearest s (category_request q category cap) →
  payload_get_str "type" (payload h) = Some category.
Proof.
  intros Hserver Hh. destruct (elem_of_answer _ _ _ _ Hh) as (hits & Hhits & Hin & _).
  destruct (Hserver _ _ _ Hhits) as [_ Hmeet]. apply (Hmeet h Hin). cbn. by left.
Qed.

(** X15. The configured dimension is assumed not to be
    negative. When the server returns only hits that meet the filter of a
    request and no more than its limit, [retrieve_context] returns at
    most 8 results for the scope all and at most 3 for any other
    scope, and every result is a customer, a product or a territory
    that the scope asks for. *)
Theorem retrieve_context_size (query context_type : string) (s : Qdrant) :
  (0 ≤ Settings.EMBEDDING_DIMENSION settings)%Z →
  honours_requests nearest →
  ∃ results,
    (retrieve_context settings encode astype_float32 nearest query context_type s).1
    = Ok results
    ∧ length results ≤ (if decide (context_type = "all") then 8 else 3)
    ∧ ∀ h, h ∈ results →
        ∃ category, category ∈ ["customer"; "product"; "territory"]
                    ∧ (context_type = "all" ∨ context_type = category)
                    ∧ payload_get_str "type" (payload h) = Some category.
Proof.
  intros Hdim.
  intros Hserver.
  destruct (retrieve_context_run query context_type s Hdim) as [q ->].
  eexists. split; [done|]. rewrite length_sort_desc.
  assert (∀ c cap, length (answer nearest s (category_request q c cap)) ≤ cap) as Hlen.
  { intros c cap. apply (length_answer nearest s (category_request q c cap) Hserver). }
  pose proof (Hlen "customer" 3). pose proof (Hlen "product" 3).
  pose proof (Hlen "territory" 2).
  split.
  - rewrite scope_requests_cases.
    repeat case_decide; cbn; rewrite ?length_app; cbn; lia.
  - intros h Hh. rewrite sort_desc_Permutation in Hh.
    rewrite scope_requests_cases in Hh.
    repeat case_decide; subst; cbn in Hh; rewrite ?app_nil_r in Hh;
      rewrite ?elem_of_app in Hh;
      repeat match goal with
             | H : _ ∨ _ |- _ => destruct H
             | H : _ ∈ [] |- _ => by apply elem_of_nil in H
             | H : h ∈ answer nearest s (category_request q ?c _) |- _ =>
                 exists c; split; [rewrite !elem_of_cons; auto|];
                 split; [auto|by apply (answer_category _ _ _ _ _ Hserver H)]
             end.
Qed.

Lemma head_filter_sorted (P : Hit → bool) (l : list Hit) first rest :
  StronglySorted (desc Qcle score) l →
  filter (λ r, P r) l = first :: rest →
  first ∈ l ∧ P first ∧ ∀ h, h ∈ l → P h → (score h ≤ score first)%Qc.
Proof.
  induction 1 as [|x t Hsorted IH Hx]; [done|].
  rewrite filter_cons. destruct (decide (P x)) as [Hp|Hp].
  - intros [= <- _]. split; [by left|]. split; [done|].
    intros h Hh _. apply elem_of_cons in Hh as [->|Hh]; [done|].
    rewrite Forall_forall in Hx. apply (Hx h Hh).
  - intros Hf. destruct (IH Hf) as (Hin & Hfirst & Hbest).
    split; [by right|]. split; [done|].
    intros h Hh Hph. apply elem_of_cons in Hh as [->|Hh]; [done|]. by apply Hbest.
Qed.

Lemma retrieve_run query context_type s :
  (0 ≤ Settings.EMBEDDING_DIMENSION settings)%Z →
  ∃ context_results s',
    retrieve settings encode astype_float32 nearest query context_type s = (Ok context_results, s')
    ∧ StronglySorted (desc Qcle score) context_results
    ∧ points s' = points s
    ∧ (available s = false → context_results = []).
Proof.
  intros Hdim.
  unfold retrieve. destruct (retrieve_context_run query context_type s Hdim) as [q ->].
  eexists _, _. split; [done|]. split; [exact (sort_desc_sorted Qcle score _)|]. split; [done|].
  intros Hdown.
  assert (mjoin (answer nearest s <$> scope_requests q context_type) = []) as ->; [|done].
  induction (scope_requests q context_type) as [|req reqs IH]; [done|].
  change (mjoin (answer nearest s <$> req :: reqs))
    with (answer nearest s req ++ mjoin (answer nearest s <$> reqs)).
  rewrite IH, app_nil_r. unfold answer. by rewrite Hdown.
Qed.

Lemma analyze_customer_run customer_name w s :
  (0 ≤ Settings.EMBEDDING_DIMENSION settings)%Z →
  ∃ context_results s',
    retrieve settings encode astype_float32 nearest
      ("Análisis completo del cliente " +:+ customer_name) "customer" s = (Ok context_results, s')
    ∧ StronglySorted (desc Qcle score) context_results
    ∧ (available s = false → context_results = [])
    ∧ match filter (λ r, contains (lower customer_name) (lower (payload_key (payload r))))
                   context_results with
      | [] =>
          ∃ suggestions,
            analyze_customer settings encode astype_float32 nearest strip exn_str lower isoformat
      fmt_3f fmt_money fmt_2f fmt_int fmt_cell customer_name w s
            = (Ok (CustomerAnalysis.NotFound
                     ("No se encontró información del cliente " +:+ customer_name)
                     suggestions), w, s')
      | first :: _ =>
          ∃ text w',
            analyze_customer settings encode astype_float32 nearest strip exn_str lower isoformat
      fmt_3f fmt_money fmt_2f fmt_int fmt_cell customer_name w s
            = (Ok (CustomerAnalysis.Found text (payload first) (isoformat (now w'))),
               w', s')
            ∧ length (groq_prompts w') = S (length (groq_prompts w))
            ∧ slept w' = slept w
      end.
Proof.
  intros Hdim.
  destruct (retrieve_run ("Análisis completo del cliente " +:+ customer_name) "customer" s Hdim)
    as (context_results & s' & Hrun & Hsorted & _ & Hdown).
  exists context_results, s'. split; [done|]. split; [done|]. split; [done|].
  unfold analyze_customer. rewrite Hrun. cbv beta iota zeta.
  destruct (filter _ context_results) as [|first rest]; [by eexists|].
  match goal with
  | |- context [_query_groq _ _ ?p ?sp ?w0] =>
      destruct (query_groq_run p sp w0) as (text & Hask & _); rewrite Hask
  end.
  eexists _, _. split; [done|]. cbn. rewrite length_app. cbn. split; [lia|done].
Qed.

(** X16. The configured dimension is assumed not to be
    negative. [analyze_customer] reports that the customer was not found
    exactly when no retrieved customer has a key that contains the name
    (case-insensitively), and then sends nothing to Groq. Otherwise it
    sends one request and returns as customer data the payload of the
    best-scoring retrieved customer whose key contains the name. *)
Theorem analyze_customer_outcome (customer_name : string) (w : World) (s : Qdrant) :
  (0 ≤ Settings.EMBEDDING_DIMENSION settings)%Z →
  ∃ context_results outcome w' s',
    retrieve settings encode astype_float32 nearest
      ("Análisis completo del cliente " +:+ customer_name) "customer" s = (Ok context_results, s')
    ∧ analyze_customer settings encode astype_float32 nearest strip exn_str lower isoformat
      fmt_3f fmt_money fmt_2f fmt_int fmt_cell customer_name w s = (Ok outcome, w', s')
    ∧ match outcome with
      | CustomerAnalysis.NotFound _ _ =>
          w' = w
          ∧ ∀ h, h ∈ context_results →
              contains (lower customer_name) (lower (payload_key (payload h))) = false
      | CustomerAnalysis.Found _ customer_data _ =>
          length (groq_prompts w') = S (length (groq_prompts w))
          ∧ ∃ h, h ∈ context_results
                 ∧ payload h = customer_data
                 ∧ contains (lower customer_name) (lower (payload_key (payload h))) = true
                 ∧ ∀ h', h' ∈ context_results →
                     contains (lower customer_name) (lower (payload_key (payload h'))) = true →
                     (score h' ≤ score h)%Qc
      end.
Proof.
  intros Hdim.
  destruct (analyze_customer_run customer_name w s Hdim)
    as (context_results & s' & Hrun & Hsorted & _ & Hcases).
  destruct (filter _ context_results) as [|first rest] eqn:Hf.
  - destruct Hcases as (suggestions & ->).
    eexists context_results, _, w, s'. split; [done|]. split; [done|].
    split; [done|]. intros h Hh.
    destruct (contains _ _) eqn:Hc; [|done].
    assert (h ∈ filter (λ r, contains (lower customer_name)
                               (lower (payload_key (payload r)))) context_results) as Hin.
    { apply list_elem_of_filter. split; [by rewrite Hc|done]. }
    rewrite Hf in Hin. by apply elem_of_nil in Hin.
  - destruct Hcases as (text & w' & -> & Hsent & _).
    destruct (head_filter_sorted _ _ _ _ Hsorted Hf) as (Hin & Hfirst & Hbest).
    eexists context_results, _, w', s'. split; [done|]. split; [done|].
    split; [done|]. exists first. split; [done|]. split; [done|].
    split; [by apply Is_true_true|].
    intros h' Hh' Hc. apply Hbest; [done|]. by apply Is_true_true.
Qed.
(** X17. The configured dimension is assumed not to be
    negative. The route of the customer analysis always answers with a
    response, never with an HTTP error; the response is unsuccessful
    exactly when no retrieved customer has a key that contains the
    name, and then its message names the customer and nothing was sent
    to Groq. *)
Theorem route_analyze_customer_outcome (customer_name : string) (w : World) (s : Qdrant) :
  (0 ≤ Settings.EMBEDDING_DIMENSION settings)%Z →
  ∃ context_results r w' s',
    retrieve settings encode astype_float32 nearest
      ("Análisis completo del cliente " +:+ customer_name) "customer" s = (Ok context_results, s')
    ∧ Routes.analyze_customer settings encode astype_float32 nearest strip exn_str lower isoformat
      fmt_3f fmt_money fmt_2f fmt_int fmt_cell customer_name w s = (Routes.Response r, w', s')
    ∧ (Routes.success r = false
       ↔ ∀ h, h ∈ context_results →
           contains (lower customer_name) (lower (payload_key (payload h))) = false)
    ∧ (Routes.success r = false →
       Routes.message r = "No se encontró información del cliente " +:+ customer_name
       ∧ w' = w).
Proof.
  intros Hdim.
  destruct (analyze_customer_run customer_name w s Hdim)
    as (context_results & s' & Hrun & Hsorted & _ & Hcases).
  unfold Routes.analyze_customer.
  destruct (filter _ context_results) as [|first rest] eqn:Hf.
  - destruct Hcases as (suggestions & ->).
    eexists context_results, _, w, s'. split; [done|]. split; [done|]. cbn.
    split; [|done]. split; [|done]. intros _ h Hh.
    destruct (contains _ _) eqn:Hc; [|done].
    assert (h ∈ filter (λ r, contains (lower customer_name)
                               (lower (payload_key (payload r)))) context_results) as Hin.
    { apply list_elem_of_filter. split; [by rewrite Hc|done]. }
    rewrite Hf in Hin. by apply elem_of_nil in Hin.
  - destruct Hcases as (text & w' & -> & _).
    destruct (head_filter_sorted _ _ _ _ Hsorted Hf) as (Hin & Hfirst & _).
    eexists context_results, _, w', s'. split; [done|]. split; [done|]. cbn.
    split; [|done]. split; [done|]. intros Hnone.
    rewrite (Hnone first Hin) in Hfirst. done.
Qed.

Lemma contains_unfold needle hay :
  contains needle hay
  = String.prefix needle hay
    || match hay with
       | EmptyString => false
       | String _ rest => contains needle rest
       end.
Proof. by destruct hay. Qed.

Lemma prefix_app needle rest : String.prefix needle (needle +:+ rest) = true.
Proof.
  induction needle as [|c needle IH]; [by destruct rest|].
  change (String c needle +:+ rest) with (String c (needle +:+ rest)).
  cbn [String.prefix]. destruct (Ascii.ascii_dec c c) as [_|Hne]; [exact IH|by destruct Hne].
Qed.

Lemma contains_here needle rest : contains needle (needle +:+ rest) = true.
Proof. by rewrite contains_unfold, prefix_app. Qed.

Lemma contains_app_r needle x y :
  contains needle y = true → contains needle (x +:+ y) = true.
Proof.
  intros Hy. induction x as [|c x IH]; [done|].
  change (String c x +:+ y) with (String c (x +:+ y)).
  rewrite (contains_unfold needle (String c (x +:+ y))). cbv beta iota.
  rewrite IH. apply orb_true_r.
Qed.

Lemma concat_cons sep x (l : list string) :
  l ≠ [] → String.concat sep (x :: l) = x +:+ sep +:+ String.concat sep l.
Proof. by destruct l. Qed.

Lemma contains_render_last needle pre p :
  contains needle p = true →
  contains needle (render_messages (pre ++ [("user", p)])) = true.
Proof.
  intros Hp. unfold render_messages. induction pre as [|m pre IH].
  - cbn [app fmap list_fmap String.concat fst snd].
    by apply (contains_app_r _ "user"), (contains_app_r _ ": ").
  - change ((m :: pre) ++ [("user", p)]) with (m :: (pre ++ [("user", p)])).
    rewrite fmap_cons, concat_cons.
    + by apply contains_app_r, contains_app_r.
    + rewrite fmap_app. intros Hnil. by apply app_eq_nil in Hnil as [_ ?].
Qed.
(** X18. The configured dimension is assumed not to be
    negative. [analyze_territory] sends one request to Groq whether or not a
    retrieved territory matches the name. With no match the territory
    data is empty and the request carries the text "No relevant context
    found."; otherwise the data is the payload of the best-scoring
    retrieved territory whose key contains the name. *)
Theorem analyze_territory_outcome (territory_name : string) (w : World) (s : Qdrant) :
  (0 ≤ Settings.EMBEDDING_DIMENSION settings)%Z →
  ∃ context_results r w' s',
    retrieve settings encode astype_float32 nearest
      ("Análisis del territorio " +:+ territory_name) "territory" s = (Ok context_results, s')
    ∧ analyze_territory settings encode astype_float32 nearest strip exn_str lower isoformat
      fmt_3f fmt_money fmt_2f fmt_int fmt_cell territory_name w s = (Ok r, w', s')
    ∧ length (groq_prompts w') = S (length (groq_prompts w))
    ∧ match TerritoryAnalysis.territory_data r with
      | None =>
          (∀ h, h ∈ context_results →
             contains (lower territory_name) (lower (payload_key (payload h))) = false)
          ∧ ∃ prompt, last (groq_prompts w') = Some prompt
                      ∧ contains "No relevant context found." prompt = true
      | Some territory_data =>
          ∃ h, h ∈ context_results
               ∧ payload h = territory_data
               ∧ contains (lower territory_name) (lower (payload_key (payload h))) = true
               ∧ ∀ h', h' ∈ context_results →
                   contains (lower territory_name) (lower (payload_key (payload h'))) = true →
                   (score h' ≤ score h)%Qc
      end.
Proof.
  intros Hdim.
  destruct (retrieve_run ("Análisis del territorio " +:+ territory_name) "territory" s Hdim)
    as (context_results & s' & Hrun & Hsorted & _ & _).
  unfold analyze_territory. rewrite Hrun. cbv beta iota zeta.
  match goal with
  | |- context [_query_groq _ _ ?p ?sp ?w0] =>
      destruct (query_groq_run p sp w0) as (text & Hask & _); rewrite Hask
  end.
  eexists context_results, _, _, s'. split; [done|]. split; [done|].
  split; [cbn; rewrite length_app; cbn; lia|].
  cbn [TerritoryAnalysis.territory_data groq_prompts].
  destruct (filter _ context_results) as [|first rest] eqn:Hf.
  - cbn [head fmap option_fmap option_map]. split.
    + intros h Hh. destruct (contains _ _) eqn:Hc; [|done].
      assert (h ∈ filter (λ r, contains (lower territory_name)
                                 (lower (payload_key (payload r)))) context_results)
        as Hin.
      { apply list_elem_of_filter. split; [by rewrite Hc|done]. }
      rewrite Hf in Hin. by apply elem_of_nil in Hin.
    + eexists. split; [apply last_snoc|].
      apply contains_render_last. unfold format_context.
      apply contains_app_r, contains_here.
  - cbn [head fmap option_fmap option_map].
    destruct (head_filter_sorted _ _ _ _ Hsorted Hf) as (Hin & Hfirst & Hbest).
    exists first. split; [done|]. split; [done|]. split; [by apply Is_true_true|].
    intros h' Hh' Hc. apply Hbest; [done|]. by apply Is_true_true.
Qed.

(** X19. The configured dimension is assumed not to be
    negative. With the store unreachable, [generate_sales_response] still
    asks Groq: the response reports no context used, and the request
    sent carries the text "No relevant context found." in place of the
    data; [analyze_customer] reports the customer as not found without
    asking Groq. *)
Theorem operations_without_store
    (user_query context_type customer_name : string) (w : World) (s : Qdrant) :
  (0 ≤ Settings.EMBEDDING_DIMENSION settings)%Z →
  available s = false →
  (∃ text w' s' prompt,
     generate_sales_response settings encode astype_float32 nearest strip exn_str isoformat
        fmt_3f fmt_money fmt_2f fmt_int fmt_cell user_query context_type w s
     = (Ok (SalesResponse.mk text 0 [] (isoformat (now w'))), w', s')
     ∧ last (groq_prompts w') = Some prompt
     ∧ contains "No relevant context found." prompt = true)
  ∧ (∃ error suggestions s',
       analyze_customer settings encode astype_float32 nearest strip exn_str lower isoformat
      fmt_3f fmt_money fmt_2f fmt_int fmt_cell customer_name w s
       = (Ok (CustomerAnalysis.NotFound error suggestions), w, s')).
Proof.
  intros Hdim.
  intros Hdown. split.
  - destruct (retrieve_run user_query context_type s Hdim)
      as (context_results & s' & Hrun & _ & _ & Hnone).
    rewrite (Hnone Hdown) in Hrun.
    unfold generate_sales_response. rewrite Hrun. cbv beta iota zeta.
    match goal with
    | |- context [_query_groq _ _ ?p ?sp ?w0] =>
        destruct (query_groq_run p sp w0) as (text & Hask & _); rewrite Hask
    end.
    eexists _, _, _, _. split; [done|]. cbn [groq_prompts].
    split; [apply last_snoc|].
    apply contains_render_last. unfold format_context.
    apply contains_app_r, contains_app_r, contains_app_r, contains_here.
  - destruct (analyze_customer_run customer_name w s Hdim)
      as (context_results & s' & _ & _ & Hnone & Hcases).
    rewrite (Hnone Hdown) in Hcases. cbn in Hcases.
    destruct Hcases as (suggestions & ->). by eexists _, _, _.
Qed.
End agent_extras.

Section agent_extras_witness.
Import Storage Generator Agent AgentOps.

Lemma default_dimension_ok :
  (0 ≤ Settings.EMBEDDING_DIMENSION GeneratorFixtures.default_settings)%Z.
Proof. cbn. lia. Qed.

(** Witness of X15: the filtering server asked for customers. *)
Lemma retrieve_context_size_witness :
  (0 ≤ Settings.EMBEDDING_DIMENSION GeneratorFixtures.default_settings)%Z
  ∧ honours_requests StorageFixtures.filtering_server
  ∧ ∃ results,
      (retrieve_context GeneratorFixtures.default_settings (λ _, Ok [1%Qc]) Ok
         StorageFixtures.filtering_server "best customers" "customer"
         StorageFixtures.empty_collection).1 = Ok results
      ∧ length results ≤ 3.
Proof.
  split; [exact default_dimension_ok|]. split; [exact filtering_server_honours|].
  destruct (retrieve_context_size GeneratorFixtures.default_settings (λ _, Ok [1%Qc]) Ok
              StorageFixtures.filtering_server "best customers" "customer"
              StorageFixtures.empty_collection default_dimension_ok
              filtering_server_honours) as (results & Hrun & Hlen & _).
  exists results. split; [|exact Hlen]. exact Hrun.
Defined.

(** Witness of X16: the customer Euro of a server that returns Euro
    Shopping twice. *)
Lemma analyze_customer_outcome_witness :
  (0 ≤ Settings.EMBEDDING_DIMENSION GeneratorFixtures.default_settings)%Z
  ∧ ∃ outcome w' s',
      analyze_customer GeneratorFixtures.default_settings (λ _, Ok [1%Qc]) Ok
        StorageFixtures.two_hits (λ x, x) (λ _, "timeout") (λ x, x) (λ _, "now")
        (λ _, "0.900") (λ _, "300.00") (λ _, "50.00") (λ _, "2") (default "nan")
        "Euro" GeneratorFixtures.flaky_once StorageFixtures.empty_collection
      = (Ok outcome, w', s').
Proof.
  split; [exact default_dimension_ok|].
  destruct (analyze_customer_outcome GeneratorFixtures.default_settings (λ _, Ok [1%Qc]) Ok
        StorageFixtures.two_hits (λ x, x) (λ _, "timeout") (λ x, x) (λ _, "now")
        (λ _, "0.900") (λ _, "300.00") (λ _, "50.00") (λ _, "2") (default "nan")
              "Euro" GeneratorFixtures.flaky_once StorageFixtures.empty_collection
              default_dimension_ok)
    as (context_results & outcome & w' & s' & _ & Hrun & _).
  by exists outcome, w', s'.
Defined.

(** Witness of X17: the same request through the route. *)
Lemma route_analyze_customer_outcome_witness :
  (0 ≤ Settings.EMBEDDING_DIMENSION GeneratorFixtures.default_settings)%Z
  ∧ ∃ r w' s',
      Routes.analyze_customer GeneratorFixtures.default_settings (λ _, Ok [1%Qc]) Ok
        StorageFixtures.two_hits (λ x, x) (λ _, "timeout") (λ x, x) (λ _, "now")
        (λ _, "0.900") (λ _, "300.00") (λ _, "50.00") (λ _, "2") (default "nan")
        "Euro" GeneratorFixtures.flaky_once StorageFixtures.empty_collection
      = (Routes.Response r, w', s').
Proof.
  split; [exact default_dimension_ok|].
  destruct (route_analyze_customer_outcome GeneratorFixtures.default_settings (λ _, Ok [1%Qc]) Ok
        StorageFixtures.two_hits (λ x, x) (λ _, "timeout") (λ x, x) (λ _, "now")
        (λ _, "0.900") (λ _, "300.00") (λ _, "50.00") (λ _, "2") (default "nan")
              "Euro" GeneratorFixtures.flaky_once StorageFixtures.empty_collection
              default_dimension_ok)
    as (context_results & r & w' & s' & _ & Hrun & _).
  by exists r, w', s'.
Defined.

(** Witness of X18: a territory that no retrieved key names. *)
Lemma analyze_territory_outcome_witness :
  (0 ≤ Settings.EMBEDDING_DIMENSION GeneratorFixtures.default_settings)%Z
  ∧ ∃ r w' s',
      analyze_territory GeneratorFixtures.default_settings (λ _, Ok [1%Qc]) Ok
        StorageFixtures.two_hits (λ x, x) (λ _, "timeout") (λ x, x) (λ _, "now")
        (λ _, "0.900") (λ _, "300.00") (λ _, "50.00") (λ _, "2") (default "nan")
        "Japan" GeneratorFixtures.flaky_once StorageFixtures.empty_collection
      = (Ok r, w', s')
      ∧ length (groq_prompts w') = 1.
Proof.
  split; [exact default_dimension_ok|].
  destruct (analyze_territory_outcome GeneratorFixtures.default_settings (λ _, Ok [1%Qc]) Ok
        StorageFixtures.two_hits (λ x, x) (λ _, "timeout") (λ x, x) (λ _, "now")
        (λ _, "0.900") (λ _, "300.00") (λ _, "50.00") (λ _, "2") (default "nan")
              "Japan" GeneratorFixtures.flaky_once StorageFixtures.empty_collection
              default_dimension_ok)
    as (context_results & r & w' & s' & _ & Hrun & Hsent & _).
  by exists r, w', s'.
Defined.

(** Witness of X19: the unreachable collection and a service that
    fails once. *)
Lemma operations_without_store_witness :
  (0 ≤ Settings.EMBEDDING_DIMENSION GeneratorFixtures.default_settings)%Z
  ∧ available StorageFixtures.unreachable_collection = false
  ∧ ∃ text w' s',
      generate_sales_response GeneratorFixtures.default_settings (λ _, Ok [1%Qc]) Ok
        StorageFixtures.two_hits (λ x, x) (λ _, "timeout") (λ _, "now")
        (λ _, "0.900") (λ _, "300.00") (λ _, "50.00") (λ _, "2") (default "nan")
        "best customers" "all" GeneratorFixtures.flaky_once
        StorageFixtures.unreachable_collection
      = (Ok (SalesResponse.mk text 0 [] "now"), w', s').
Proof.
  split; [exact default_dimension_ok|]. split; [reflexivity|].
  destruct (operations_without_store GeneratorFixtures.default_settings (λ _, Ok [1%Qc]) Ok
        StorageFixtures.two_hits (λ x, x) (λ _, "timeout") (λ x, x) (λ _, "now")
        (λ _, "0.900") (λ _, "300.00") (λ _, "50.00") (λ _, "2") (default "nan")
              "best customers" "all" "Euro Shopping" GeneratorFixtures.flaky_once
              StorageFixtures.unreachable_collection default_dimension_ok eq_refl)
    as [(text & w' & s' & prompt & Hrun & _) _].
  by exists text, w', s'.
Defined.
End agent_extras_witness.

(** ** The embedding batches *)

Section batch_extras.
Import Processor Storage Generator GeneratorBatch.
Variable settings : Settings.t.
Variable GROQ_API_KEY : string.
Variable encode : string → result vector.
Variable astype_float32 : vector → result vector.
Variable strip : string → string.
Variable fmt_money : option Qc → string.
Variable fmt_2f : option Qc → string.
Variable fmt_3f : Qc → string.
Variable fmt_num : Qc → string.
Variable fmt_int : nat → string.
Variable fmt_cell : option string → string.
Variable str_date : option Z → string.
Variable repr_dict : list (string * nat) → string.

Lemma enhance_text_with_groq_run text context w :
  (1 ≤ Settings.RATE_LIMIT_REQUESTS settings)%Z →
  ∃ enhanced w',
    enhance_text_with_groq settings strip text context w = (Ok enhanced, w')
    ∧ length (groq_prompts w') = S (length (groq_prompts w))
    ∧ length (slept w) ≤ length (slept w').
Proof.
  intros Hlimit. unfold enhance_text_with_groq, retry. cbn [Nat.sub retry_from].
  unfold enhance_text_with_groq_once, _check_rate_limit. cbv zeta.
  destruct (decide (_ ≤ _)%Z) as [Hfull|Hfree].
  - destruct (filter _ (rate_limit_tracker w)) as [|oldest rest] eqn:Hrecent.
    { cbn in Hfull. lia. }
    unfold groq_complete. cbn.
    destruct (groq_script w) as [|[content|e] script]; cbn; eexists _, _;
      (split; [done|]); cbn; rewrite !length_app; cbn; lia.
  - unfold groq_complete. cbn.
    destruct (groq_script w) as [|[content|e] script]; cbn; eexists _, _;
      (split; [done|]); cbn; rewrite !length_app; cbn; lia.
Qed.

Section loop_facts.
Context {T : Type}.
Variable create_text : string → T → outcome string.
Variable context : string → T → string.
Variable metadata_of : T → Metadata.

Lemma generate_embeddings_from_run items embeddings w :
  (0 ≤ Settings.EMBEDDING_DIMENSION settings)%Z →
  (GROQ_API_KEY ≠ "" → (1 ≤ Settings.RATE_LIMIT_REQUESTS settings)%Z) →
  Forall (λ kv, ∃ base_text, create_text kv.1 kv.2 = Done base_text) items →
  NoDup (embeddings.*1 ++ items.*1) →
  ∃ new w',
    generate_embeddings_from settings GROQ_API_KEY encode astype_float32 strip
      create_text context metadata_of items embeddings w
    = (Done (embeddings ++ new), w')
    ∧ Forall2 (λ kv ke,
                 ke.1 = kv.1 ∧ ke.2.1 = kv.2
                 ∧ metadata ke.2.2 = metadata_of kv.2
                 ∧ generate_text_embedding settings encode astype_float32 (text ke.2.2)
                   = Ok (embedding ke.2.2)
                 ∧ (GROQ_API_KEY = "" → create_text kv.1 kv.2 = Done (text ke.2.2)))
              items new
    ∧ length (groq_prompts w')
      = length (groq_prompts w)
        + (if decide (GROQ_API_KEY ≠ "") then length items else 0)
    ∧ length (slept w) + length items ≤ length (slept w').
Proof.
  intros Hdim Hlimit Htexts. revert embeddings w.
  induction Htexts as [|[key item] items [base_text Hbase] _ IH]; intros embeddings w Hnd.
  - exists [], w. rewrite app_nil_r. split; [done|]. split; [constructor|].
    case_decide; cbn; split; lia.
  - cbn [generate_embeddings_from]. cbn in Hbase. rewrite Hbase.
    assert (∃ enhanced w1,
              (if decide (GROQ_API_KEY ≠ "")
               then enhance_text_with_groq settings strip base_text (context key item) w
               else (Ok base_text, w)) = (Ok enhanced, w1)
              ∧ length (groq_prompts w1)
                = length (groq_prompts w) + (if decide (GROQ_API_KEY ≠ "") then 1 else 0)
              ∧ length (slept w) ≤ length (slept w1)
              ∧ (GROQ_API_KEY = "" → enhanced = base_text))
      as (enhanced & w1 & -> & Hprompts & Hslept & Hplain).
    { destruct (decide (GROQ_API_KEY ≠ "")) as [Hkey|Hkey].
      - destruct (enhance_text_with_groq_run base_text (context key item) w (Hlimit Hkey))
          as (enhanced & w1 & -> & ? & ?).
        exists enhanced, w1. split; [done|]. split; [lia|]. split; [done|]. done.
      - exists base_text, w. split; [done|]. split; [lia|]. split; [lia|]. done. }
    destruct (generate_text_embedding_total settings encode astype_float32 enhanced Hdim)
      as [vec Hvec].
    rewrite Hvec. cbv zeta.
    rewrite fmap_cons in Hnd. cbn [fst] in Hnd.
    rewrite dict_set_fresh.
    2:{ apply NoDup_app in Hnd as (_ & Hfresh & _). intros Hin.
        apply (Hfresh key Hin). left. }
    destruct (IH (embeddings ++ [(key, (item, mkEmbeddingData enhanced vec (metadata_of item)))])
                 (sleep (Q2Qc (1 # 10)) w1))
      as (new & w' & -> & Hall & Hsent & Hnaps).
    { rewrite fmap_app, <-app_assoc. done. }
    eexists (_ :: new), w'. rewrite <-app_assoc. split; [done|].
    split.
    { constructor; [|done]. cbn. repeat split; try done.
      intros Hnokey. by rewrite (Hplain Hnokey). }
    cbn in Hsent, Hnaps. rewrite length_app in Hnaps. cbn in Hnaps.
    cbn [length]. case_decide; lia.
Qed.
Lemma generate_embeddings_from_fails items embeddings w :
  (∃ kv e, kv ∈ items ∧ create_text kv.1 kv.2 = Failed e) →
  ∃ e w',
    generate_embeddings_from settings GROQ_API_KEY encode astype_float32 strip
      create_text context metadata_of items embeddings w
    = (Failed e, w').
Proof.
  intros (kv & e & Hin & Hfail). revert embeddings w.
  induction items as [|[key item] items IH]; intros embeddings w.
  { by apply elem_of_nil in Hin. }
  cbn [generate_embeddings_from].
  destruct (create_text key item) as [base_text|e0] eqn:Hbase; [|by eexists _, _].
  destruct (if decide (GROQ_API_KEY ≠ "") then _ else _) as [[enhanced|e1] w1];
    [|by eexists _, _].
  destruct (generate_text_embedding _ _ _ enhanced) as [vec|e2]; [|by eexists _, _].
  cbv zeta. apply IH.
  apply elem_of_cons in Hin as [->|Hin]; [|done].
  cbn in Hfail. congruence.
Qed.
End loop_facts.

Lemma create_customer_text_Done (profile : CustomerProfile.t) :
  None ∉ CustomerProfile.deal_sizes profile →
  CustomerProfile.preferred_products profile ≠ [] →
  ∃ base_text,
    create_customer_text strip fmt_money fmt_int fmt_cell str_date profile = Done base_text.
Proof.
  intros Hdeals Hpreferred. unfold create_customer_text, join.
  assert (list_find (λ x : option string, x = None) (CustomerProfile.deal_sizes profile)
          = None) as ->.
  { apply list_find_None, Forall_forall. by intros x Hx ->. }
  destruct (CustomerProfile.preferred_products profile); [done|by eexists].
Qed.

Lemma create_customer_text_Failed (profile : CustomerProfile.t) :
  None ∈ CustomerProfile.deal_sizes profile →
  ∃ msg,
    create_customer_text strip fmt_money fmt_int fmt_cell str_date profile
    = Failed (TypeError msg).
Proof.
  intros Hdeals. unfold create_customer_text, join.
  destruct (list_find _ _) as [[i x]|] eqn:Hfind; [by eexists|].
  apply list_find_None in Hfind. rewrite Forall_forall in Hfind.
  by destruct (Hfind None Hdeals).
Qed.

(** X20. The configured dimension is assumed not to be
    negative. Given distinct customer names, profiles without a missing deal
    size and, when an API key is set, a limit of at least one request,
    [generate_customer_embeddings] returns one record per profile, in
    the order of the profiles and under the same names. Each record
    holds its profile, the territory, total sales and status of the
    profile as metadata, and the embedding of its text. Without an API
    key the text is the customer text and Groq is never asked; with a
    key Groq is asked once per profile. The clock sleeps at least once
    per profile. *)
Theorem generate_customer_embeddings_records
    (customer_profiles : list (string * CustomerProfile.t)) (w : World) :
  (0 ≤ Settings.EMBEDDING_DIMENSION settings)%Z →
  (GROQ_API_KEY ≠ "" → (1 ≤ Settings.RATE_LIMIT_REQUESTS settings)%Z) →
  NoDup customer_profiles.*1 →
  Forall (λ kp, (None ∉ CustomerProfile.deal_sizes kp.2)
                ∧ (CustomerProfile.preferred_products kp.2 ≠ [])) customer_profiles →
  ∃ embeddings w',
    generate_customer_embeddings settings GROQ_API_KEY encode astype_float32 strip
      fmt_money fmt_int fmt_cell str_date customer_profiles w = (Done embeddings, w')
    ∧ Forall2 (λ kp ke,
                 ke.1 = kp.1 ∧ ke.2.1 = kp.2
                 ∧ metadata ke.2.2
                   = CustomerMeta (CustomerProfile.territory kp.2)
                                  (CustomerProfile.total_sales kp.2)
                                  (CustomerProfile.customer_status kp.2)
                 ∧ generate_text_embedding settings encode astype_float32 (text ke.2.2)
                   = Ok (embedding ke.2.2)
                 ∧ (GROQ_API_KEY = "" →
                    create_customer_text strip fmt_money fmt_int fmt_cell str_date kp.2
                    = Done (text ke.2.2)))
              customer_profiles embeddings
    ∧ length (groq_prompts w')
      = length (groq_prompts w)
        + (if decide (GROQ_API_KEY ≠ "") then length customer_profiles else 0)
    ∧ length (slept w) + length customer_profiles ≤ length (slept w').
Proof.
  intros Hdim Hlimit Hnames Hprofiles. unfold generate_customer_embeddings.
  match goal with
  | |- context [generate_embeddings_from _ _ _ _ _ ?ct ?cx ?md _ _ _] =>
      destruct (generate_embeddings_from_run ct cx md customer_profiles [] w Hdim Hlimit)
        as (new & w' & Hrun & Hall & Hsent & Hnaps)
  end.
  - eapply Forall_impl; [exact Hprofiles|]. intros kp [Hdeals Hpreferred]. cbn.
    by apply create_customer_text_Done.
  - done.
  - exists new, w'. done.
Qed.

(** X21. The configured dimension is assumed not to be
    negative. Given distinct keys and, when an API key is set, a limit of at
    least one request, [generate_product_embeddings] and
    [generate_territory_embeddings] never fail and return one record per
    entry, in order and under the same keys, with the product line,
    performance score and typical deal size of the product, or the
    market share, total sales and unique customers of the territory,
    as metadata. *)
Theorem generate_catalog_embeddings_records
    (product_catalog : list (string * Product.t))
    (territory_analysis : list (string * Territory.t)) (w : World) :
  (0 ≤ Settings.EMBEDDING_DIMENSION settings)%Z →
  (GROQ_API_KEY ≠ "" → (1 ≤ Settings.RATE_LIMIT_REQUESTS settings)%Z) →
  NoDup product_catalog.*1 →
  NoDup territory_analysis.*1 →
  (∃ embeddings w',
     generate_product_embeddings settings GROQ_API_KEY encode astype_float32 strip
      fmt_money fmt_3f fmt_num fmt_int product_catalog w = (Done embeddings, w')
     ∧ Forall2 (λ kd ke,
                  ke.1 = kd.1 ∧ ke.2.1 = kd.2
                  ∧ metadata ke.2.2
                    = ProductMeta (Product.product_line kd.2)
                                  (Product.performance_score kd.2)
                                  (Product.typical_deal_size kd.2))
               product_catalog embeddings)
  ∧ (∃ embeddings w',
       generate_territory_embeddings settings GROQ_API_KEY encode astype_float32 strip
      fmt_money fmt_2f fmt_int repr_dict territory_analysis w = (Done embeddings, w')
       ∧ Forall2 (λ kd ke,
                    ke.1 = kd.1 ∧ ke.2.1 = kd.2
                    ∧ metadata ke.2.2
                      = TerritoryMeta (Territory.market_share kd.2)
                                      (Territory.total_sales kd.2)
                                      (Territory.unique_customers kd.2))
                 territory_analysis embeddings).
Proof.
  intros Hdim Hlimit Hproducts Hterritories. split.
  - unfold generate_product_embeddings.
    match goal with
    | |- context [generate_embeddings_from _ _ _ _ _ ?ct ?cx ?md _ _ _] =>
        destruct (generate_embeddings_from_run ct cx md product_catalog [] w Hdim Hlimit)
          as (new & w' & Hrun & Hall & _)
    end.
    + apply Forall_forall. intros kd _. by eexists.
    + done.
    + exists new, w'. split; [done|].
      eapply Forall2_impl; [exact Hall|]. by intros kd ke (? & ? & ? & _).
  - unfold generate_territory_embeddings.
    match goal with
    | |- context [generate_embeddings_from _ _ _ _ _ ?ct ?cx ?md _ _ _] =>
        destruct (generate_embeddings_from_run ct cx md territory_analysis [] w Hdim Hlimit)
          as (new & w' & Hrun & Hall & _)
    end.
    + apply Forall_forall. intros kd _. by eexists.
    + done.
    + exists new, w'. split; [done|].
      eapply Forall2_impl; [exact Hall|]. by intros kd ke (? & ? & ? & _).
Qed.
Lemma customer_profile_Ok name g profile :
  customer_profile name g = Ok profile →
  CustomerProfile.deal_sizes profile = unique (DEALSIZE <$> g)
  ∧ ∃ preferred, CustomerProfile.preferred_products profile = [preferred].
Proof.
  unfold customer_profile. destruct (most_frequent _) as [preferred|e]; [|done].
  cbn. intros [= <-]. cbn. split; [done|by eexists].
Qed.

Lemma created_profile df profiles kp :
  create_customer_profiles df = Ok profiles →
  kp ∈ profiles →
  kp.1 ∈ group_keys String.le CUSTOMERNAME df
  ∧ customer_profile kp.1 (group_rows CUSTOMERNAME df kp.1) = Ok kp.2.
Proof.
  intros Hall%create_customer_profiles_Forall2 Hin.
  apply list_elem_of_lookup in Hin as [i Hi].
  destruct (Forall2_lookup_r _ _ _ _ _ Hall Hi) as (k & Hk & <- & Hprofile).
  split; [|done]. by apply list_elem_of_lookup_2 in Hk.
Qed.

(** X22. When a row with a customer name has no deal size, the customer
    batch fails on the profiles that [create_customer_profiles] built
    from the frame: no embedding is returned for any customer. *)
Theorem missing_deal_size_fails_the_batch
    (df : DataFrame) (profiles : list (string * CustomerProfile.t))
    (r : Row) (name : string) (w : World) :
  r ∈ df → CUSTOMERNAME r = Some name → DEALSIZE r = None →
  create_customer_profiles df = Ok profiles →
  ∃ e w',
    generate_customer_embeddings settings GROQ_API_KEY encode astype_float32 strip
      fmt_money fmt_int fmt_cell str_date profiles w = (Failed e, w').
Proof.
  intros Hr Hname Hdeal Hprofiles.
  pose proof (create_customer_profiles_Forall2 _ _ Hprofiles) as Hall.
  assert (name ∈ group_keys String.le CUSTOMERNAME df) as Hkey.
  { apply elem_of_group_keys. by exists r. }
  apply list_elem_of_lookup in Hkey as [i Hi].
  destruct (Forall2_lookup_l _ _ _ _ _ Hall Hi) as (kp & Hkp & Hk & Hprofile).
  apply customer_profile_Ok in Hprofile as [Hdeals _].
  apply generate_embeddings_from_fails.
  destruct (create_customer_text_Failed kp.2) as [msg Hfail].
  { rewrite Hdeals, elem_of_unique, list_elem_of_fmap. exists r. split; [done|].
    apply list_elem_of_filter. by split. }
  exists kp, (TypeError msg). split; [by apply list_elem_of_lookup_2 in Hkp|done].
Qed.

(** X23. The configured dimension is assumed not to be
    negative. When every row with a customer name has a product line and a
    deal size and, with an API key set, the limit is at least one
    request, profile creation followed by the customer batch succeeds
    and returns one record per distinct customer name of the frame, in
    sorted order, each holding the profile of that customer. *)
Theorem customer_pipeline_embeds_every_customer (df : DataFrame) (w : World) :
  (0 ≤ Settings.EMBEDDING_DIMENSION settings)%Z →
  (GROQ_API_KEY ≠ "" → (1 ≤ Settings.RATE_LIMIT_REQUESTS settings)%Z) →
  (∀ r, r ∈ df → is_Some (CUSTOMERNAME r) →
        is_Some (PRODUCTLINE r) ∧ is_Some (DEALSIZE r)) →
  ∃ profiles embeddings w',
    create_customer_profiles df = Ok profiles
    ∧ generate_customer_embeddings settings GROQ_API_KEY encode astype_float32 strip
      fmt_money fmt_int fmt_cell str_date profiles w = (Done embeddings, w')
    ∧ embeddings.*1 = group_keys String.le CUSTOMERNAME df
    ∧ Forall2 (λ kp ke, ke.2.1 = kp.2) profiles embeddings.
Proof.
  intros Hdim Hlimit Hrows.
  destruct (create_customer_profiles_returns df) as [profiles Hprofiles].
  { intros r Hr Hname. by destruct (Hrows r Hr Hname). }
  exists profiles. unfold generate_customer_embeddings.
  match goal with
  | |- context [generate_embeddings_from _ _ _ _ _ ?ct ?cx ?md _ _ _] =>
      destruct (generate_embeddings_from_run ct cx md profiles [] w Hdim Hlimit)
        as (new & w' & Hrun & Hall & _)
  end.
  - apply Forall_forall. intros kp Hkp. cbn.
    destruct (created_profile _ _ _ Hprofiles Hkp) as [_ Hprofile].
    apply customer_profile_Ok in Hprofile as [Hdeals [preferred Hpreferred]].
    apply create_customer_text_Done; [|by rewrite Hpreferred].
    rewrite Hdeals, elem_of_unique, list_elem_of_fmap. intros (r & Hnone & Hr).
    apply list_elem_of_filter in Hr as [Hname Hr].
    destruct (Hrows r Hr) as [_ [deal Hdeal]]; [by rewrite Hname|]. congruence.
  - cbn. rewrite (create_customer_profiles_keys _ _ Hprofiles). apply NoDup_group_keys.
  - exists new, w'. split; [done|]. split; [done|]. split.
    + rewrite <-(create_customer_profiles_keys _ _ Hprofiles).
      clear -Hall. induction Hall as [|kp ke ? ? (Hk & _) _ IH]; [done|].
      rewrite !fmap_cons. by f_equal.
    + eapply Forall2_impl; [exact Hall|]. by intros kp ke (_ & ? & _).
Qed.
End batch_extras.

Section batch_extras_witness.
Import Processor Storage Generator GeneratorBatch Fixtures GeneratorFixtures BatchFixtures.

Lemma batch_dimension_ok : (0 ≤ Settings.EMBEDDING_DIMENSION default_settings)%Z.
Proof. cbn. lia. Qed.

(** Witness of X20: one profile, an API key and the default limit. *)
Lemma generate_customer_embeddings_records_witness :
  ∃ embeddings w',
    generate_customer_embeddings default_settings "gsk" (λ _, Ok [1%Qc]) Ok (λ x, x)
      (λ _, "300.00") (λ _, "3") (default "nan") (λ _, "2004-01-01")
      [("Euro Shopping", euro_profile)] flaky_once
    = (Done embeddings, w')
    ∧ length (groq_prompts w') = 1.
Proof.
  destruct (generate_customer_embeddings_records default_settings "gsk"
              (λ _, Ok [1%Qc]) Ok (λ x, x) (λ _, "300.00") (λ _, "3") (default "nan")
              (λ _, "2004-01-01") [("Euro Shopping", euro_profile)] flaky_once
              batch_dimension_ok)
    as (embeddings & w' & Hrun & _ & Hsent & _).
  - intros _. cbn. lia.
  - apply (bool_decide_unpack _). by vm_compute.
  - repeat constructor; cbn; [|done].
    intros Hin. apply list_elem_of_singleton in Hin. done.
  - exists embeddings, w'. split; [exact Hrun|]. exact Hsent.
Defined.

(** Witness of X21: one product and one territory, no API key. *)
Lemma generate_catalog_embeddings_records_witness :
  ∃ embeddings w',
    generate_product_embeddings default_settings "" (λ _, Ok [1%Qc]) Ok (λ x, x)
      (λ _, "300.00") (λ _, "1.000") (λ _, "90") (λ _, "3")
      [("Classic Cars_S10_1949", classic_car)] flaky_once
    = (Done embeddings, w').
Proof.
  destruct (generate_catalog_embeddings_records default_settings ""
              (λ _, Ok [1%Qc]) Ok (λ x, x) (λ _, "300.00") (λ _, "100.00") (λ _, "1.000")
              (λ _, "90") (λ _, "3") (λ _, "{'Medium': 3}")
              [("Classic Cars_S10_1949", classic_car)] [("EMEA", emea)] flaky_once
              batch_dimension_ok)
    as [(embeddings & w' & Hrun & _) _].
  - intros Hkey. by destruct Hkey.
  - apply (bool_decide_unpack _). by vm_compute.
  - apply (bool_decide_unpack _). by vm_compute.
  - by exists embeddings, w'.
Defined.

(** Witness of X22: the second order line of Euro Shopping has no deal
    size. *)
Lemma missing_deal_size_fails_the_batch_witness :
  ∃ profiles e w',
    create_customer_profiles order_without_deal_size = Ok profiles
    ∧ generate_customer_embeddings default_settings "gsk" (λ _, Ok [1%Qc]) Ok (λ x, x)
        (λ _, "300.00") (λ _, "3") (default "nan") (λ _, "2004-01-01")
        profiles flaky_once
      = (Failed e, w').
Proof.
  destruct (create_customer_profiles order_without_deal_size)
    as [profiles|e] eqn:Hrun; [|by vm_compute in Hrun].
  destruct (missing_deal_size_fails_the_batch default_settings "gsk"
              (λ _, Ok [1%Qc]) Ok (λ x, x) (λ _, "300.00") (λ _, "3") (default "nan")
              (λ _, "2004-01-01") order_without_deal_size profiles
              (mkRow (Some 10101%Z) (Some (Qc_of_Z 20)) (Some (Qc_of_Z 50))
                     (Some (Qc_of_Z 80)) (Some 20040201%Z) (Some "Shipped")
                     (Some "Classic Cars") (Some "S10_1949") (Some "Euro Shopping")
                     (Some "555-0100") (Some "Madrid") None None (Some "Spain")
                     (Some "EMEA") (Some "Freyre") (Some "Diego") None [])
              "Euro Shopping" flaky_once)
    as (e & w' & Hfail).
  - right. left.
  - reflexivity.
  - reflexivity.
  - exact Hrun.
  - by exists profiles, e, w'.
Defined.

(** Witness of X23: customers A and B of the scenario of the
    specification. *)
Lemma customer_pipeline_embeds_every_customer_witness :
  ∃ profiles embeddings w',
    create_customer_profiles two_customers = Ok profiles
    ∧ generate_customer_embeddings default_settings "gsk" (λ _, Ok [1%Qc]) Ok (λ x, x)
        (λ _, "300.00") (λ _, "3") (default "nan") (λ _, "2004-01-01")
        profiles flaky_once
      = (Done embeddings, w')
    ∧ length embeddings = 2.
Proof.
  destruct (customer_pipeline_embeds_every_customer default_settings "gsk"
              (λ _, Ok [1%Qc]) Ok (λ x, x) (λ _, "300.00") (λ _, "3") (default "nan")
              (λ _, "2004-01-01") two_customers flaky_once batch_dimension_ok)
    as (profiles & embeddings & w' & Hprofiles & Hrun & Hkeys & _).
  - intros _. cbn. lia.
  - intros r Hr _.
    by repeat (apply elem_of_cons in Hr as [->|Hr]; [by split; eexists|]);
      apply not_elem_of_nil in Hr.
  - exists profiles, embeddings, w'. split; [exact Hprofiles|]. split; [exact Hrun|].
    rewrite <-(length_fmap fst), Hkeys. by vm_compute.
Defined.
End batch_extras_witness.
